(** * FCL: continuous-collision dispatch and the dynamic AABB tree manager

    A shallow embedding of [include/fcl/continuous_collision.h] and of
    [include/fcl/broadphase/broadphase_dynamic_AABB_tree.h], with the
    properties of the library's specification stated and proved over it.

    Conventions.
    - [Scalar] arithmetic is exact (rationals).  Rounding is abstracted; the
      special values of IEEE division are kept where the code can produce
      them (the sample time of the naive solver).
    - Objects reached through pointers and mutated by a call are returned
      by the model of that call (explicit state passing).
    - Collaborators that live in other headers (motions, narrow phase,
      hierarchy tree, octree) are section variables or class members. *)

From Stdlib Require Import ZArith QArith Qround Qabs Reals Lia Psatz List Bool.
From stdpp Require Import base option list gmap.
Import ListNotations.

Set Default Proof Using "Type".
Local Open Scope Z_scope.

(* ===================================================================== *)
(** ** Part I: [continuous_collision.h]                                  *)
(* ===================================================================== *)

Module CCD.

(** *** Scalars with the special values of IEEE division *)

(** [Scalar] in this header: a finite value, an infinity, or NaN.  Zero is
    taken as [+0]. *)
Inductive Scalar : Type :=
| Finite (q : Q)
| PInf
| NInf
| NaN.

Definition Qsign_pos (q : Q) : bool := (0 <? Qnum q)%Z.
Definition Qis_zero (q : Q) : bool := (Qnum q =? 0)%Z.

(** [a / b] on [Scalar]. *)
Definition sdiv (a b : Scalar) : Scalar :=
  match a, b with
  | NaN, _ | _, NaN => NaN
  | Finite x, Finite y =>
      if Qis_zero y then
        if Qis_zero x then NaN else if Qsign_pos x then PInf else NInf
      else Finite (x / y)
  | Finite _, PInf | Finite _, NInf => Finite 0
  | PInf, Finite y => if Qsign_pos y || Qis_zero y then PInf else NInf
  | NInf, Finite y => if Qsign_pos y || Qis_zero y then NInf else PInf
  | PInf, PInf | PInf, NInf | NInf, PInf | NInf, NInf => NaN
  end.

(** [ceil]. *)
Definition sceil (a : Scalar) : Scalar :=
  match a with
  | Finite q => Finite (inject_Z (Qceiling q))
  | other => other
  end.

Definition size_t_max : Z := 2 ^ 64 - 1.

(** [(std::size_t) x] for a floating-point [x]: truncation towards zero,
    defined only when the truncated value fits [std::size_t]. *)
Definition Qtruncate (q : Q) : Z :=
  if Qsign_pos q then Qfloor q else Qceiling q.

Definition to_size_t (a : Scalar) : option Z :=
  match a with
  | Finite q =>
      let z := Qtruncate q in
      if (0 <=? z) && (z <=? size_t_max) then Some z else None
  | _ => None
  end.

(** [(Scalar) n] for an integer [n]. *)
Definition of_size_t (n : Z) : Scalar := Finite (inject_Z n).

(** Unsigned wrap-around of [std::size_t] arithmetic. *)
Definition wrap (n : Z) : Z := n mod 2 ^ 64.

(** *** Enumerations consulted by the dispatcher *)

(** Modelled from the spec: [collision_data.h] is not among the sources.
    The four solver kinds of the selection matrix; [CCDC_other] stands for
    any other value the enum object may hold (the [default:] branch). *)
Inductive CCDSolverType : Type :=
| CCDC_NAIVE
| CCDC_CONSERVATIVE_ADVANCEMENT
| CCDC_RAY_SHOOTING
| CCDC_POLYNOMIAL_SOLVER
| CCDC_other (tag : Z).

(** Modelled from the spec: the motion kinds of the motion factory. *)
Inductive CCDMotionType : Type :=
| CCDM_TRANS
| CCDM_LINEAR
| CCDM_SCREW
| CCDM_SPLINE
| CCDM_other (tag : Z).

(** Modelled from the spec: the narrow-phase solver kinds. *)
Inductive GJKSolverType : Type :=
| GST_LIBCCD
| GST_INDEP
| GST_other (tag : Z).

(** Modelled from the spec: [collision_geometry.h] is not among the
    sources.  Object kinds. *)
Inductive OBJECT_TYPE : Type :=
| OT_UNKNOWN
| OT_BVH
| OT_GEOM
| OT_OCTREE.

(** Modelled from the spec: node kinds.  The eight bounding-volume kinds
    with a polynomial kernel are listed; [NT_other] covers every other
    node kind (geometric primitives, octree, unknown BV). *)
Inductive NODE_TYPE : Type :=
| BV_AABB
| BV_OBB
| BV_RSS
| BV_kIOS
| BV_OBBRSS
| BV_KDOP16
| BV_KDOP18
| BV_KDOP24
| NT_other (tag : Z).

Definition NODE_TYPE_eqb (a b : NODE_TYPE) : bool :=
  match a, b with
  | BV_AABB, BV_AABB | BV_OBB, BV_OBB | BV_RSS, BV_RSS | BV_kIOS, BV_kIOS
  | BV_OBBRSS, BV_OBBRSS | BV_KDOP16, BV_KDOP16 | BV_KDOP18, BV_KDOP18
  | BV_KDOP24, BV_KDOP24 => true
  | NT_other s, NT_other t => (s =? t)%Z
  | _, _ => false
  end.

Definition OBJECT_TYPE_eqb (a b : OBJECT_TYPE) : bool :=
  match a, b with
  | OT_UNKNOWN, OT_UNKNOWN | OT_BVH, OT_BVH | OT_GEOM, OT_GEOM
  | OT_OCTREE, OT_OCTREE => true
  | _, _ => false
  end.

Definition CCDMotionType_eqb (a b : CCDMotionType) : bool :=
  match a, b with
  | CCDM_TRANS, CCDM_TRANS | CCDM_LINEAR, CCDM_LINEAR
  | CCDM_SCREW, CCDM_SCREW | CCDM_SPLINE, CCDM_SPLINE => true
  | CCDM_other s, CCDM_other t => (s =? t)%Z
  | _, _ => false
  end.

(** The collaborators of the dispatcher: transforms, geometries, motions
    and the discrete narrow phase. *)
Class Narrowphase : Type := {
  Transform3 : Type;
  CollisionGeometry : Type;
  getObjectType : CollisionGeometry -> OBJECT_TYPE;
  getNodeType : CollisionGeometry -> NODE_TYPE;
  (** [MotionBase]: [integrate] advances the motion's internal state,
      [getCurrentTransform] reads it. *)
  MotionBase : Type;
  integrate : MotionBase -> Scalar -> MotionBase;
  getCurrentTransform : MotionBase -> Transform3;
  (** Discrete [collide(o1, tf1, o2, tf2, request, result)] with a default
      request: the number of contacts. *)
  collide :
    CollisionGeometry -> Transform3 -> CollisionGeometry -> Transform3 -> Z
}.

Section Dispatch.

Context {NP : Narrowphase}.

Record ContinuousCollisionRequest : Type := {
  ccd_solver_type : CCDSolverType;
  ccd_motion_type : CCDMotionType;
  gjk_solver_type : GJKSolverType;
  num_max_iterations : Z;
  toc_err : Scalar
}.

Record ContinuousCollisionResult : Type := {
  is_collide : bool;
  time_of_contact : Scalar;
  contact_tf1 : Transform3;
  contact_tf2 : Transform3
}.

(** The objects a call reaches through its pointer and reference
    arguments, as they stand when the call returns. *)
Record Pointees : Type := {
  o1_ : CollisionGeometry;
  motion1_ : MotionBase;
  o2_ : CollisionGeometry;
  motion2_ : MotionBase;
  result_ : ContinuousCollisionResult
}.

(** [n_iter = std::min(request.num_max_iterations,
                       (std::size_t)ceil(1 / request.toc_err))]. *)
Definition n_iter_of (request : ContinuousCollisionRequest) : option Z :=
  match to_size_t (sceil (sdiv (Finite 1) (toc_err request))) with
  | Some c => Some (Z.min (num_max_iterations request) c)
  | None => None
  end.

(** [t = i / (Scalar) (n_iter - 1)]. *)
Definition sample_time (n_iter i : Z) : Scalar :=
  sdiv (of_size_t i) (of_size_t (wrap (n_iter - 1))).

(** The [for] loop of [continuousCollideNaive], with [remaining]
    iterations to go from index [i].  [Some t]: the loop returned [t];
    [None]: it ran to its end. *)
Fixpoint naive_loop (remaining : nat) (i n_iter : Z)
    (o1 : CollisionGeometry) (motion1 : MotionBase)
    (o2 : CollisionGeometry) (motion2 : MotionBase)
    (result : ContinuousCollisionResult)
  : option Scalar * Pointees :=
  match remaining with
  | O => (None, Build_Pointees o1 motion1 o2 motion2 result)
  | S remaining' =>
      let t := sample_time n_iter i in
      let motion1 := integrate motion1 t in
      let motion2 := integrate motion2 t in
      let cur_tf1 := getCurrentTransform motion1 in
      let cur_tf2 := getCurrentTransform motion2 in
      if negb (collide o1 cur_tf1 o2 cur_tf2 =? 0) then
        (Some t,
         Build_Pointees o1 motion1 o2 motion2
           {| is_collide := true;
              time_of_contact := t;
              contact_tf1 := cur_tf1;
              contact_tf2 := cur_tf2 |})
      else
        naive_loop remaining' (i + 1) n_iter o1 motion1 o2 motion2 result
  end.

(** [continuousCollideNaive].  [None]: the conversion to [std::size_t] is
    undefined. *)
Definition continuousCollideNaive
    (o1 : CollisionGeometry) (motion1 : MotionBase)
    (o2 : CollisionGeometry) (motion2 : MotionBase)
    (request : ContinuousCollisionRequest)
    (result : ContinuousCollisionResult)
  : option (Scalar * Pointees) :=
  match n_iter_of request with
  | None => None
  | Some n_iter =>
      match naive_loop (Z.to_nat n_iter) 0 n_iter o1 motion1 o2 motion2 result with
      | (Some t, p) => Some (t, p)
      | (None, p) =>
          let result := result_ p in
          let result :=
            {| is_collide := false;
               time_of_contact := Finite 1;
               contact_tf1 := contact_tf1 result;
               contact_tf2 := contact_tf2 result |} in
          Some (time_of_contact result,
                Build_Pointees (o1_ p) (motion1_ p) (o2_ p) (motion2_ p) result)
      end
  end.

(** The sample times of the loop from index [i] on, [remaining] of them. *)
Fixpoint times_from (n_iter i : Z) (remaining : nat) : list Scalar :=
  match remaining with
  | O => []
  | S remaining' => sample_time n_iter i :: times_from n_iter (i + 1) remaining'
  end.

(** The sample times [t_0, ..., t_(n_iter - 1)] in the order of the loop. *)
Definition sample_times (n_iter : Z) : list Scalar :=
  times_from n_iter 0 (Z.to_nat n_iter).



(** A finite scalar of value [q]. *)
Definition has_value (a : Scalar) (q : Q) : Prop :=
  match a with
  | Finite p => (p == q)%Q
  | _ => False
  end.

(** A finite scalar within [[0, 1]]. *)
Definition in_unit_interval (a : Scalar) : Prop :=
  match a with
  | Finite p => (0 <= p /\ p <= 1)%Q
  | _ => False
  end.

End Dispatch.

(** [details::continuousCollideBVHPolynomial<BV>] (the mesh kernel, one per
    bounding-volume kind) and
    [details::continuousCollideConservativeAdvancement] (with the
    conservative-advancement matrix, one per narrow-phase solver) are
    collaborators of the dispatcher. *)
Class Solvers {NP : Narrowphase} : Type := {
  details_continuousCollideBVHPolynomial :
    NODE_TYPE ->
    CollisionGeometry -> MotionBase -> CollisionGeometry -> MotionBase ->
    ContinuousCollisionRequest -> ContinuousCollisionResult ->
    Scalar * Pointees;
  details_continuousCollideConservativeAdvancement :
    GJKSolverType ->
    CollisionGeometry -> MotionBase -> CollisionGeometry -> MotionBase ->
    ContinuousCollisionRequest -> ContinuousCollisionResult ->
    Scalar * Pointees
}.

Section Dispatcher.

Context {NP : Narrowphase} {SV : Solvers}.

(** [continuousCollideBVHPolynomial]: the switch over [o1->getNodeType()]. *)
Definition continuousCollideBVHPolynomial
    (o1 : CollisionGeometry) (motion1 : MotionBase)
    (o2 : CollisionGeometry) (motion2 : MotionBase)
    (request : ContinuousCollisionRequest)
    (result : ContinuousCollisionResult)
  : Scalar * Pointees :=
  let unsupported :=
    (Finite (-1), Build_Pointees o1 motion1 o2 motion2 result) in
  let kernel bv :=
    if NODE_TYPE_eqb (getNodeType o2) bv then
      details_continuousCollideBVHPolynomial bv o1 motion1 o2 motion2
        request result
    else unsupported in
  match getNodeType o1 with
  | BV_AABB => kernel BV_AABB
  | BV_OBB => kernel BV_OBB
  | BV_RSS => kernel BV_RSS
  | BV_kIOS => kernel BV_kIOS
  | BV_OBBRSS => kernel BV_OBBRSS
  | BV_KDOP16 => kernel BV_KDOP16
  | BV_KDOP18 => kernel BV_KDOP18
  | BV_KDOP24 => kernel BV_KDOP24
  | NT_other _ => unsupported
  end.

(** [continuousCollideConservativeAdvancement]: the switch over
    [request.gjk_solver_type]. *)
Definition continuousCollideConservativeAdvancement
    (o1 : CollisionGeometry) (motion1 : MotionBase)
    (o2 : CollisionGeometry) (motion2 : MotionBase)
    (request : ContinuousCollisionRequest)
    (result : ContinuousCollisionResult)
  : Scalar * Pointees :=
  match gjk_solver_type request with
  | GST_LIBCCD =>
      details_continuousCollideConservativeAdvancement GST_LIBCCD
        o1 motion1 o2 motion2 request result
  | GST_INDEP =>
      details_continuousCollideConservativeAdvancement GST_INDEP
        o1 motion1 o2 motion2 request result
  | GST_other _ =>
      (Finite (-1), Build_Pointees o1 motion1 o2 motion2 result)
  end.

(** [continuousCollide] on motions: the switch over
    [request.ccd_solver_type]. *)
Definition continuousCollide
    (o1 : CollisionGeometry) (motion1 : MotionBase)
    (o2 : CollisionGeometry) (motion2 : MotionBase)
    (request : ContinuousCollisionRequest)
    (result : ContinuousCollisionResult)
  : option (Scalar * Pointees) :=
  let fall_through :=
    Some (Finite (-1), Build_Pointees o1 motion1 o2 motion2 result) in
  match ccd_solver_type request with
  | CCDC_NAIVE =>
      continuousCollideNaive o1 motion1 o2 motion2 request result
  | CCDC_CONSERVATIVE_ADVANCEMENT =>
      Some (continuousCollideConservativeAdvancement
              o1 motion1 o2 motion2 request result)
  | CCDC_RAY_SHOOTING =>
      fall_through
  | CCDC_POLYNOMIAL_SOLVER =>
      if OBJECT_TYPE_eqb (getObjectType o1) OT_BVH
         && OBJECT_TYPE_eqb (getObjectType o2) OT_BVH
         && CCDMotionType_eqb (ccd_motion_type request) CCDM_TRANS
      then
        Some (continuousCollideBVHPolynomial
                o1 motion1 o2 motion2 request result)
      else fall_through
  | CCDC_other _ =>
      fall_through
  end.

(** The bounding-volume kinds with a polynomial kernel. *)
Definition has_polynomial_kernel (t : NODE_TYPE) : bool :=
  match t with
  | NT_other _ => false
  | _ => true
  end.

(** The unsupported combinations: an unrecognised solver kind, the
    reserved ray-shooting solver, a polynomial request whose inputs are not
    both BVH meshes under translation, and a polynomial request on a pair
    of bounding-volume kinds with no kernel. *)
Definition unsupported (o1 o2 : CollisionGeometry)
    (request : ContinuousCollisionRequest) : bool :=
  match ccd_solver_type request with
  | CCDC_other _ => true
  | CCDC_RAY_SHOOTING => true
  | CCDC_POLYNOMIAL_SOLVER =>
      negb (OBJECT_TYPE_eqb (getObjectType o1) OT_BVH
            && OBJECT_TYPE_eqb (getObjectType o2) OT_BVH
            && CCDMotionType_eqb (ccd_motion_type request) CCDM_TRANS)
      || negb (has_polynomial_kernel (getNodeType o1)
               && NODE_TYPE_eqb (getNodeType o2) (getNodeType o1))
  | CCDC_NAIVE | CCDC_CONSERVATIVE_ADVANCEMENT => false
  end.

End Dispatcher.

(** *** A small world: boxes sliding along the x axis *)

(** A box of half extent [sb_half], tagged with the kinds it reports. *)
Record SlidingBox : Type := {
  sb_object : OBJECT_TYPE;
  sb_node : NODE_TYPE;
  sb_half : Q
}.

(** A translation from [lm_beg] to [lm_end]; [lm_cur] is the position
    after the last [integrate], [None] when it is not a number. *)
Record LineMotion : Type := {
  lm_beg : Q;
  lm_end : Q;
  lm_cur : option Q
}.

Definition line_integrate (m : LineMotion) (t : Scalar) : LineMotion :=
  {| lm_beg := lm_beg m;
     lm_end := lm_end m;
     lm_cur := match t with
               | Finite q => Some (lm_beg m + (lm_end m - lm_beg m) * q)%Q
               | _ => None
               end |}.

Definition box_collide (o1 : SlidingBox) (x1 : option Q)
    (o2 : SlidingBox) (x2 : option Q) : Z :=
  match x1, x2 with
  | Some a, Some b =>
      if Qle_bool (Qabs (a - b)) (sb_half o1 + sb_half o2)%Q then 1 else 0
  | _, _ => 0
  end.

#[export] Instance sliding_boxes : Narrowphase := {|
  Transform3 := option Q;
  CollisionGeometry := SlidingBox;
  getObjectType := sb_object;
  getNodeType := sb_node;
  MotionBase := LineMotion;
  integrate := line_integrate;
  getCurrentTransform := lm_cur;
  collide := box_collide
|}.

(** No mesh kernel and no conservative-advancement entry is registered for
    sliding boxes: both report [-1] and leave their arguments alone. *)
#[export] Instance no_solvers : Solvers (NP := sliding_boxes) := {|
  details_continuousCollideBVHPolynomial _ o1 motion1 o2 motion2 _ result :=
    (Finite (-1), Build_Pointees o1 motion1 o2 motion2 result);
  details_continuousCollideConservativeAdvancement _ o1 motion1 o2 motion2 _ result :=
    (Finite (-1), Build_Pointees o1 motion1 o2 motion2 result)
|}.

Definition unit_box : SlidingBox :=
  {| sb_object := OT_GEOM; sb_node := NT_other 9; sb_half := 1 # 2 |}.

Definition line (a b : Q) : LineMotion :=
  {| lm_beg := a; lm_end := b; lm_cur := Some a |}.

Definition fresh_result : ContinuousCollisionResult (NP := sliding_boxes) :=
  {| is_collide := false; time_of_contact := Finite 1;
     contact_tf1 := None; contact_tf2 := None |}.

Definition naive_request (iterations : Z) (err : Q)
  : ContinuousCollisionRequest :=
  {| ccd_solver_type := CCDC_NAIVE;
     ccd_motion_type := CCDM_TRANS;
     gjk_solver_type := GST_LIBCCD;
     num_max_iterations := iterations;
     toc_err := Finite err |}.

(** *** The kernels of [namespace details]

    [o1] and [o2] are taken to be distinct objects. *)

Module details.

Section Kernels.

Context {NP : Narrowphase}.

(** The shape of an entry of [ConservativeAdvancementFunctionMatrix]: it
    is called as [entry(o1, motion1, o2, motion2, nsolver, request,
    result)] and returns a [Scalar]. *)
Definition ConservativeAdvancementFunc : Type :=
  CollisionGeometry -> MotionBase -> CollisionGeometry -> MotionBase ->
  ContinuousCollisionRequest -> ContinuousCollisionResult ->
  Scalar * Pointees.

End Kernels.

(** Modelled from the spec: [ccd/conservative_advancement.h] is not among
    the sources.  The look-up table of a narrow-phase solver is a
    two-dimensional table of function pointers indexed by the node kinds
    of the two geometries; an absent entry is the unsupported case. *)
Class AdvancementMatrix {NP : Narrowphase} : Type := {
  (** [getConservativeAdvancementFunctionLookTable<NarrowPhaseSolver>()
      .conservative_advancement_matrix[node_type1][node_type2]]. *)
  conservative_advancement_matrix :
    GJKSolverType -> NODE_TYPE -> NODE_TYPE -> option ConservativeAdvancementFunc;
  (** An entry that is handed two null motions: the value it returns and
      the result it leaves; [None] when it dereferences a motion. *)
  entry_on_null_motions :
    GJKSolverType -> NODE_TYPE -> NODE_TYPE ->
    CollisionGeometry -> CollisionGeometry ->
    ContinuousCollisionRequest -> ContinuousCollisionResult ->
    option (Scalar * ContinuousCollisionResult)
}.

(** Modelled from the spec: [BVH/BVH_model.h] and the traversal headers
    are not among the sources.  A mesh has its vertices and a model-update
    cycle; a translation motion exposes its velocity; the continuous mesh
    traversal node is initialised on two meshes with their transforms
    ([None]: [initialize] returns [false]), run by [collide(&node)], and
    then holds the contact pairs and the time of contact. *)
Class MeshTraversal {NP : Narrowphase} : Type := {
  Vector3d : Type;
  Vector3d_plus : Vector3d -> Vector3d -> Vector3d;
  vertices : CollisionGeometry -> list Vector3d;
  beginUpdateModel : CollisionGeometry -> CollisionGeometry;
  updateSubModel : CollisionGeometry -> list Vector3d -> CollisionGeometry;
  endUpdateModel : CollisionGeometry -> bool -> bool -> CollisionGeometry;
  getVelocity : MotionBase -> Vector3d;
  MeshContinuousCollisionTraversalNode : Type;
  initialize :
    NODE_TYPE -> CollisionGeometry -> Transform3 ->
    CollisionGeometry -> Transform3 ->
    option MeshContinuousCollisionTraversalNode;
  collide_node :
    MeshContinuousCollisionTraversalNode -> MeshContinuousCollisionTraversalNode;
  pairs_size : MeshContinuousCollisionTraversalNode -> nat;
  node_time_of_contact : MeshContinuousCollisionTraversalNode -> Scalar
}.

Section Bodies.

Context {NP : Narrowphase} {AM : AdvancementMatrix} {MT : MeshTraversal}.

(** [details::continuousCollideBVHPolynomial<BV>]. *)
Definition continuousCollideBVHPolynomial (BV : NODE_TYPE)
    (o1_ : CollisionGeometry) (motion1 : MotionBase)
    (o2_ : CollisionGeometry) (motion2 : MotionBase)
    (request : ContinuousCollisionRequest)
    (result : ContinuousCollisionResult)
  : Scalar * Pointees :=
  let new_v1 :=
    map (fun v => Vector3d_plus v (getVelocity motion1)) (vertices o1_) in
  let new_v2 :=
    map (fun v => Vector3d_plus v (getVelocity motion2)) (vertices o2_) in
  let o1 := endUpdateModel (updateSubModel (beginUpdateModel o1_) new_v1)
              true true in
  let o2 := endUpdateModel (updateSubModel (beginUpdateModel o2_) new_v2)
              true true in
  let motion1 := integrate motion1 (Finite 0) in
  let motion2 := integrate motion2 (Finite 0) in
  let tf1 := getCurrentTransform motion1 in
  let tf2 := getCurrentTransform motion2 in
  match initialize BV o1 tf1 o2 tf2 with
  | None => (Finite (-1), Build_Pointees o1 motion1 o2 motion2 result)
  | Some node =>
      let node := collide_node node in
      let result :=
        {| is_collide := (0 <? pairs_size node)%nat;
           time_of_contact := node_time_of_contact node;
           contact_tf1 := contact_tf1 result;
           contact_tf2 := contact_tf2 result |} in
      if is_collide result then
        let motion1 := integrate motion1 (node_time_of_contact node) in
        let motion2 := integrate motion2 (node_time_of_contact node) in
        let tf1 := getCurrentTransform motion1 in
        let tf2 := getCurrentTransform motion2 in
        let result :=
          {| is_collide := is_collide result;
             time_of_contact := time_of_contact result;
             contact_tf1 := tf1;
             contact_tf2 := tf2 |} in
        (time_of_contact result, Build_Pointees o1 motion1 o2 motion2 result)
      else
        (time_of_contact result, Build_Pointees o1 motion1 o2 motion2 result)
  end.

(** [details::continuousCollideConservativeAdvancement<NarrowPhaseSolver>],
    called with a solver object ([nsolver_] is not null). *)
Definition continuousCollideConservativeAdvancement (nsolver : GJKSolverType)
    (o1 : CollisionGeometry) (motion1 : MotionBase)
    (o2 : CollisionGeometry) (motion2 : MotionBase)
    (request : ContinuousCollisionRequest)
    (result : ContinuousCollisionResult)
  : Scalar * Pointees :=
  let node_type1 := getNodeType o1 in
  let node_type2 := getNodeType o2 in
  let '(res, reached) :=
    match conservative_advancement_matrix nsolver node_type1 node_type2 with
    | None => (Finite (-1), Build_Pointees o1 motion1 o2 motion2 result)
    | Some entry => entry o1 motion1 o2 motion2 request result
    end in
  let result := result_ reached in
  if is_collide result then
    let motion1 := integrate (motion1_ reached) (time_of_contact result) in
    let motion2 := integrate (motion2_ reached) (time_of_contact result) in
    let tf1 := getCurrentTransform motion1 in
    let tf2 := getCurrentTransform motion2 in
    (res,
     Build_Pointees (o1_ reached) motion1 (o2_ reached) motion2
       {| is_collide := is_collide result;
          time_of_contact := time_of_contact result;
          contact_tf1 := tf1;
          contact_tf2 := tf2 |})
  else (res, reached).

(** The two kernels, as the dispatcher reaches them. *)
Definition kernels : Solvers := {|
  details_continuousCollideBVHPolynomial := continuousCollideBVHPolynomial;
  details_continuousCollideConservativeAdvancement :=
    continuousCollideConservativeAdvancement
|}.

End Bodies.

End details.

(** *** The overloads on transforms and on collision objects *)

(** Modelled from the spec: [ccd/motion.h] is not among the sources.  The
    four motion kinds, each made from a begin and an end transform. *)
Class Motions {NP : Narrowphase} : Type := {
  TranslationMotion : Transform3 -> Transform3 -> MotionBase;
  InterpMotion : Transform3 -> Transform3 -> MotionBase;
  ScrewMotion : Transform3 -> Transform3 -> MotionBase;
  SplineMotion : Transform3 -> Transform3 -> MotionBase
}.

(** Modelled from the spec: [collision_object.h] is not among the
    sources.  What the overload on collision objects reads. *)
Class CollisionObjects {NP : Narrowphase} : Type := {
  CollisionObject : Type;
  collisionGeometry : CollisionObject -> CollisionGeometry;
  getTransform : CollisionObject -> Transform3
}.

Section Overloads.

Context {NP : Narrowphase} {AM : details.AdvancementMatrix}
  {MT : details.MeshTraversal} {MO : Motions} {CO : CollisionObjects}.

(** [getMotionBase]; [None]: the null [MotionBasePtr] of the [default:]
    branch. *)
Definition getMotionBase (tf_beg tf_end : Transform3)
    (motion_type : CCDMotionType) : option MotionBase :=
  match motion_type with
  | CCDM_TRANS => Some (TranslationMotion tf_beg tf_end)
  | CCDM_LINEAR => Some (InterpMotion tf_beg tf_end)
  | CCDM_SCREW => Some (ScrewMotion tf_beg tf_end)
  | CCDM_SPLINE => Some (SplineMotion tf_beg tf_end)
  | CCDM_other _ => None
  end.

(** What the caller of an overload on transforms still reaches when the
    call returns: the two geometries and the result.  The motions made
    for the call are gone. *)
Record Reached : Type := {
  reached_o1 : CollisionGeometry;
  reached_o2 : CollisionGeometry;
  reached_result : ContinuousCollisionResult
}.

Definition forget_motions (p : Pointees) : Reached :=
  {| reached_o1 := o1_ p; reached_o2 := o2_ p; reached_result := result_ p |}.

(** [continuousCollide] on motions when both motion pointers are null.
    [None]: a null motion is dereferenced, or the iteration count of the
    naive solver is undefined. *)
Definition continuousCollide_null_motions
    (o1 o2 : CollisionGeometry)
    (request : ContinuousCollisionRequest)
    (result : ContinuousCollisionResult)
  : option (Scalar * Reached) :=
  let untouched :=
    {| reached_o1 := o1; reached_o2 := o2; reached_result := result |} in
  let fall_through := Some (Finite (-1), untouched) in
  match ccd_solver_type request with
  | CCDC_NAIVE =>
      n_iter ← n_iter_of request;
      (* [motion1->integrate(t)] in the first iteration *)
      if (0 <? n_iter)%Z then None
      else
        Some (Finite 1,
              {| reached_o1 := o1; reached_o2 := o2;
                 reached_result :=
                   {| is_collide := false;
                      time_of_contact := Finite 1;
                      contact_tf1 := contact_tf1 result;
                      contact_tf2 := contact_tf2 result |} |})
  | CCDC_CONSERVATIVE_ADVANCEMENT =>
      match gjk_solver_type request with
      | GST_other _ => fall_through
      | nsolver =>
          let node_type1 := getNodeType o1 in
          let node_type2 := getNodeType o2 in
          '(res, result) ←
            match details.conservative_advancement_matrix
                    nsolver node_type1 node_type2 with
            | None => Some (Finite (-1), result)
            | Some _ =>
                details.entry_on_null_motions nsolver node_type1 node_type2
                  o1 o2 request result
            end;
          (* [motion1->integrate(result.time_of_contact)] *)
          if is_collide result then None
          else Some (res,
                     {| reached_o1 := o1; reached_o2 := o2;
                        reached_result := result |})
      end
  | CCDC_RAY_SHOOTING => fall_through
  | CCDC_POLYNOMIAL_SOLVER =>
      if OBJECT_TYPE_eqb (getObjectType o1) OT_BVH
         && OBJECT_TYPE_eqb (getObjectType o2) OT_BVH
         && CCDMotionType_eqb (ccd_motion_type request) CCDM_TRANS
      then
        (* [motion1->getVelocity()], at the latest [motion1->integrate(0)] *)
        if has_polynomial_kernel (getNodeType o1)
           && NODE_TYPE_eqb (getNodeType o2) (getNodeType o1)
        then None
        else fall_through
      else fall_through
  | CCDC_other _ => fall_through
  end.

(** [continuousCollide(o1, tf1_beg, tf1_end, o2, tf2_beg, tf2_end, request,
    result)]. *)
Definition continuousCollide_Transform3
    (o1 : CollisionGeometry) (tf1_beg tf1_end : Transform3)
    (o2 : CollisionGeometry) (tf2_beg tf2_end : Transform3)
    (request : ContinuousCollisionRequest)
    (result : ContinuousCollisionResult)
  : option (Scalar * Reached) :=
  let motion1 := getMotionBase tf1_beg tf1_end (ccd_motion_type request) in
  let motion2 := getMotionBase tf2_beg tf2_end (ccd_motion_type request) in
  match motion1, motion2 with
  | Some motion1, Some motion2 =>
      '(res, p) ← continuousCollide (SV := details.kernels)
                    o1 motion1 o2 motion2 request result;
      Some (res, forget_motions p)
  | _, _ => continuousCollide_null_motions o1 o2 request result
  end.

(** [continuousCollide(o1, tf1_end, o2, tf2_end, request, result)] on
    collision objects. *)
Definition continuousCollide_CollisionObject
    (o1 : CollisionObject) (tf1_end : Transform3)
    (o2 : CollisionObject) (tf2_end : Transform3)
    (request : ContinuousCollisionRequest)
    (result : ContinuousCollisionResult)
  : option (Scalar * Reached) :=
  continuousCollide_Transform3
    (collisionGeometry o1) (getTransform o1) tf1_end
    (collisionGeometry o2) (getTransform o2) tf2_end
    request result.

End Overloads.

(** *** Sliding boxes as meshes and as placed objects *)

(** No conservative-advancement entry is registered for sliding boxes. *)
Definition no_entries : details.AdvancementMatrix (NP := sliding_boxes) := {|
  details.conservative_advancement_matrix _ _ _ := None;
  details.entry_on_null_motions _ _ _ _ _ _ _ := None
|}.

(** What the traversal node of two segments holds: the two start
    positions, the sum of the half extents, and after [collide_node] the
    number of contact pairs and the time of contact. *)
Record SegmentNode : Type := {
  sn_x1 : Q;
  sn_x2 : Q;
  sn_reach : Q;
  sn_pairs : nat;
  sn_toc : Scalar
}.

(** A sliding box as a mesh of two vertices, [- sb_half] and [sb_half].
    The update cycle keeps the half extent of the two new vertices.  The
    traversal stands for one that finds a contact at the start positions
    only. *)
Definition segment_meshes : details.MeshTraversal (NP := sliding_boxes) := {|
  details.Vector3d := Q;
  details.Vector3d_plus := Qplus;
  details.vertices o := [(- sb_half o)%Q; sb_half o];
  details.beginUpdateModel o := o;
  details.updateSubModel o vs :=
    match vs with
    | [a; b] =>
        {| sb_object := sb_object o; sb_node := sb_node o;
           sb_half := ((b - a) / 2)%Q |}
    | _ => o
    end;
  details.endUpdateModel o _ _ := o;
  details.getVelocity m := (lm_end m - lm_beg m)%Q;
  details.MeshContinuousCollisionTraversalNode := SegmentNode;
  details.initialize _ o1 tf1 o2 tf2 :=
    match tf1, tf2 with
    | Some x1, Some x2 =>
        Some {| sn_x1 := x1; sn_x2 := x2;
                sn_reach := (sb_half o1 + sb_half o2)%Q;
                sn_pairs := 0; sn_toc := Finite 1 |}
    | _, _ => None
    end;
  details.collide_node n :=
    if Qle_bool (Qabs (sn_x1 n - sn_x2 n)) (sn_reach n)
    then {| sn_x1 := sn_x1 n; sn_x2 := sn_x2 n; sn_reach := sn_reach n;
            sn_pairs := 1; sn_toc := Finite 0 |}
    else n;
  details.pairs_size := sn_pairs;
  details.node_time_of_contact := sn_toc
|}.

(** Every motion kind of a sliding box is the translation from the begin
    to the end position. *)
Definition line_between (tf_beg tf_end : option Q) : LineMotion :=
  {| lm_beg := default 0%Q tf_beg; lm_end := default 0%Q tf_end;
     lm_cur := tf_beg |}.

Definition line_motions : Motions (NP := sliding_boxes) := {|
  TranslationMotion := line_between;
  InterpMotion := line_between;
  ScrewMotion := line_between;
  SplineMotion := line_between
|}.

(** A sliding box placed at a position. *)
Definition placed_boxes : CollisionObjects (NP := sliding_boxes) := {|
  CollisionObject := SlidingBox * Q;
  collisionGeometry o := fst o;
  getTransform o := Some (snd o)
|}.


End CCD.

(* ===================================================================== *)
(** ** Part II: [broadphase_dynamic_AABB_tree.h]                         *)
(* ===================================================================== *)

(** The kernels of [details::dynamic_AABB_tree] and the members
    [registerObject], [unregisterObject], [setup], [update_],
    [update(obj)], [update(objs)] and the six queries of
    [DynamicAABBTreeCollisionManager], followed by the members
    [registerObjects], [update()], [clear], [getObjects] and [empty]. *)

Module Broadphase.

Local Open Scope Q_scope.

(** [Scalar] of the broad phase: exact rationals. *)
Definition Scalar : Type := Q.

Definition Qlt_bool (a b : Q) : bool := negb (Qle_bool b a).

Record Vector3 : Type := {
  vx : Scalar;
  vy : Scalar;
  vz : Scalar
}.

(** Modelled from the spec: [BV/AABB.h] is not among the sources.  An AABB
    is two 3-vectors [min_ <= max_]; [overlap] holds when the two (closed)
    boxes intersect, [contain] when the other box lies inside this one. *)
Record AABB : Type := {
  min_ : Vector3;
  max_ : Vector3
}.

Definition axis_overlap (lo1 hi1 lo2 hi2 : Scalar) : bool :=
  Qle_bool lo1 hi2 && Qle_bool lo2 hi1.

Definition overlap (a b : AABB) : bool :=
  axis_overlap (vx (min_ a)) (vx (max_ a)) (vx (min_ b)) (vx (max_ b))
  && axis_overlap (vy (min_ a)) (vy (max_ a)) (vy (min_ b)) (vy (max_ b))
  && axis_overlap (vz (min_ a)) (vz (max_ a)) (vz (min_ b)) (vz (max_ b)).

Definition axis_contain (lo1 hi1 lo2 hi2 : Scalar) : bool :=
  Qle_bool lo1 lo2 && Qle_bool hi2 hi1.

Definition contain (a b : AABB) : bool :=
  axis_contain (vx (min_ a)) (vx (max_ a)) (vx (min_ b)) (vx (max_ b))
  && axis_contain (vy (min_ a)) (vy (max_ a)) (vy (min_ b)) (vy (max_ b))
  && axis_contain (vz (min_ a)) (vz (max_ a)) (vz (min_ b)) (vz (max_ b)).

(** A [CollisionObject*] of the caller: the address of the object. *)
Definition CollisionObject : Type := positive.

(** Modelled from the spec: [hierarchy_tree.h] is not among the sources.
    A node of the hierarchy tree ([NodeBase<AABB>]): a leaf carries the
    object it stands for in [data]; an internal node has two children;
    every node has a bounding volume [bv]. *)
Inductive NodeBase : Type :=
| Leaf (bv : AABB) (data : CollisionObject)
| Internal (bv : AABB) (child0 child1 : NodeBase).

Definition bv (n : NodeBase) : AABB :=
  match n with
  | Leaf b _ => b
  | Internal b _ _ => b
  end.

Definition isLeaf (n : NodeBase) : bool :=
  match n with
  | Leaf _ _ => true
  | Internal _ _ _ => false
  end.

(** The leaves of a subtree, left to right, each with its [bv] and its
    object. *)
Fixpoint leaves (n : NodeBase) : list (AABB * CollisionObject) :=
  match n with
  | Leaf b o => [(b, o)]
  | Internal _ c0 c1 => leaves c0 ++ leaves c1
  end.

Fixpoint height (n : NodeBase) : Z :=
  match n with
  | Leaf _ _ => 0
  | Internal _ c0 c1 => (Z.max (height c0) (height c1) + 1)%Z
  end.

(** The containment invariant: the [bv] of every internal node contains
    the [bv]s of its two children. *)
Fixpoint containment (n : NodeBase) : bool :=
  match n with
  | Leaf _ _ => true
  | Internal b c0 c1 =>
      contain b (bv c0) && contain b (bv c1)
      && containment c0 && containment c1
  end.

(** The pairs with the first component from [l] and the second from [k]. *)
Definition pairs_between {A : Type} (l k : list A) : list (A * A) :=
  flat_map (fun a => map (pair a) k) l.

(** The unordered pairs of positions of [l], each once. *)
Fixpoint pairs_within {A : Type} (l : list A) : list (A * A) :=
  match l with
  | [] => []
  | a :: l' => map (pair a) l' ++ pairs_within l'
  end.

(** Two leaves whose boxes intersect. *)
Definition overlapping
    (p : (AABB * CollisionObject) * (AABB * CollisionObject)) : Prop :=
  overlap (fst (fst p)) (fst (snd p)) = true.

#[export] Instance overlapping_dec p : Decision (overlapping p).
Proof. unfold overlapping. apply _. Defined.

(** The objects of a pair of leaves. *)
Definition objects_of
    (p : (AABB * CollisionObject) * (AABB * CollisionObject))
  : CollisionObject * CollisionObject :=
  (snd (fst p), snd (snd p)).

(** A leaf whose box intersects the box [q]. *)
Definition touching (q : AABB) (l : AABB * CollisionObject) : Prop :=
  overlap (fst l) q = true.

#[export] Instance touching_dec q l : Decision (touching q l).
Proof. unfold touching. apply _. Defined.

(** The objects of the pairs of leaves, one from [l] and one from [k],
    whose boxes intersect. *)
Definition overlapping_between (l k : list (AABB * CollisionObject))
  : list (CollisionObject * CollisionObject) :=
  objects_of <$> filter overlapping (pairs_between l k).

(** The largest [Scalar] and the operations on bounding volumes and nodes
    that other headers provide: [AABB::distance], [AABB::size],
    [AABB::equal], and [select] of the hierarchy tree (it returns [0] or
    [1]; as a boolean, [true] is child [1]). *)
Class BVOps : Type := {
  (** [std::numeric_limits<Scalar>::max()]. *)
  Scalar_max : Scalar;
  distance : AABB -> AABB -> Scalar;
  size : AABB -> Scalar;
  equal : AABB -> AABB -> bool;
  select : AABB -> NodeBase -> NodeBase -> bool
}.

(** The transient [Box] geometry built for an octree cell. *)
Record Box : Type := {
  side : Vector3;
  cost_density : Scalar;
  threshold_occupied : Scalar
}.

(** Rigid transforms, oriented boxes and the octree helpers. *)
Class OctreeGeometry : Type := {
  Transform3 : Type;
  Identity : Transform3;
  linear_isIdentity : Transform3 -> bool;
  translation : Transform3 -> Vector3;
  (** [tf = Identity; tf.translation() = t]. *)
  from_translation : Vector3 -> Transform3;
  OBB : Type;
  (** [convertBV(aabb, tf, obb)] and [convertBV(aabb, tf, aabb)]. *)
  convertBV_OBB : AABB -> Transform3 -> OBB;
  convertBV_AABB : AABB -> Transform3 -> AABB;
  OBB_overlap : OBB -> OBB -> bool;
  translate : AABB -> Vector3 -> AABB;
  (** [constructBox(bv, tf, box, box_tf)]. *)
  constructBox : AABB -> Transform3 -> Box * Transform3;
  computeChildBV : AABB -> nat -> AABB
}.

(** A node of an octree: its occupancy and its eight child slots. *)
#[warnings="-register-all"]
Inductive OcTreeNode : Type :=
| OcNode (occupancy : Scalar) (children : nat -> option OcTreeNode).

Definition getOccupancy (n : OcTreeNode) : Scalar :=
  match n with OcNode o _ => o end.

Definition nodeChild (n : OcTreeNode) (i : nat) : option OcTreeNode :=
  match n with OcNode _ c => c i end.

(** Modelled from the spec: [octree.h] is not among the sources.  The
    octree interface of the geometry collaborator. *)
Record OcTree : Type := {
  getRoot : option OcTreeNode;
  getRootBV : AABB;
  isNodeFree : OcTreeNode -> bool;
  isNodeOccupied : OcTreeNode -> bool;
  getOccupancyThres : Scalar;
  getDefaultOccupancy : Scalar
}.

Definition nodeChildExists (n : OcTreeNode) (i : nat) : bool :=
  match nodeChild n i with Some _ => true | None => false end.

Definition nodeHasChildren (n : OcTreeNode) : bool :=
  existsb (nodeChildExists n) (seq 0 8).

(** What a callback is handed: a pointer to an object of the caller, or a
    pointer to the transient object a kernel built around a [Box]. *)
Inductive ObjectPtr {OG : OctreeGeometry} : Type :=
| object (o : CollisionObject)
| transient (box : Box) (box_tf : Transform3).

(** What the kernels read through a [CollisionObject*]. *)
Class Objects {OG : OctreeGeometry} : Type := {
  getAABB : CollisionObject -> AABB;
  isFree : CollisionObject -> bool;
  getTransform : CollisionObject -> Transform3;
  (** [collisionGeometry()->getNodeType() == GEOM_OCTREE], and then the
      geometry cast to an octree. *)
  as_octree : CollisionObject -> option OcTree
}.

Section Kernels.

Context {BO : BVOps} {OG : OctreeGeometry} {OB : Objects}.

(** The user's data behind [void* cdata], threaded through the calls. *)
Context {CData : Type}.

(** [CollisionCallBack]: returns whether to stop, and the user's data. *)
Definition CollisionCallBack : Type :=
  ObjectPtr -> ObjectPtr -> CData -> bool * CData.

(** [DistanceCallBack]: also takes and returns [min_dist]. *)
Definition DistanceCallBack : Type :=
  ObjectPtr -> ObjectPtr -> CData -> Scalar -> bool * CData * Scalar.

(** [collisionRecurse(root1, root2, cdata, callback)]: node against node.
    The recursion descends [root1] in the outer fixpoint and [root2] in
    the inner one. *)
Fixpoint collisionRecurse (callback : CollisionCallBack)
    (root1 : NodeBase) : NodeBase -> CData -> bool * CData :=
  fix collisionRecurse_root2 (root2 : NodeBase) (cdata : CData) : bool * CData :=
    match root1, root2 with
    | Leaf bv1 data1, Leaf bv2 data2 =>
        if negb (overlap bv1 bv2) then (false, cdata)
        else callback (object data1) (object data2) cdata
    | _, _ =>
        if negb (overlap (bv root1) (bv root2)) then (false, cdata)
        else if isLeaf root2
                || (negb (isLeaf root1)
                    && Qlt_bool (size (bv root2)) (size (bv root1)))
        then
          match root1 with
          | Internal _ child0 child1 =>
              let (stop, cdata) := collisionRecurse callback child0 root2 cdata in
              if stop then (true, cdata) else
              let (stop, cdata) := collisionRecurse callback child1 root2 cdata in
              if stop then (true, cdata) else (false, cdata)
          | Leaf _ _ => (false, cdata) (* not reached: both are leaves *)
          end
        else
          match root2 with
          | Internal _ child0 child1 =>
              let (stop, cdata) := collisionRecurse_root2 child0 cdata in
              if stop then (true, cdata) else
              let (stop, cdata) := collisionRecurse_root2 child1 cdata in
              if stop then (true, cdata) else (false, cdata)
          | Leaf _ _ => (false, cdata) (* not reached: [root2] is no leaf *)
          end
    end.

(** [collisionRecurse(root, query, cdata, callback)]: node against an
    object. *)
Fixpoint collisionRecurse_query (callback : CollisionCallBack)
    (root : NodeBase) (query : CollisionObject) (cdata : CData) : bool * CData :=
  match root with
  | Leaf bv_ data =>
      if negb (overlap bv_ (getAABB query)) then (false, cdata)
      else callback (object data) (object query) cdata
  | Internal bv_ child0 child1 =>
      if negb (overlap bv_ (getAABB query)) then (false, cdata)
      else
        let select_res := select (getAABB query) child0 child1 in
        let first := if select_res then child1 else child0 in
        let second := if select_res then child0 else child1 in
        let (stop, cdata) := collisionRecurse_query callback first query cdata in
        if stop then (true, cdata) else
        let (stop, cdata) := collisionRecurse_query callback second query cdata in
        if stop then (true, cdata) else (false, cdata)
  end.

(** [selfCollisionRecurse(root, cdata, callback)]. *)
Fixpoint selfCollisionRecurse (callback : CollisionCallBack)
    (root : NodeBase) (cdata : CData) : bool * CData :=
  match root with
  | Leaf _ _ => (false, cdata)
  | Internal _ child0 child1 =>
      let (stop, cdata) := selfCollisionRecurse callback child0 cdata in
      if stop then (true, cdata) else
      let (stop, cdata) := selfCollisionRecurse callback child1 cdata in
      if stop then (true, cdata) else
      let (stop, cdata) := collisionRecurse callback child0 child1 cdata in
      if stop then (true, cdata) else (false, cdata)
  end.

(** One guarded descent of the distance kernels:
    [if(d < min_dist) { if(visit(...)) return true; }]. *)
Definition visit_if_closer (d : Scalar)
    (visit : CData -> Scalar -> bool * CData * Scalar)
    (cdata : CData) (min_dist : Scalar) : bool * CData * Scalar :=
  if Qlt_bool d min_dist then visit cdata min_dist
  else (false, cdata, min_dist).

(** The two guarded descents of a distance kernel, the nearer child
    first ([d2 < d1] puts child 1 first):
    [if(d2 < d1) { visit child1 if d2 < min_dist; visit child0 if d1 < min_dist }
     else { visit child0 if d1 < min_dist; visit child1 if d2 < min_dist }]. *)
Definition nearer_first (d1 d2 : Scalar)
    (visit0 visit1 : CData -> Scalar -> bool * CData * Scalar)
    (cdata : CData) (min_dist : Scalar) : bool * CData * Scalar :=
  if Qlt_bool d2 d1 then
    let '(stop, cdata, min_dist) := visit_if_closer d2 visit1 cdata min_dist in
    if stop then (true, cdata, min_dist) else
    let '(stop, cdata, min_dist) := visit_if_closer d1 visit0 cdata min_dist in
    if stop then (true, cdata, min_dist) else (false, cdata, min_dist)
  else
    let '(stop, cdata, min_dist) := visit_if_closer d1 visit0 cdata min_dist in
    if stop then (true, cdata, min_dist) else
    let '(stop, cdata, min_dist) := visit_if_closer d2 visit1 cdata min_dist in
    if stop then (true, cdata, min_dist) else (false, cdata, min_dist).

(** [distanceRecurse(root1, root2, cdata, callback, min_dist)]: node
    against node. *)
Fixpoint distanceRecurse (callback : DistanceCallBack)
    (root1 : NodeBase) : NodeBase -> CData -> Scalar -> bool * CData * Scalar :=
  fix distanceRecurse_root2 (root2 : NodeBase) (cdata : CData)
      (min_dist : Scalar) : bool * CData * Scalar :=
    match root1, root2 with
    | Leaf _ data1, Leaf _ data2 =>
        callback (object data1) (object data2) cdata min_dist
    | _, _ =>
        if isLeaf root2
           || (negb (isLeaf root1)
               && Qlt_bool (size (bv root2)) (size (bv root1)))
        then
          match root1 with
          | Internal _ child0 child1 =>
              let d1 := distance (bv root2) (bv child0) in
              let d2 := distance (bv root2) (bv child1) in
              nearer_first d1 d2
                (distanceRecurse callback child0 root2)
                (distanceRecurse callback child1 root2)
                cdata min_dist
          | Leaf _ _ => (false, cdata, min_dist) (* not reached *)
          end
        else
          match root2 with
          | Internal _ child0 child1 =>
              let d1 := distance (bv root1) (bv child0) in
              let d2 := distance (bv root1) (bv child1) in
              nearer_first d1 d2
                (distanceRecurse_root2 child0)
                (distanceRecurse_root2 child1)
                cdata min_dist
          | Leaf _ _ => (false, cdata, min_dist) (* not reached *)
          end
    end.

(** [distanceRecurse(root, query, cdata, callback, min_dist)]: node
    against an object. *)
Fixpoint distanceRecurse_query (callback : DistanceCallBack)
    (root : NodeBase) (query : CollisionObject) (cdata : CData)
    (min_dist : Scalar) : bool * CData * Scalar :=
  match root with
  | Leaf _ data =>
      callback (object data) (object query) cdata min_dist
  | Internal _ child0 child1 =>
      let d1 := distance (getAABB query) (bv child0) in
      let d2 := distance (getAABB query) (bv child1) in
      nearer_first d1 d2
        (distanceRecurse_query callback child0 query)
        (distanceRecurse_query callback child1 query)
        cdata min_dist
  end.

(** [selfDistanceRecurse(root, cdata, callback, min_dist)]. *)
Fixpoint selfDistanceRecurse (callback : DistanceCallBack)
    (root : NodeBase) (cdata : CData) (min_dist : Scalar)
  : bool * CData * Scalar :=
  match root with
  | Leaf _ _ => (false, cdata, min_dist)
  | Internal _ child0 child1 =>
      let '(stop, cdata, min_dist) :=
        selfDistanceRecurse callback child0 cdata min_dist in
      if stop then (true, cdata, min_dist) else
      let '(stop, cdata, min_dist) :=
        selfDistanceRecurse callback child1 cdata min_dist in
      if stop then (true, cdata, min_dist) else
      let '(stop, cdata, min_dist) :=
        distanceRecurse callback child0 child1 cdata min_dist in
      if stop then (true, cdata, min_dist) else (false, cdata, min_dist)
  end.

(** [for(unsigned int i = 0; i < 8; ++i) { if(body(i)) return true; }]. *)
Definition for_each_child {R : Type} (body : nat -> R -> bool * R)
  : R -> bool * R :=
  (fix loop (indices : list nat) (r : R) : bool * R :=
     match indices with
     | [] => (false, r)
     | i :: indices' =>
         let (stop, r) := body i r in
         if stop then (true, r) else loop indices' r
     end) (seq 0 8).

(** [collisionRecurse_] with a [Transform3], in the branch [!root2]: the
    octree cell is absent, the recursion only descends [root1]. *)
Fixpoint collisionRecurse__Transform3_null (callback : CollisionCallBack)
    (root1 : NodeBase) (tree2 : OcTree) (root2_bv : AABB)
    (tf2 : Transform3) (cdata : CData) : bool * CData :=
  match root1 with
  | Leaf bv1 obj1 =>
      if negb (isFree obj1) then
        let obb1 := convertBV_OBB bv1 Identity in
        let obb2 := convertBV_OBB root2_bv tf2 in
        if OBB_overlap obb1 obb2 then
          let (box, box_tf) := constructBox root2_bv tf2 in
          let box :=
            {| side := side box;
               cost_density := getDefaultOccupancy tree2;
               threshold_occupied := threshold_occupied box |} in
          callback (object obj1) (transient box box_tf) cdata
        else (false, cdata)
      else (false, cdata)
  | Internal _ child0 child1 =>
      let (stop, cdata) :=
        collisionRecurse__Transform3_null callback child0 tree2 root2_bv tf2 cdata in
      if stop then (true, cdata) else
      let (stop, cdata) :=
        collisionRecurse__Transform3_null callback child1 tree2 root2_bv tf2 cdata in
      if stop then (true, cdata) else (false, cdata)
  end.

(** [collisionRecurse_] with a [Transform3], for a present octree node.
    The recursion descends the octree in the outer fixpoint and [root1] in
    the inner one. *)
Fixpoint collisionRecurse__Transform3_node (callback : CollisionCallBack)
    (tree2 : OcTree) (tf2 : Transform3) (root2 : OcTreeNode)
  : NodeBase -> AABB -> CData -> bool * CData :=
  fix descend_root1 (root1 : NodeBase) (root2_bv : AABB) (cdata : CData)
    : bool * CData :=
    match root2 with
    | OcNode occupancy children =>
        if isLeaf root1 && negb (nodeHasChildren root2) then
          match root1 with
          | Leaf bv1 obj1 =>
              if negb (isNodeFree tree2 root2) && negb (isFree obj1) then
                let obb1 := convertBV_OBB bv1 Identity in
                let obb2 := convertBV_OBB root2_bv tf2 in
                if OBB_overlap obb1 obb2 then
                  let (box, box_tf) := constructBox root2_bv tf2 in
                  let box :=
                    {| side := side box;
                       cost_density := occupancy;
                       threshold_occupied := getOccupancyThres tree2 |} in
                  callback (object obj1) (transient box box_tf) cdata
                else (false, cdata)
              else (false, cdata)
          | Internal _ _ _ => (false, cdata) (* not reached *)
          end
        else
          let obb1 := convertBV_OBB (bv root1) Identity in
          let obb2 := convertBV_OBB root2_bv tf2 in
          if isNodeFree tree2 root2 || negb (OBB_overlap obb1 obb2)
          then (false, cdata)
          else if negb (nodeHasChildren root2)
                  || (negb (isLeaf root1)
                      && Qlt_bool (size root2_bv) (size (bv root1)))
          then
            match root1 with
            | Internal _ child0 child1 =>
                let (stop, cdata) := descend_root1 child0 root2_bv cdata in
                if stop then (true, cdata) else
                let (stop, cdata) := descend_root1 child1 root2_bv cdata in
                if stop then (true, cdata) else (false, cdata)
            | Leaf _ _ => (false, cdata) (* not reached *)
            end
          else
            for_each_child
              (fun i cdata =>
                 let child_bv := computeChildBV root2_bv i in
                 match children i with
                 | Some child =>
                     collisionRecurse__Transform3_node callback tree2 tf2
                       child root1 child_bv cdata
                 | None =>
                     collisionRecurse__Transform3_null callback root1
                       tree2 child_bv tf2 cdata
                 end) cdata
    end.

(** [collisionRecurse_(root1, tree2, root2, root2_bv, tf2, cdata, callback)],
    the overload taking a [Transform3]; [root2] may be null. *)
Definition collisionRecurse__Transform3 (callback : CollisionCallBack)
    (root1 : NodeBase) (tree2 : OcTree) (root2 : option OcTreeNode)
    (root2_bv : AABB) (tf2 : Transform3) (cdata : CData) : bool * CData :=
  match root2 with
  | None =>
      collisionRecurse__Transform3_null callback root1 tree2 root2_bv tf2 cdata
  | Some root2 =>
      collisionRecurse__Transform3_node callback tree2 tf2 root2 root1
        root2_bv cdata
  end.

(** [collisionRecurse_] with a translation, in the branch [!root2]. *)
Fixpoint collisionRecurse__Vector3_null (callback : CollisionCallBack)
    (root1 : NodeBase) (tree2 : OcTree) (root2_bv : AABB)
    (translation2 : Vector3) (cdata : CData) : bool * CData :=
  match root1 with
  | Leaf bv1 obj1 =>
      if negb (isFree obj1) then
        let root2_bv_t := translate root2_bv translation2 in
        if overlap bv1 root2_bv_t then
          let tf2 := from_translation translation2 in
          let (box, box_tf) := constructBox root2_bv tf2 in
          let box :=
            {| side := side box;
               cost_density := getOccupancyThres tree2;
               threshold_occupied := threshold_occupied box |} in
          callback (object obj1) (transient box box_tf) cdata
        else (false, cdata)
      else (false, cdata)
  | Internal _ child0 child1 =>
      let (stop, cdata) :=
        collisionRecurse__Vector3_null callback child0 tree2 root2_bv
          translation2 cdata in
      if stop then (true, cdata) else
      let (stop, cdata) :=
        collisionRecurse__Vector3_null callback child1 tree2 root2_bv
          translation2 cdata in
      if stop then (true, cdata) else (false, cdata)
  end.

(** [collisionRecurse_] with a translation, for a present octree node. *)
Fixpoint collisionRecurse__Vector3_node (callback : CollisionCallBack)
    (tree2 : OcTree) (translation2 : Vector3) (root2 : OcTreeNode)
  : NodeBase -> AABB -> CData -> bool * CData :=
  fix descend_root1 (root1 : NodeBase) (root2_bv : AABB) (cdata : CData)
    : bool * CData :=
    match root2 with
    | OcNode occupancy children =>
        if isLeaf root1 && negb (nodeHasChildren root2) then
          match root1 with
          | Leaf bv1 obj1 =>
              if negb (isNodeFree tree2 root2) && negb (isFree obj1) then
                let root2_bv_t := translate root2_bv translation2 in
                if overlap bv1 root2_bv_t then
                  let tf2 := from_translation translation2 in
                  let (box, box_tf) := constructBox root2_bv tf2 in
                  let box :=
                    {| side := side box;
                       cost_density := occupancy;
                       threshold_occupied := getOccupancyThres tree2 |} in
                  callback (object obj1) (transient box box_tf) cdata
                else (false, cdata)
              else (false, cdata)
          | Internal _ _ _ => (false, cdata) (* not reached *)
          end
        else
          let root2_bv_t := translate root2_bv translation2 in
          if isNodeFree tree2 root2 || negb (overlap (bv root1) root2_bv_t)
          then (false, cdata)
          else if negb (nodeHasChildren root2)
                  || (negb (isLeaf root1)
                      && Qlt_bool (size root2_bv) (size (bv root1)))
          then
            match root1 with
            | Internal _ child0 child1 =>
                let (stop, cdata) := descend_root1 child0 root2_bv cdata in
                if stop then (true, cdata) else
                let (stop, cdata) := descend_root1 child1 root2_bv cdata in
                if stop then (true, cdata) else (false, cdata)
            | Leaf _ _ => (false, cdata) (* not reached *)
            end
          else
            for_each_child
              (fun i cdata =>
                 let child_bv := computeChildBV root2_bv i in
                 match children i with
                 | Some child =>
                     collisionRecurse__Vector3_node callback tree2
                       translation2 child root1 child_bv cdata
                 | None =>
                     collisionRecurse__Vector3_null callback root1
                       tree2 child_bv translation2 cdata
                 end) cdata
    end.

(** [collisionRecurse_(root1, tree2, root2, root2_bv, translation2, cdata,
    callback)], the overload taking a translation; [root2] may be null. *)
Definition collisionRecurse__Vector3 (callback : CollisionCallBack)
    (root1 : NodeBase) (tree2 : OcTree) (root2 : option OcTreeNode)
    (root2_bv : AABB) (translation2 : Vector3) (cdata : CData)
  : bool * CData :=
  match root2 with
  | None =>
      collisionRecurse__Vector3_null callback root1 tree2 root2_bv
        translation2 cdata
  | Some root2 =>
      collisionRecurse__Vector3_node callback tree2 translation2 root2 root1
        root2_bv cdata
  end.

(** [collisionRecurse(root1, tree2, root2, root2_bv, tf2, cdata, callback)]:
    the rotation-free fast path or the general one. *)
Definition collisionRecurse_octree (callback : CollisionCallBack)
    (root1 : NodeBase) (tree2 : OcTree) (root2 : option OcTreeNode)
    (root2_bv : AABB) (tf2 : Transform3) (cdata : CData) : bool * CData :=
  if linear_isIdentity tf2 then
    collisionRecurse__Vector3 callback root1 tree2 root2 root2_bv
      (translation tf2) cdata
  else
    collisionRecurse__Transform3 callback root1 tree2 root2 root2_bv tf2 cdata.

(** [distanceRecurse_] with a [Transform3].  The octree node is dereferenced at once:
    it is not null. *)
Fixpoint distanceRecurse__Transform3 (callback : DistanceCallBack)
    (tree2 : OcTree) (tf2 : Transform3) (root2 : OcTreeNode)
  : NodeBase -> AABB -> CData -> Scalar -> bool * CData * Scalar :=
  fix descend_root1 (root1 : NodeBase) (root2_bv : AABB) (cdata : CData)
      (min_dist : Scalar) : bool * CData * Scalar :=
    match root2 with
    | OcNode _ children =>
        if isLeaf root1 && negb (nodeHasChildren root2) then
          match root1 with
          | Leaf _ data1 =>
              if isNodeOccupied tree2 root2 then
                let (box, box_tf) := constructBox root2_bv tf2 in
                callback (object data1) (transient box box_tf) cdata min_dist
              else (false, cdata, min_dist)
          | Internal _ _ _ => (false, cdata, min_dist) (* not reached *)
          end
        else if negb (isNodeOccupied tree2 root2) then (false, cdata, min_dist)
        else if negb (nodeHasChildren root2)
                || (negb (isLeaf root1)
                    && Qlt_bool (size root2_bv) (size (bv root1)))
        then
          match root1 with
          | Internal _ child0 child1 =>
              let aabb2 := convertBV_AABB root2_bv tf2 in
              let d1 := distance aabb2 (bv child0) in
              let d2 := distance aabb2 (bv child1) in
              nearer_first d1 d2
                (fun cdata min_dist => descend_root1 child0 root2_bv cdata min_dist)
                (fun cdata min_dist => descend_root1 child1 root2_bv cdata min_dist)
                cdata min_dist
          | Leaf _ _ => (false, cdata, min_dist) (* not reached *)
          end
        else
          let '(stop, (cdata, min_dist)) :=
            for_each_child
              (fun i '(cdata, min_dist) =>
                 match children i with
                 | Some child =>
                     let child_bv := computeChildBV root2_bv i in
                     let aabb2 := convertBV_AABB child_bv tf2 in
                     let d := distance (bv root1) aabb2 in
                     let '(stop, cdata, min_dist) :=
                       visit_if_closer d
                         (distanceRecurse__Transform3 callback tree2 tf2
                            child root1 child_bv)
                         cdata min_dist in
                     (stop, (cdata, min_dist))
                 | None => (false, (cdata, min_dist))
                 end) (cdata, min_dist) in
          (stop, cdata, min_dist)
    end.

(** [distanceRecurse_] with a translation.  The octree node is dereferenced at once:
    it is not null. *)
Fixpoint distanceRecurse__Vector3 (callback : DistanceCallBack)
    (tree2 : OcTree) (translation2 : Vector3) (root2 : OcTreeNode)
  : NodeBase -> AABB -> CData -> Scalar -> bool * CData * Scalar :=
  fix descend_root1 (root1 : NodeBase) (root2_bv : AABB) (cdata : CData)
      (min_dist : Scalar) : bool * CData * Scalar :=
    match root2 with
    | OcNode _ children =>
        if isLeaf root1 && negb (nodeHasChildren root2) then
          match root1 with
          | Leaf _ data1 =>
              if isNodeOccupied tree2 root2 then
                let (box, box_tf) := constructBox root2_bv (from_translation translation2) in
                callback (object data1) (transient box box_tf) cdata min_dist
              else (false, cdata, min_dist)
          | Internal _ _ _ => (false, cdata, min_dist) (* not reached *)
          end
        else if negb (isNodeOccupied tree2 root2) then (false, cdata, min_dist)
        else if negb (nodeHasChildren root2)
                || (negb (isLeaf root1)
                    && Qlt_bool (size root2_bv) (size (bv root1)))
        then
          match root1 with
          | Internal _ child0 child1 =>
              let aabb2 := translate root2_bv translation2 in
              let d1 := distance aabb2 (bv child0) in
              let d2 := distance aabb2 (bv child1) in
              nearer_first d1 d2
                (fun cdata min_dist => descend_root1 child0 root2_bv cdata min_dist)
                (fun cdata min_dist => descend_root1 child1 root2_bv cdata min_dist)
                cdata min_dist
          | Leaf _ _ => (false, cdata, min_dist) (* not reached *)
          end
        else
          let '(stop, (cdata, min_dist)) :=
            for_each_child
              (fun i '(cdata, min_dist) =>
                 match children i with
                 | Some child =>
                     let child_bv := computeChildBV root2_bv i in
                     let aabb2 := translate child_bv translation2 in
                     let d := distance (bv root1) aabb2 in
                     let '(stop, cdata, min_dist) :=
                       visit_if_closer d
                         (distanceRecurse__Vector3 callback tree2 translation2
                            child root1 child_bv)
                         cdata min_dist in
                     (stop, (cdata, min_dist))
                 | None => (false, (cdata, min_dist))
                 end) (cdata, min_dist) in
          (stop, cdata, min_dist)
    end.

(** [distanceRecurse(root1, tree2, root2, root2_bv, tf2, cdata, callback,
    min_dist)]: the rotation-free fast path or the general one. *)
Definition distanceRecurse_octree (callback : DistanceCallBack)
    (root1 : NodeBase) (tree2 : OcTree) (root2 : OcTreeNode)
    (root2_bv : AABB) (tf2 : Transform3) (cdata : CData) (min_dist : Scalar)
  : bool * CData * Scalar :=
  if linear_isIdentity tf2 then
    distanceRecurse__Vector3 callback tree2 (translation tf2) root2 root1
      root2_bv cdata min_dist
  else
    distanceRecurse__Transform3 callback tree2 tf2 root2 root1
      root2_bv cdata min_dist.

(** *** The calls a traversal makes

    The pairs a collision traversal hands to the callback, in order, as
    long as no call asks to stop. *)

(** Handing the pairs of [calls] to the callback one after the other,
    until a call returns [true]. *)
Fixpoint run_calls (callback : CollisionCallBack)
    (calls : list (CollisionObject * CollisionObject)) (cdata : CData)
  : bool * CData :=
  match calls with
  | [] => (false, cdata)
  | (a, b) :: calls' =>
      let (stop, cdata) := callback (object a) (object b) cdata in
      if stop then (true, cdata) else run_calls callback calls' cdata
  end.

Fixpoint collisionCalls (root1 : NodeBase)
  : NodeBase -> list (CollisionObject * CollisionObject) :=
  fix collisionCalls_root2 (root2 : NodeBase) :=
    match root1, root2 with
    | Leaf bv1 data1, Leaf bv2 data2 =>
        if negb (overlap bv1 bv2) then [] else [(data1, data2)]
    | _, _ =>
        if negb (overlap (bv root1) (bv root2)) then []
        else if isLeaf root2
                || (negb (isLeaf root1)
                    && Qlt_bool (size (bv root2)) (size (bv root1)))
        then
          match root1 with
          | Internal _ child0 child1 =>
              collisionCalls child0 root2 ++ collisionCalls child1 root2
          | Leaf _ _ => []
          end
        else
          match root2 with
          | Internal _ child0 child1 =>
              collisionCalls_root2 child0 ++ collisionCalls_root2 child1
          | Leaf _ _ => []
          end
    end.

Fixpoint collisionCalls_query (root : NodeBase) (query : CollisionObject)
  : list (CollisionObject * CollisionObject) :=
  match root with
  | Leaf bv_ data =>
      if negb (overlap bv_ (getAABB query)) then [] else [(data, query)]
  | Internal bv_ child0 child1 =>
      if negb (overlap bv_ (getAABB query)) then []
      else
        let select_res := select (getAABB query) child0 child1 in
        collisionCalls_query (if select_res then child1 else child0) query
        ++ collisionCalls_query (if select_res then child0 else child1) query
  end.

Fixpoint selfCollisionCalls (root : NodeBase)
  : list (CollisionObject * CollisionObject) :=
  match root with
  | Leaf _ _ => []
  | Internal _ child0 child1 =>
      selfCollisionCalls child0 ++ selfCollisionCalls child1
      ++ collisionCalls child0 child1
  end.

(** *** Distances a callback reports *)

(** [if(d < min_dist) min_dist = d]: lowering [min_dist] to a reported
    distance. *)
Definition lower (min_dist d : Scalar) : Scalar :=
  if Qlt_bool d min_dist then d else min_dist.

(** The distances [d] reported for the leaves are bounded from below by
    the AABB distance of the query box [q] to every node above the leaf
    (the leaf included). *)
Fixpoint lower_bounded (d : CollisionObject -> Scalar) (q : AABB)
    (n : NodeBase) : bool :=
  forallb (fun l => Qle_bool (distance q (bv n)) (d (snd l))) (leaves n)
  && match n with
     | Leaf _ _ => true
     | Internal _ c0 c1 => lower_bounded d q c0 && lower_bounded d q c1
     end.

(** A distance callback that reports [d x] for the leaf object [x]
    against [query]: it lowers [min_dist] to [d x]. *)
Definition reports (callback : DistanceCallBack) (query : CollisionObject)
    (d : CollisionObject -> Scalar) : Prop :=
  forall x cdata min_dist,
    snd (callback (object x) (object query) cdata min_dist)
    = lower min_dist (d x).

(** A distance callback that never asks to stop. *)
Definition never_stops (callback : DistanceCallBack) : Prop :=
  forall a b cdata min_dist, fst (fst (callback a b cdata min_dist)) = false.

(** What a visit of the items [L] (leaves, or pairs of leaves) achieves
    when the callback reports [d] and never stops: it does not stop,
    [min_dist] does not grow, ends at most at every [d] of [L], and is
    either untouched or one of them. *)
Definition settles {A : Type} (d : A -> Scalar) (L : list A)
    (visit : CData -> Scalar -> bool * CData * Scalar) : Prop :=
  forall cdata m,
    fst (fst (visit cdata m)) = false
    /\ snd (visit cdata m) <= m
    /\ (forall l, l ∈ L -> snd (visit cdata m) <= d l)
    /\ (snd (visit cdata m) = m
        \/ exists l, l ∈ L /\ snd (visit cdata m) = d l).

(** All the nodes of a subtree, its root included. *)
Fixpoint nodes (n : NodeBase) : list NodeBase :=
  n :: match n with
       | Leaf _ _ => []
       | Internal _ c0 c1 => nodes c0 ++ nodes c1
       end.

(** The distance [d] of a pair of leaves. *)
Definition between (d : CollisionObject -> CollisionObject -> Scalar)
    (p : (AABB * CollisionObject) * (AABB * CollisionObject)) : Scalar :=
  d (snd (fst p)) (snd (snd p)).

(** The distances [d] reported for the pairs of leaves, one under [root1]
    and one under [root2], are bounded from below by the AABB distance,
    taken from either side, of every two nodes above the two leaves. *)
Definition lower_bounded_between
    (d : CollisionObject -> CollisionObject -> Scalar)
    (root1 root2 : NodeBase) : bool :=
  forallb
    (fun n =>
       forallb
         (fun p =>
            Qle_bool (distance (bv (fst n)) (bv (snd n))) (between d p)
            && Qle_bool (distance (bv (snd n)) (bv (fst n))) (between d p))
         (pairs_between (leaves (fst n)) (leaves (snd n))))
    (pairs_between (nodes root1) (nodes root2)).

(** The same for the pairs of leaves of one tree: at every internal node,
    for its two children. *)
Fixpoint lower_bounded_within
    (d : CollisionObject -> CollisionObject -> Scalar)
    (root : NodeBase) : bool :=
  match root with
  | Leaf _ _ => true
  | Internal _ c0 c1 =>
      lower_bounded_within d c0 && lower_bounded_within d c1
      && lower_bounded_between d c0 c1
  end.

(** A distance callback that reports [d x y] for the objects [x] and [y]. *)
Definition reports_between (callback : DistanceCallBack)
    (d : CollisionObject -> CollisionObject -> Scalar) : Prop :=
  forall x y cdata min_dist,
    snd (callback (object x) (object y) cdata min_dist)
    = lower min_dist (d x y).

End Kernels.

(** *** Callbacks of the examples *)

Section ExampleCallbacks.

Context {OG : OctreeGeometry}.

(** Records each pair it is handed; [stop] is what it returns. *)
Definition recording (stop : bool)
  : CollisionCallBack (CData := list (ObjectPtr * ObjectPtr)) :=
  fun a b log => (stop, log ++ [(a, b)]).

(** Reports [d a b], keeps the running minimum as its data too, and
    returns [stop]. *)
Definition tracking (d : ObjectPtr -> ObjectPtr -> Scalar) (stop : bool)
  : DistanceCallBack (CData := Scalar) :=
  fun a b _ min_dist => (stop, lower min_dist (d a b), lower min_dist (d a b)).

End ExampleCallbacks.

(** *** The manager *)

(** A [DynamicAABBNode*]. *)
Inductive NodePtr : Type :=
| NULL
| node_at (address : positive).

(** [HierarchyTree<AABB>], as the manager uses it.  [getRoot] gives the
    tree the kernels walk ([None]: a null root).  An operation that takes
    a node pointer is [None] when it dereferences a pointer that
    designates no node of the tree (undefined behaviour). *)
Class HierarchyTree (T : Type) : Type := {
  tree_getRoot : T -> option NodeBase;
  tree_size : T -> Z;
  tree_getMaxHeight : T -> Z;
  (** [node->bv]. *)
  node_bv : T -> NodePtr -> option AABB;
  tree_insert : T -> AABB -> CollisionObject -> T * NodePtr;
  tree_remove : T -> NodePtr -> option T;
  tree_update : T -> NodePtr -> AABB -> option T;
  tree_balanceIncremental : T -> Z -> T;
  tree_balanceTopdown : T -> T
}.

(** [height - std::log((Scalar)num) / std::log(2.0) < level], decided
    exactly: for [num >= 1] it holds when [height < level] or
    [2 ^ (height - level) < num]. *)
Definition nonbalanced_below (height num level : Z) : bool :=
  ((height - level <? 0) || (2 ^ (height - level) <? num))%Z.

Section Manager.

Context {BO : BVOps} {OG : OctreeGeometry} {OB : Objects}.
Context {T : Type} {HT : HierarchyTree T}.

(** [DynamicAABBTreeCollisionManager]: the tree, the object table, the
    flag [setup_] and the configuration.  ([tree_topdown_balance_threshold]
    and [tree_topdown_level] are references into [dtree].) *)
Record DynamicAABBTreeCollisionManager : Type := {
  dtree : T;
  table : gmap CollisionObject NodePtr;
  setup_ : bool;
  max_tree_nonbalanced_level : Z;
  tree_incremental_balance_pass : Z;
  tree_init_level : Z;
  octree_as_geometry_collide : bool;
  octree_as_geometry_distance : bool
}.

Definition with_tree (m : DynamicAABBTreeCollisionManager) (t : T)
    (tb : gmap CollisionObject NodePtr) : DynamicAABBTreeCollisionManager :=
  {| dtree := t;
     table := tb;
     setup_ := setup_ m;
     max_tree_nonbalanced_level := max_tree_nonbalanced_level m;
     tree_incremental_balance_pass := tree_incremental_balance_pass m;
     tree_init_level := tree_init_level m;
     octree_as_geometry_collide := octree_as_geometry_collide m;
     octree_as_geometry_distance := octree_as_geometry_distance m |}.

Definition with_setup (m : DynamicAABBTreeCollisionManager) (flag : bool)
  : DynamicAABBTreeCollisionManager :=
  {| dtree := dtree m;
     table := table m;
     setup_ := flag;
     max_tree_nonbalanced_level := max_tree_nonbalanced_level m;
     tree_incremental_balance_pass := tree_incremental_balance_pass m;
     tree_init_level := tree_init_level m;
     octree_as_geometry_collide := octree_as_geometry_collide m;
     octree_as_geometry_distance := octree_as_geometry_distance m |}.

(** [size()]. *)
Definition manager_size (m : DynamicAABBTreeCollisionManager) : Z :=
  tree_size (dtree m).

(** [registerObject(obj)]. *)
Definition registerObject (m : DynamicAABBTreeCollisionManager)
    (obj : CollisionObject) : DynamicAABBTreeCollisionManager :=
  let (t, node) := tree_insert (dtree m) (getAABB obj) obj in
  with_tree m t (<[obj := node]> (table m)).

(** [unregisterObject(obj)]: [table[obj]] default-constructs a null entry
    when [obj] has none; the entry is erased; the node is removed. *)
Definition unregisterObject (m : DynamicAABBTreeCollisionManager)
    (obj : CollisionObject) : option DynamicAABBTreeCollisionManager :=
  let table1 :=
    match table m !! obj with
    | Some _ => table m
    | None => <[obj := NULL]> (table m)
    end in
  let node := default NULL (table1 !! obj) in
  let table2 := delete obj table1 in
  t ← tree_remove (dtree m) node;
  Some (with_tree m t table2).

(** [setup()]. *)
Definition setup (m : DynamicAABBTreeCollisionManager)
  : DynamicAABBTreeCollisionManager :=
  if negb (setup_ m) then
    let num := tree_size (dtree m) in
    if (num =? 0)%Z then with_setup m true
    else
      let height := tree_getMaxHeight (dtree m) in
      let t :=
        if nonbalanced_below height num (max_tree_nonbalanced_level m)
        then tree_balanceIncremental (dtree m) (tree_incremental_balance_pass m)
        else tree_balanceTopdown (dtree m) in
      with_setup (with_tree m t (table m)) true
  else m.

(** [update_(updated_obj)]. *)
Definition update_ (m : DynamicAABBTreeCollisionManager)
    (updated_obj : CollisionObject) : option DynamicAABBTreeCollisionManager :=
  m' ← match table m !! updated_obj with
       | Some node =>
           node_bv_ ← node_bv (dtree m) node;
           if negb (equal node_bv_ (getAABB updated_obj)) then
             t ← tree_update (dtree m) node (getAABB updated_obj);
             Some (with_tree m t (table m))
           else Some m
       | None => Some m
       end;
  Some (with_setup m' false).

(** [update(updated_obj)]. *)
Definition update (m : DynamicAABBTreeCollisionManager)
    (updated_obj : CollisionObject) : option DynamicAABBTreeCollisionManager :=
  m' ← update_ m updated_obj;
  Some (setup m').

(** [update(updated_objs)]. *)
Definition update_objs (m : DynamicAABBTreeCollisionManager)
    (updated_objs : list CollisionObject)
  : option DynamicAABBTreeCollisionManager :=
  m' ← foldl (fun acc obj => m ← acc; update_ m obj) (Some m) updated_objs;
  Some (setup m').

Context {CData : Type}.

(** [collide(obj, cdata, callback)].  [None]: the root of a tree that
    reports a size other than zero is null. *)
Definition collide (m : DynamicAABBTreeCollisionManager)
    (obj : CollisionObject) (cdata : CData)
    (callback : CollisionCallBack) : option CData :=
  if (manager_size m =? 0)%Z then Some cdata
  else
    root ← tree_getRoot (dtree m);
    match as_octree obj with
    | Some octree =>
        if negb (octree_as_geometry_collide m) then
          Some (snd (collisionRecurse_octree callback root octree
                       (getRoot octree) (getRootBV octree)
                       (getTransform obj) cdata))
        else Some (snd (collisionRecurse_query callback root obj cdata))
    | None => Some (snd (collisionRecurse_query callback root obj cdata))
    end.

(** [distance(obj, cdata, callback)].  [None] also when the octree root
    is null. *)
Definition distance_obj (m : DynamicAABBTreeCollisionManager)
    (obj : CollisionObject) (cdata : CData)
    (callback : DistanceCallBack) : option CData :=
  if (manager_size m =? 0)%Z then Some cdata
  else
    let min_dist := Scalar_max in
    root ← tree_getRoot (dtree m);
    match as_octree obj with
    | Some octree =>
        if negb (octree_as_geometry_distance m) then
          octree_root ← getRoot octree;
          Some (snd (fst (distanceRecurse_octree callback root octree
                            octree_root (getRootBV octree)
                            (getTransform obj) cdata min_dist)))
        else
          Some (snd (fst (distanceRecurse_query callback root obj cdata
                            min_dist)))
    | None =>
        Some (snd (fst (distanceRecurse_query callback root obj cdata
                          min_dist)))
    end.

(** [collide(cdata, callback)]: self collision. *)
Definition collide_self (m : DynamicAABBTreeCollisionManager)
    (cdata : CData) (callback : CollisionCallBack) : option CData :=
  if (manager_size m =? 0)%Z then Some cdata
  else
    root ← tree_getRoot (dtree m);
    Some (snd (selfCollisionRecurse callback root cdata)).

(** [distance(cdata, callback)]: self distance. *)
Definition distance_self (m : DynamicAABBTreeCollisionManager)
    (cdata : CData) (callback : DistanceCallBack) : option CData :=
  if (manager_size m =? 0)%Z then Some cdata
  else
    let min_dist := Scalar_max in
    root ← tree_getRoot (dtree m);
    Some (snd (fst (selfDistanceRecurse callback root cdata min_dist))).

(** [collide(other_manager, cdata, callback)]. *)
Definition collide_manager (m other_manager : DynamicAABBTreeCollisionManager)
    (cdata : CData) (callback : CollisionCallBack) : option CData :=
  if (manager_size m =? 0)%Z || (manager_size other_manager =? 0)%Z
  then Some cdata
  else
    root1 ← tree_getRoot (dtree m);
    root2 ← tree_getRoot (dtree other_manager);
    Some (snd (collisionRecurse callback root1 root2 cdata)).

(** [distance(other_manager, cdata, callback)]. *)
Definition distance_manager (m other_manager : DynamicAABBTreeCollisionManager)
    (cdata : CData) (callback : DistanceCallBack) : option CData :=
  if (manager_size m =? 0)%Z || (manager_size other_manager =? 0)%Z
  then Some cdata
  else
    let min_dist := Scalar_max in
    root1 ← tree_getRoot (dtree m);
    root2 ← tree_getRoot (dtree other_manager);
    Some (snd (fst (distanceRecurse callback root1 root2 cdata min_dist))).

End Manager.

(** *** The other members of the manager *)

(** Modelled from the spec: [hierarchy_tree.h] is not among the sources.
    The further operations of the hierarchy tree that the manager calls:
    [empty], [clear], [refit] (every internal [bv] recomputed bottom-up
    after leaf [bv]s were overwritten) and [init] (bulk construction from
    leaf nodes).  A leaf [bv] is overwritten through its node pointer
    ([None]: the pointer designates no node).  [init] is given the [bv]
    and [data] of the leaf nodes its caller allocated and returns, with
    the tree, the pointers to those nodes in the order given. *)
Class HierarchyTreeBulk (T : Type) : Type := {
  tree_empty : T -> bool;
  tree_clear : T -> T;
  tree_refit : T -> T;
  node_set_bv : T -> NodePtr -> AABB -> option T;
  tree_init : T -> list (AABB * CollisionObject) -> Z -> T * list NodePtr
}.

Section ManagerMembers.

Context {BO : BVOps} {OG : OctreeGeometry} {OB : Objects}.
Context {T : Type} {HT : HierarchyTree T} {HB : HierarchyTreeBulk T}.

(** The object table of a manager together with its settings. *)
Definition table_and_settings
    (m : DynamicAABBTreeCollisionManager (T := T)) :=
  (table m, max_tree_nonbalanced_level m, tree_incremental_balance_pass m,
   tree_init_level m, octree_as_geometry_collide m,
   octree_as_geometry_distance m).

(** [empty()]. *)
Definition manager_empty (m : DynamicAABBTreeCollisionManager) : bool :=
  tree_empty (dtree m).

(** [clear()]. *)
Definition clear (m : DynamicAABBTreeCollisionManager)
  : DynamicAABBTreeCollisionManager :=
  with_tree m (tree_clear (dtree m)) ∅.

(** [table[other_objs[i]] = node] for each [i] in turn. *)
Definition table_entries (tb : gmap CollisionObject NodePtr)
    (entries : list (CollisionObject * NodePtr))
  : gmap CollisionObject NodePtr :=
  foldl (fun tb entry => <[entry.1 := entry.2]> tb) tb entries.

(** [registerObjects(other_objs)].  Modelled from the spec:
    [BroadPhaseCollisionManager::registerObjects] of [broadphase.h], the
    branch of a manager that is not empty, registers the objects one
    after the other with [registerObject]. *)
Definition registerObjects (m : DynamicAABBTreeCollisionManager)
    (other_objs : list CollisionObject) : DynamicAABBTreeCollisionManager :=
  match other_objs with
  | [] => m
  | _ :: _ =>
      if (0 <? manager_size m)%Z then foldl registerObject m other_objs
      else
        let (t, leaves) :=
          tree_init (dtree m)
            ((fun obj => (getAABB obj, obj)) <$> other_objs)
            (tree_init_level m) in
        with_setup
          (with_tree m t (table_entries (table m) (zip other_objs leaves)))
          true
  end.

(** [update()]: the entries of the table are visited in the order of
    [map_to_list] (the source leaves the order to [std::unordered_map]). *)
Definition update_all (m : DynamicAABBTreeCollisionManager)
  : option DynamicAABBTreeCollisionManager :=
  t ← foldl (fun acc entry =>
               t ← acc; node_set_bv t entry.2 (getAABB entry.1))
            (Some (dtree m)) (map_to_list (table m));
  Some (setup (with_setup (with_tree m (tree_refit t) (table m)) false)).

(** [getObjects(objs)] on a vector of object pointers ([None]: a null
    pointer).  The vector is resized to [size()], then the keys of the
    table are written from its start on, in the order of the table.
    [None]: a key is written past the end of the vector. *)
Definition getObjects (m : DynamicAABBTreeCollisionManager)
    (objs : list (option CollisionObject))
  : option (list (option CollisionObject)) :=
  let objs := resize (Z.to_nat (manager_size m)) None objs in
  let keys := (map_to_list (table m)).*1 in
  if decide (length keys <= length objs)%nat
  then Some ((Some <$> keys) ++ drop (length keys) objs)
  else None.

(** A change of the set of managed objects. *)
Inductive MembershipChange : Type :=
| DoRegisterObject (obj : CollisionObject)
| DoRegisterObjects (other_objs : list CollisionObject)
| DoUnregisterObject (obj : CollisionObject)
| DoClear.

Definition apply_change (m : DynamicAABBTreeCollisionManager)
    (change : MembershipChange) : option DynamicAABBTreeCollisionManager :=
  match change with
  | DoRegisterObject obj => Some (registerObject m obj)
  | DoRegisterObjects other_objs => Some (registerObjects m other_objs)
  | DoUnregisterObject obj => unregisterObject m obj
  | DoClear => Some (clear m)
  end.

(** The changes applied one after the other. *)
Definition apply_changes (m : DynamicAABBTreeCollisionManager)
    (changes : list MembershipChange)
  : option DynamicAABBTreeCollisionManager :=
  foldl (fun acc change => m ← acc; apply_change m change) (Some m) changes.

End ManagerMembers.

(** *** Invariants of the user's data through the octree traversals *)

Section OctreeInvariants.

Context {BO : BVOps} {OG : OctreeGeometry} {OB : Objects}.
Context {CData : Type}.

(** The collision callback keeps [I] whenever it is called on a leaf
    object of [root1] that is not free and on a transient box. *)
Definition preserved_on_cells (callback : CollisionCallBack)
    (I : CData -> Prop) (root1 : NodeBase) : Prop :=
  forall b o box box_tf cdata,
    (b, o) ∈ leaves root1 -> isFree o = false ->
    I cdata -> I (snd (callback (object o) (transient box box_tf) cdata)).

(** The distance callback keeps [I], a property of the user's data and
    [min_dist], whenever it is called on a leaf object of [root1] and on
    a transient box. *)
Definition preserved_on_cells_distance (callback : DistanceCallBack)
    (I : CData -> Scalar -> Prop) (root1 : NodeBase) : Prop :=
  forall b o box box_tf cdata min_dist,
    (b, o) ∈ leaves root1 ->
    I cdata min_dist ->
    let out := callback (object o) (transient box box_tf) cdata min_dist in
    I (snd (fst out)) (snd out).

End OctreeInvariants.

(** *** A reference world for the examples

    Boxes with rational corners, transforms made of a quarter turn about
    the z axis and a translation (they map axis-aligned boxes to
    axis-aligned boxes, so an oriented box is again an [AABB]), and a
    hierarchy tree after the specification's description. *)

Definition vec (x y z : Scalar) : Vector3 := {| vx := x; vy := y; vz := z |}.

Definition vadd (a b : Vector3) : Vector3 :=
  vec (vx a + vx b) (vy a + vy b) (vz a + vz b).

Definition vsub (a b : Vector3) : Vector3 :=
  vec (vx a - vx b) (vy a - vy b) (vz a - vz b).

Definition Qmin2 (a b : Q) : Q := if Qle_bool a b then a else b.
Definition Qmax2 (a b : Q) : Q := if Qle_bool a b then b else a.

(** The box with corners [lo] and [hi]. *)
Definition box_at (lo hi : Vector3) : AABB := {| min_ := lo; max_ := hi |}.

(** The cube of side [1] centred at [(x, 0, 0)]. *)
Definition unit_box_at (x : Scalar) : AABB :=
  box_at (vec (x - (1 # 2)) (- (1 # 2)) (- (1 # 2)))
         (vec (x + (1 # 2)) (1 # 2) (1 # 2)).

(** Modelled from the spec: [merge(other)], the smallest box around both. *)
Definition merge (a b : AABB) : AABB :=
  box_at (vec (Qmin2 (vx (min_ a)) (vx (min_ b)))
              (Qmin2 (vy (min_ a)) (vy (min_ b)))
              (Qmin2 (vz (min_ a)) (vz (min_ b))))
         (vec (Qmax2 (vx (max_ a)) (vx (max_ b)))
              (Qmax2 (vy (max_ a)) (vy (max_ b)))
              (Qmax2 (vz (max_ a)) (vz (max_ b)))).

(** The squared length of the diagonal: the surrogate size. *)
Definition diagonal_size (a : AABB) : Scalar :=
  let d := vsub (max_ a) (min_ a) in
  vx d * vx d + vy d * vy d + vz d * vz d.

Definition axis_gap (lo1 hi1 lo2 hi2 : Scalar) : Scalar :=
  Qmax2 0 (Qmax2 (lo2 - hi1) (lo1 - hi2)).

(** The largest gap between the boxes along an axis: zero when they
    overlap, and the Euclidean distance when they are apart along one
    axis only, as the boxes of the examples are. *)
Definition gap_distance (a b : AABB) : Scalar :=
  Qmax2 (axis_gap (vx (min_ a)) (vx (max_ a)) (vx (min_ b)) (vx (max_ b)))
    (Qmax2 (axis_gap (vy (min_ a)) (vy (max_ a)) (vy (min_ b)) (vy (max_ b)))
           (axis_gap (vz (min_ a)) (vz (max_ a)) (vz (min_ b)) (vz (max_ b)))).

Definition veq (a b : Vector3) : bool :=
  Qeq_bool (vx a) (vx b) && Qeq_bool (vy a) (vy b) && Qeq_bool (vz a) (vz b).

Definition exact_equal (a b : AABB) : bool :=
  veq (min_ a) (min_ b) && veq (max_ a) (max_ b).

(** Modelled from the spec: [select] returns the child whose [bv] merged
    with the query grows less; ties go to the child whose [bv] is smaller,
    a final tie to child [0]. *)
Definition select_by_enlargement (query : AABB) (n0 n1 : NodeBase) : bool :=
  let grow n := diagonal_size (merge (bv n) query) - diagonal_size (bv n) in
  if Qlt_bool (grow n1) (grow n0) then true
  else if Qlt_bool (grow n0) (grow n1) then false
  else Qlt_bool (diagonal_size (bv n1)) (diagonal_size (bv n0)).

#[export] Instance reference_bv : BVOps := {|
  Scalar_max := inject_Z (2 ^ 1024);
  distance := gap_distance;
  size := diagonal_size;
  equal := exact_equal;
  select := select_by_enlargement
|}.

(** A quarter turn about z, [turns] times, then a translation. *)
Record QuarterTurn : Type := {
  turns : nat;
  shift : Vector3
}.

Definition turn_once (v : Vector3) : Vector3 := vec (- vy v) (vx v) (vz v).

Definition turn (n : nat) (v : Vector3) : Vector3 := Nat.iter n turn_once v.

Definition apply_turn (tf : QuarterTurn) (v : Vector3) : Vector3 :=
  vadd (turn (turns tf) v) (shift tf).

(** The box spanned by two opposite corners given in any order. *)
Definition box_of_corners (p q : Vector3) : AABB :=
  box_at (vec (Qmin2 (vx p) (vx q)) (Qmin2 (vy p) (vy q)) (Qmin2 (vz p) (vz q)))
         (vec (Qmax2 (vx p) (vx q)) (Qmax2 (vy p) (vy q)) (Qmax2 (vz p) (vz q))).

Definition transform_box (b : AABB) (tf : QuarterTurn) : AABB :=
  box_of_corners (apply_turn tf (min_ b)) (apply_turn tf (max_ b)).

Definition center (b : AABB) : Vector3 :=
  vec ((vx (min_ b) + vx (max_ b)) * (1 # 2))
      ((vy (min_ b) + vy (max_ b)) * (1 # 2))
      ((vz (min_ b) + vz (max_ b)) * (1 # 2)).

(** [constructBox]: a [Box] of the sides of [b] with the default cost
    density and thresholds, placed at the transformed centre of [b]. *)
Definition reference_constructBox (b : AABB) (tf : QuarterTurn)
  : Box * QuarterTurn :=
  ({| side := vsub (max_ b) (min_ b);
      cost_density := 1;
      threshold_occupied := 1 |},
   {| turns := turns tf; shift := apply_turn tf (center b) |}).

(** [computeChildBV]: the octant [i] of [b]; bit [k] of [i] picks the
    upper half along axis [k]. *)
Definition reference_computeChildBV (b : AABB) (i : nat) : AABB :=
  let c := center b in
  let half (bit : nat) (lo mid hi : Scalar) : Scalar * Scalar :=
    if Nat.testbit i bit then (mid, hi) else (lo, mid) in
  let '(x0, x1) := half 0%nat (vx (min_ b)) (vx c) (vx (max_ b)) in
  let '(y0, y1) := half 1%nat (vy (min_ b)) (vy c) (vy (max_ b)) in
  let '(z0, z1) := half 2%nat (vz (min_ b)) (vz c) (vz (max_ b)) in
  box_at (vec x0 y0 z0) (vec x1 y1 z1).

#[export] Instance reference_geometry : OctreeGeometry := {|
  Transform3 := QuarterTurn;
  Identity := {| turns := 0; shift := vec 0 0 0 |};
  linear_isIdentity tf := Nat.eqb (turns tf mod 4) 0;
  translation := shift;
  from_translation t := {| turns := 0; shift := t |};
  OBB := AABB;
  convertBV_OBB := transform_box;
  convertBV_AABB := transform_box;
  OBB_overlap := overlap;
  translate b t := box_at (vadd (min_ b) t) (vadd (max_ b) t);
  constructBox := reference_constructBox;
  computeChildBV := reference_computeChildBV
|}.

(** A scene: the objects of the caller, by address. *)
Record ObjectState : Type := {
  os_aabb : AABB;
  os_free : bool;
  os_transform : QuarterTurn;
  os_octree : option OcTree
}.

Definition solid (b : AABB) : ObjectState :=
  {| os_aabb := b; os_free := false;
     os_transform := {| turns := 0; shift := vec 0 0 0 |};
     os_octree := None |}.

Definition scene_objects (scene : CollisionObject -> ObjectState)
  : Objects (OG := reference_geometry) := {|
  getAABB o := os_aabb (scene o);
  isFree o := os_free (scene o);
  getTransform o := os_transform (scene o);
  as_octree o := os_octree (scene o)
|}.

(** Modelled from the spec: [hierarchy_tree.h] is not among the sources.
    The hierarchy tree of the specification's section 4.C, with its two
    tuning fields.  The leaf that stands for object [o] has address
    [node_at o]. *)
Record ReferenceTree : Type := {
  rt_root : option NodeBase;
  bu_threshold : Z;
  topdown_level : Z
}.

Definition with_root (t : ReferenceTree) (r : option NodeBase) : ReferenceTree :=
  {| rt_root := r; bu_threshold := bu_threshold t; topdown_level := topdown_level t |}.

Fixpoint find_bv (n : NodeBase) (o : CollisionObject) : option AABB :=
  match n with
  | Leaf b o' => if Pos.eqb o' o then Some b else None
  | Internal _ c0 c1 =>
      match find_bv c0 o with
      | Some b => Some b
      | None => find_bv c1 o
      end
  end.

(** Modelled from the spec: [insert] descends by [select]; at a leaf [L] a
    new internal node takes [L]'s slot, with [L] and the new leaf as its
    children; on the way the [bv]s are enlarged to contain the new box. *)
Fixpoint insert_leaf (root : NodeBase) (b : AABB) (o : CollisionObject)
  : NodeBase :=
  match root with
  | Leaf lb lo => Internal (merge lb b) (Leaf lb lo) (Leaf b o)
  | Internal nb c0 c1 =>
      if select_by_enlargement b c0 c1
      then Internal (merge nb b) c0 (insert_leaf c1 b o)
      else Internal (merge nb b) (insert_leaf c0 b o) c1
  end.

Definition insert_root (r : option NodeBase) (b : AABB) (o : CollisionObject)
  : option NodeBase :=
  match r with
  | None => Some (Leaf b o)
  | Some root => Some (insert_leaf root b o)
  end.

(** Modelled from the spec: [remove] puts the leaf's sibling into the
    slot of their parent (or makes it the root) and refits the ancestors.
    [None]: the leaf is not in the subtree; [Some None]: the subtree was
    that leaf. *)
Fixpoint remove_leaf (root : NodeBase) (o : CollisionObject)
  : option (option NodeBase) :=
  match root with
  | Leaf _ lo => if Pos.eqb lo o then Some None else None
  | Internal _ c0 c1 =>
      match remove_leaf c0 o with
      | Some None => Some (Some c1)
      | Some (Some c0') => Some (Some (Internal (merge (bv c0') (bv c1)) c0' c1))
      | None =>
          match remove_leaf c1 o with
          | Some None => Some (Some c0)
          | Some (Some c1') =>
              Some (Some (Internal (merge (bv c0) (bv c1')) c0 c1'))
          | None => None
          end
      end
  end.

(** Modelled from the spec: removing a node that is not in the tree is a
    programming error. *)
Definition reference_remove (t : ReferenceTree) (p : NodePtr)
  : option ReferenceTree :=
  match p, rt_root t with
  | node_at o, Some root =>
      r ← remove_leaf root o;
      Some (with_root t r)
  | _, _ => None
  end.

Definition reference_node_bv (t : ReferenceTree) (p : NodePtr) : option AABB :=
  match p, rt_root t with
  | node_at o, Some root => find_bv root o
  | _, _ => None
  end.

Definition reference_insert (t : ReferenceTree) (b : AABB) (o : CollisionObject)
  : ReferenceTree * NodePtr :=
  (with_root t (insert_root (rt_root t) b o), node_at o).

(** Modelled from the spec: [update(leaf, new_bv)] does nothing when
    [leaf.bv] already encloses [new_bv]; otherwise it is [remove] followed
    by [insert]. *)
Definition reference_update (t : ReferenceTree) (p : NodePtr) (new_bv : AABB)
  : option ReferenceTree :=
  old_bv ← reference_node_bv t p;
  if contain old_bv new_bv then Some t
  else
    t' ← reference_remove t p;
    match p with
    | node_at o => Some (fst (reference_insert t' new_bv o))
    | NULL => None
    end.

(** One of the four swaps of a grandchild with its uncle at the root of a
    subtree, with the size of the child [bv] it leaves behind. *)
Definition rotations (n : NodeBase) : list (Scalar * NodeBase) :=
  match n with
  | Leaf _ _ => []
  | Internal b c0 c1 =>
      (match c0 with
       | Internal b0 g0 g1 =>
           [ (diagonal_size b0 - diagonal_size (merge (bv c1) (bv g1)),
              Internal b (Internal (merge (bv c1) (bv g1)) c1 g1) g0);
             (diagonal_size b0 - diagonal_size (merge (bv g0) (bv c1)),
              Internal b (Internal (merge (bv g0) (bv c1)) g0 c1) g1) ]
       | Leaf _ _ => []
       end)
      ++
      (match c1 with
       | Internal b1 g0 g1 =>
           [ (diagonal_size b1 - diagonal_size (merge (bv c0) (bv g1)),
              Internal b g0 (Internal (merge (bv c0) (bv g1)) c0 g1));
             (diagonal_size b1 - diagonal_size (merge (bv g0) (bv c0)),
              Internal b g1 (Internal (merge (bv g0) (bv c0)) g0 c0)) ]
       | Leaf _ _ => []
       end)
  end.

(** Modelled from the spec: a pass applies the best improving rotation,
    or none. *)
Definition rotate_best (n : NodeBase) : NodeBase :=
  snd (fold_left
         (fun best cand => if Qlt_bool (fst best) (fst cand) then cand else best)
         (rotations n) (0, n)).

Definition reference_balanceIncremental (t : ReferenceTree) (passes : Z)
  : ReferenceTree :=
  with_root t (option_map (Nat.iter (Z.to_nat passes) rotate_best) (rt_root t)).

(** Modelled from the spec: top-down rebuild.  At most [bu_threshold]
    leaves: incremental balancing.  Otherwise the leaves are collected and
    the tree is rebuilt; with [topdown_level] at zero the rebuilding is by
    insertion of the leaves one after the other. *)
Definition reference_balanceTopdown (t : ReferenceTree) : ReferenceTree :=
  match rt_root t with
  | None => t
  | Some root =>
      let ls := leaves root in
      if (Z.of_nat (length ls) <=? bu_threshold t)%Z
      then reference_balanceIncremental t (Z.of_nat (length ls))
      else
        with_root t
          (fold_left (fun r l => insert_root r (fst l) (snd l)) ls None)
  end.

#[export] Instance reference_tree : HierarchyTree ReferenceTree := {|
  tree_getRoot := rt_root;
  tree_size t :=
    match rt_root t with
    | None => 0%Z
    | Some root => Z.of_nat (length (leaves root))
    end;
  tree_getMaxHeight t :=
    match rt_root t with
    | None => 0%Z
    | Some root => height root
    end;
  node_bv := reference_node_bv;
  tree_insert := reference_insert;
  tree_remove := reference_remove;
  tree_update := reference_update;
  tree_balanceIncremental := reference_balanceIncremental;
  tree_balanceTopdown := reference_balanceTopdown
|}.

(** A manager with the defaults of the constructor. *)
Definition new_manager : DynamicAABBTreeCollisionManager (T := ReferenceTree) :=
  {| dtree := {| rt_root := None; bu_threshold := 2; topdown_level := 0 |};
     table := ∅;
     setup_ := false;
     max_tree_nonbalanced_level := 10;
     tree_incremental_balance_pass := 10;
     tree_init_level := 0;
     octree_as_geometry_collide := true;
     octree_as_geometry_distance := false |}.

(** *** Scenes of the examples *)

(** The interval [[lo, hi]] on the x axis, one unit thick in y and z. *)
Definition slab (lo hi : Scalar) : AABB :=
  box_at (vec lo 0 0) (vec hi 1 1).

(** A scene given by the boxes of its objects, by address; any other
    address is a far-away box. *)
Definition scene_of (boxes : list (CollisionObject * AABB))
    (o : CollisionObject) : ObjectState :=
  solid (default (slab 1000 1001)
           (snd <$> List.find (fun p => Pos.eqb (fst p) o) boxes)).

(** Unit cubes on the x axis: three that overlap one another (at [0],
    [1/4], [1/2]) and one apart (at [3]). *)
Definition cubes : Objects :=
  scene_objects
    (scene_of [(1%positive, unit_box_at 0);
               (2%positive, unit_box_at (1 # 4));
               (3%positive, unit_box_at (1 # 2));
               (4%positive, unit_box_at 3)]).

(** Slabs on the x axis: object [1] next to object [3], object [2] far
    from both, and a query object [9] to the left of all. *)
Definition slabs : Objects :=
  scene_objects
    (scene_of [(1%positive, slab 2 3);
               (2%positive, slab 12 13);
               (3%positive, slab 3 4);
               (9%positive, slab 0 1)]).

(** The manager after [registerObject] of each of [objs], in order. *)
Definition registered {OB : Objects (OG := reference_geometry)}
    (objs : list CollisionObject)
  : DynamicAABBTreeCollisionManager (T := ReferenceTree) :=
  fold_left registerObject objs new_manager.

Definition root_of
    (m : DynamicAABBTreeCollisionManager (T := ReferenceTree))
  : option NodeBase :=
  rt_root (dtree m).

(** A manager over the slabs whose tree pairs the far object [2] with
    object [3] and leaves object [1], the neighbour of [3], alone: the
    containment invariant holds, every object has its leaf, and the
    manager is clean. *)
Definition lopsided : DynamicAABBTreeCollisionManager (T := ReferenceTree) :=
  {| dtree :=
       {| rt_root :=
            Some (Internal (slab 2 13)
                    (Leaf (slab 2 3) 1%positive)
                    (Internal (slab 3 13)
                       (Leaf (slab 12 13) 2%positive)
                       (Leaf (slab 3 4) 3%positive)));
          bu_threshold := 2;
          topdown_level := 0 |};
     table := <[1%positive := node_at 1]>
                (<[2%positive := node_at 2]>
                   (<[3%positive := node_at 3]> ∅));
     setup_ := true;
     max_tree_nonbalanced_level := 10;
     tree_incremental_balance_pass := 10;
     tree_init_level := 0;
     octree_as_geometry_collide := true;
     octree_as_geometry_distance := false |}.

(** An octree with no root cell, whose default occupancy ([1/5]) differs
    from its occupancy threshold ([1/2]). *)
Definition empty_octree : OcTree :=
  {| getRoot := None;
     getRootBV := unit_box_at 0;
     isNodeFree n := Qle_bool (getOccupancy n) 0;
     isNodeOccupied n := Qle_bool (1 # 2) (getOccupancy n);
     getOccupancyThres := 1 # 2;
     getDefaultOccupancy := 1 # 5 |}.

(** An octree of one occupied cell without children. *)
Definition one_cell_octree : OcTree :=
  {| getRoot := Some (OcNode (9 # 10) (fun _ => None));
     getRootBV := unit_box_at 0;
     isNodeFree n := Qle_bool (getOccupancy n) 0;
     isNodeOccupied n := Qle_bool (1 # 2) (getOccupancy n);
     getOccupancyThres := 1 # 2;
     getDefaultOccupancy := 1 # 5 |}.

(** A cube at [1/4] (object [1]) and an octree object (object [2]) placed
    by [tf]. *)
Definition cube_and_octree (octree : OcTree) (tf : QuarterTurn) : Objects :=
  scene_objects
    (fun o =>
       if Pos.eqb o 2
       then {| os_aabb := unit_box_at 0; os_free := false;
               os_transform := tf; os_octree := Some octree |}
       else solid (unit_box_at (1 # 4))).

(** A manager that walks octrees cell by cell. *)
Definition octree_walking
    (m : DynamicAABBTreeCollisionManager (T := ReferenceTree))
  : DynamicAABBTreeCollisionManager (T := ReferenceTree) :=
  {| dtree := dtree m;
     table := table m;
     setup_ := setup_ m;
     max_tree_nonbalanced_level := max_tree_nonbalanced_level m;
     tree_incremental_balance_pass := tree_incremental_balance_pass m;
     tree_init_level := tree_init_level m;
     octree_as_geometry_collide := false;
     octree_as_geometry_distance := false |}.

(** The densities of the boxes in a record of calls. *)
Definition densities (log : list (ObjectPtr * ObjectPtr))
  : list (Scalar * Scalar) :=
  flat_map
    (fun p =>
       match snd p with
       | transient box _ => [(cost_density box, threshold_occupied box)]
       | object _ => []
       end) log.

(** Modelled from the spec: overwriting the [bv] of the leaf of an
    object; [None] when the subtree has no such leaf. *)
Fixpoint set_leaf_bv (root : NodeBase) (o : CollisionObject) (b : AABB)
  : option NodeBase :=
  match root with
  | Leaf _ lo => if Pos.eqb lo o then Some (Leaf b lo) else None
  | Internal nb c0 c1 =>
      match set_leaf_bv c0 o b with
      | Some c0' => Some (Internal nb c0' c1)
      | None =>
          match set_leaf_bv c1 o b with
          | Some c1' => Some (Internal nb c0 c1')
          | None => None
          end
      end
  end.

(** Modelled from the spec: [refit] recomputes every internal [bv]
    bottom-up as the merge of its children. *)
Fixpoint refit_node (root : NodeBase) : NodeBase :=
  match root with
  | Leaf _ _ => root
  | Internal _ c0 c1 =>
      let c0' := refit_node c0 in
      let c1' := refit_node c1 in
      Internal (merge (bv c0') (bv c1')) c0' c1'
  end.

Definition reference_set_bv (t : ReferenceTree) (p : NodePtr) (b : AABB)
  : option ReferenceTree :=
  match p, rt_root t with
  | node_at o, Some root =>
      r ← set_leaf_bv root o b;
      Some (with_root t (Some r))
  | _, _ => None
  end.

(** Modelled from the spec: [init] builds the tree as the top-down
    rebuild does, here by insertion of the leaves one after the other. *)
Definition reference_init (t : ReferenceTree)
    (leaves : list (AABB * CollisionObject)) (level : Z)
  : ReferenceTree * list NodePtr :=
  (with_root t (fold_left (fun r l => insert_root r (fst l) (snd l)) leaves None),
   (fun l => node_at (snd l)) <$> leaves).

#[export] Instance reference_bulk : HierarchyTreeBulk ReferenceTree := {|
  tree_empty t := match rt_root t with None => true | Some _ => false end;
  tree_clear t := with_root t None;
  tree_refit t := with_root t (option_map refit_node (rt_root t));
  node_set_bv := reference_set_bv;
  tree_init := reference_init
|}.

(** An octree of two levels over the cube [[-1, 1]^3]: the root cell is
    occupied and has an occupied child in octant [1], a free child in
    octant [7] and no other child. *)
Definition two_level_octree : OcTree :=
  {| getRoot :=
       Some (OcNode (9 # 10)
               (fun i =>
                  match i with
                  | 1%nat => Some (OcNode (4 # 5) (fun _ => None))
                  | 7%nat => Some (OcNode 0 (fun _ => None))
                  | _ => None
                  end));
     getRootBV := box_at (vec (-1) (-1) (-1)) (vec 1 1 1);
     isNodeFree n := Qle_bool (getOccupancy n) 0;
     isNodeOccupied n := Qle_bool (1 # 2) (getOccupancy n);
     getOccupancyThres := 1 # 2;
     getDefaultOccupancy := 1 # 5 |}.

(** A record of calls each of which is on an object of the caller that
    is not free and on a transient box. *)
Definition cells_only {OG : OctreeGeometry} {OB : Objects}
    (log : list (ObjectPtr * ObjectPtr)) : Prop :=
  Forall (fun p =>
            match p with
            | (object o, transient _ _) => isFree o = false
            | _ => False
            end) log.

End Broadphase.

(* ===================================================================== *)
(** ** Properties of the continuous-collision dispatcher                 *)
(* ===================================================================== *)

Module CCDFacts.
Import CCD.

Section NaiveSampling.

Context {NP : Narrowphase}.

Variables (o1 o2 : CollisionGeometry).
Variable request : ContinuousCollisionRequest.



Lemma times_from_length n i remaining :
  length (times_from n i remaining) = remaining.
Proof.
  revert i; induction remaining as [|r IH]; intros i; simpl; [done|].
  by rewrite IH.
Qed.

Lemma times_from_lookup n i remaining (k : nat) :
  (k < remaining)%nat ->
  times_from n i remaining !! k = Some (sample_time n (i + Z.of_nat k)).
Proof.
  revert i k; induction remaining as [|r IH]; intros i k Hk; [lia|].
  destruct k as [|k]; simpl.
  - by rewrite Z.add_0_r.
  - rewrite IH by lia. do 2 f_equal. lia.
Qed.





Lemma n_iter_of_bound n :
  n_iter_of request = Some n -> n <= size_t_max.
Proof.
  unfold n_iter_of, to_size_t.
  destruct (sceil _) as [q| | |]; try discriminate.
  destruct (Z.leb_spec 0 (Qtruncate q)); cbn [andb]; [|discriminate].
  destruct (Z.leb_spec (Qtruncate q) size_t_max); [|discriminate].
  intros [= <-]. lia.
Qed.

Variables (motion1 motion2 : MotionBase).
Variable result : ContinuousCollisionResult.


Lemma wrap_small z : 0 <= z < 2 ^ 64 -> wrap z = z.
Proof. intros H. unfold wrap. by apply Z.mod_small. Qed.

Lemma sample_time_finite n i :
  2 <= n <= 2 ^ 64 ->
  sample_time n i = Finite (inject_Z i / inject_Z (n - 1)).
Proof.
  intros Hn. unfold sample_time, of_size_t. rewrite wrap_small by lia.
  cbn [sdiv].
  replace (Qis_zero (inject_Z (n - 1))) with false; [reflexivity|].
  symmetry. apply Z.eqb_neq. simpl. lia.
Qed.

Lemma sample_time_in_unit_interval n i :
  2 <= n <= 2 ^ 64 -> 0 <= i <= n - 1 ->
  in_unit_interval (sample_time n i).
Proof.
  intros Hn Hi. rewrite sample_time_finite by done. cbn [in_unit_interval].
  assert (0 < inject_Z (n - 1))%Q as Hd by (rewrite <- (Zlt_Qlt 0); lia).
  split.
  - apply Qle_shift_div_l; [done|]. rewrite Qmult_0_l.
    rewrite <- (Zle_Qle 0). lia.
  - apply Qle_shift_div_r; [done|]. rewrite Qmult_1_l.
    rewrite <- Zle_Qle. lia.
Qed.

Lemma sample_time_first n :
  2 <= n <= 2 ^ 64 -> has_value (sample_time n 0) 0.
Proof.
  intros Hn. rewrite sample_time_finite by done. cbn [has_value].
  unfold Qdiv. apply Qmult_0_l.
Qed.

Lemma sample_time_last n :
  2 <= n <= 2 ^ 64 -> has_value (sample_time n (n - 1)) 1.
Proof.
  intros Hn. rewrite sample_time_finite by done. cbn [has_value].
  apply Qmult_inv_r. intros H.
  unfold Qeq in H. simpl in H. lia.
Qed.

Lemma sample_time_single : sample_time 1 0 = NaN.
Proof. reflexivity. Qed.

(** C10.  The sample time is [i / (n_iter - 1)] with nothing guarding the
    denominator.  The samples are finite values of [[0, 1]] running from
    exactly [0] to exactly [1] if and only if [n_iter >= 2]; when
    [n_iter = 1] the one iteration divides zero by zero, and the motions
    are integrated at the resulting NaN. *)
Theorem sample_time_unguarded_denominator (n : Z) :
  n_iter_of request = Some n ->
  let ts := sample_times n in
  ((exists t0 t1,
       ts !! 0%nat = Some t0 /\ has_value t0 0
       /\ ts !! (length ts - 1)%nat = Some t1 /\ has_value t1 1
       /\ Forall in_unit_interval ts)
   <-> 2 <= n)
  /\ (n = 1 ->
      ts = [sdiv (of_size_t 0) (of_size_t 0)]
      /\ sdiv (of_size_t 0) (of_size_t 0) = NaN
      /\ continuousCollideNaive o1 motion1 o2 motion2 request result
         = let m1 := integrate motion1 NaN in
           let m2 := integrate motion2 NaN in
           if negb (collide o1 (getCurrentTransform m1)
                            o2 (getCurrentTransform m2) =? 0)
           then Some (NaN,
                      Build_Pointees o1 m1 o2 m2
                        {| is_collide := true;
                           time_of_contact := NaN;
                           contact_tf1 := getCurrentTransform m1;
                           contact_tf2 := getCurrentTransform m2 |})
           else Some (Finite 1,
                      Build_Pointees o1 m1 o2 m2
                        {| is_collide := false;
                           time_of_contact := Finite 1;
                           contact_tf1 := contact_tf1 result;
                           contact_tf2 := contact_tf2 result |})).
Proof.
  intros Hn ts.
  pose proof (n_iter_of_bound n Hn) as Hmax. unfold size_t_max in Hmax.
  assert (Hlen : length ts = Z.to_nat n) by apply times_from_length.
  split; [split|].
  - intros (t0 & t1 & H0 & Hv0 & _ & _ & Hall).
    destruct (Z.le_gt_cases 2 n) as [|Hlt]; [done|exfalso].
    destruct (Z.le_gt_cases n 0) as [Hle|Hgt].
    + unfold ts, sample_times in H0.
      replace (Z.to_nat n) with 0%nat in H0 by lia. discriminate.
    + assert (n = 1) as -> by lia.
      unfold ts in H0. cbn in H0. injection H0 as <-. exact Hv0.
  - intros Hge.
    exists (sample_time n 0), (sample_time n (n - 1)).
    split; [|split; [|split; [|split]]].
    + unfold ts, sample_times. rewrite times_from_lookup by lia. reflexivity.
    + apply sample_time_first. lia.
    + unfold ts at 2. unfold sample_times. rewrite times_from_lookup by lia.
      do 2 f_equal. lia.
    + apply sample_time_last. lia.
    + apply Forall_lookup. intros k t Hk.
      assert (k < Z.to_nat n)%nat as Hkn.
      { apply lookup_lt_Some in Hk. lia. }
      unfold ts, sample_times in Hk. rewrite times_from_lookup in Hk by done.
      injection Hk as <-. apply sample_time_in_unit_interval; lia.
  - intros ->. split; [reflexivity|]. split; [reflexivity|].
    unfold continuousCollideNaive. rewrite Hn.
    change (Z.to_nat 1) with 1%nat. cbn [naive_loop]. cbv zeta.
    rewrite sample_time_single.
    destruct (negb _); reflexivity.
Qed.

End NaiveSampling.

Section Unsupported.

Context {NP : Narrowphase} {SV : Solvers}.

(** C1, as the code has it.  For every unsupported combination
    [continuousCollide] returns [-1] and leaves [result], the motions and
    the geometries as they were: [is_collide] keeps the value it had on
    entry. *)
Theorem continuousCollide_unsupported
    (o1 : CollisionGeometry) (motion1 : MotionBase)
    (o2 : CollisionGeometry) (motion2 : MotionBase)
    (request : ContinuousCollisionRequest)
    (result : ContinuousCollisionResult) :
  unsupported o1 o2 request = true ->
  continuousCollide o1 motion1 o2 motion2 request result
  = Some (Finite (-1), Build_Pointees o1 motion1 o2 motion2 result).
Proof.
  unfold unsupported, continuousCollide.
  destruct (ccd_solver_type request); try discriminate; try reflexivity.
  destruct (OBJECT_TYPE_eqb (getObjectType o1) OT_BVH
            && OBJECT_TYPE_eqb (getObjectType o2) OT_BVH
            && CCDMotionType_eqb (ccd_motion_type request) CCDM_TRANS);
    [|reflexivity].
  cbn [negb orb]. unfold continuousCollideBVHPolynomial.
  destruct (getNodeType o1); cbn [has_polynomial_kernel andb negb];
    intros H;
    first [ apply negb_true_iff in H; rewrite H; reflexivity | reflexivity ].
Qed.

End Unsupported.

(** Two meshes whose bounding-volume kinds differ, under the polynomial
    solver: an unsupported combination. *)
Lemma continuousCollide_unsupported_witness :
  let mesh bv := {| sb_object := OT_BVH; sb_node := bv; sb_half := 1 # 2 |} in
  let request :=
    {| ccd_solver_type := CCDC_POLYNOMIAL_SOLVER;
       ccd_motion_type := CCDM_TRANS;
       gjk_solver_type := GST_LIBCCD;
       num_max_iterations := 10;
       toc_err := Finite (1 # 100) |} in
  unsupported (mesh BV_AABB) (mesh BV_OBB) request = true
  /\ continuousCollide (mesh BV_AABB) (line (-2) 2) (mesh BV_OBB) (line 0 0)
       request fresh_result
     = Some (Finite (-1),
             Build_Pointees (mesh BV_AABB) (line (-2) 2) (mesh BV_OBB) (line 0 0)
               fresh_result).
Proof.
  split; [reflexivity|].
  apply (continuousCollide_unsupported (NP := sliding_boxes)). reflexivity.
Defined.

(** C1 as stated fails: a result object that enters with
    [is_collide = true] leaves an unsupported call with [is_collide] still
    [true]. *)
Lemma continuousCollide_unsupported_is_collide_kept :
  let request :=
    {| ccd_solver_type := CCDC_other 7;
       ccd_motion_type := CCDM_TRANS;
       gjk_solver_type := GST_LIBCCD;
       num_max_iterations := 10;
       toc_err := Finite (1 # 100) |} in
  let result :=
    {| is_collide := true; time_of_contact := Finite (1 # 2);
       contact_tf1 := Some 0%Q; contact_tf2 := Some 0%Q |} in
  unsupported unit_box unit_box request = true
  /\ option_map (fun r => (fst r, is_collide (result_ (snd r))))
       (continuousCollide unit_box (line (-2) 2) unit_box (line 0 0)
          request result)
     = Some (Finite (-1), true).
Proof. split; reflexivity. Qed.


(** The same motion with a hundred samples: contact at [t = 25 / 99]. *)
Example continuousCollideNaive_hundred_samples :
  option_map fst
    (continuousCollideNaive unit_box (line (-2) 2) unit_box (line 0 0)
       (naive_request 100 (1 # 1000)) fresh_result)
  = Some (Finite (25 # 99)).
Proof. vm_compute. reflexivity. Qed.

(** A request for a single iteration. *)
Lemma sample_time_unguarded_denominator_witness :
  sample_times 1 = [NaN]
  /\ option_map (fun r => (fst r, lm_cur (motion1_ (snd r))))
       (continuousCollideNaive unit_box (line (-2) 2) unit_box (line 0 0)
          (naive_request 1 (1 # 100)) fresh_result)
     = Some (Finite 1, None).
Proof.
  pose proof (sample_time_unguarded_denominator (NP := sliding_boxes)
                unit_box unit_box (naive_request 1 (1 # 100))
                (line (-2) 2) (line 0 0) fresh_result 1 eq_refl) as [_ H].
  destruct (H eq_refl) as (Hts & Hnan & Hrun).
  split.
  - rewrite Hts. rewrite Hnan. reflexivity.
  - rewrite Hrun. reflexivity.
Defined.

(** *** The kernels of [namespace details], through the dispatcher *)

Section DetailKernels.

Context {NP : Narrowphase} {AM : details.AdvancementMatrix}
  {MT : details.MeshTraversal}.

Variables (o1 o2 : CollisionGeometry) (motion1 motion2 : MotionBase).
Variable request : ContinuousCollisionRequest.
Variable result : ContinuousCollisionResult.

(** Under the conservative-advancement solver, a narrow-phase solver kind
    that is neither [GST_LIBCCD] nor [GST_INDEP] gives [-1] and touches
    nothing.  A pair of node kinds with no entry in the matrix gives [-1]
    too, and [is_collide] and [time_of_contact] keep their entry values;
    but when [is_collide] was [true] on entry, both motions are integrated
    at the [time_of_contact] found in [result] and the two contact
    transforms are overwritten with theirs. *)
Theorem conservative_advancement_unsupported :
  ccd_solver_type request = CCDC_CONSERVATIVE_ADVANCEMENT ->
  (forall tag, gjk_solver_type request = GST_other tag ->
     continuousCollide (SV := details.kernels) o1 motion1 o2 motion2
       request result
     = Some (Finite (-1), Build_Pointees o1 motion1 o2 motion2 result))
  /\ ((forall tag, gjk_solver_type request <> GST_other tag) ->
      details.conservative_advancement_matrix (gjk_solver_type request)
        (getNodeType o1) (getNodeType o2) = None ->
      continuousCollide (SV := details.kernels) o1 motion1 o2 motion2
        request result
      = Some (Finite (-1),
              if is_collide result then
                let stale := time_of_contact result in
                Build_Pointees o1 (integrate motion1 stale)
                               o2 (integrate motion2 stale)
                  {| is_collide := true;
                     time_of_contact := stale;
                     contact_tf1 := getCurrentTransform (integrate motion1 stale);
                     contact_tf2 := getCurrentTransform (integrate motion2 stale) |}
              else Build_Pointees o1 motion1 o2 motion2 result)).
Proof.
  intros Hsolver. unfold continuousCollide. rewrite Hsolver.
  unfold continuousCollideConservativeAdvancement. split.
  - intros tag ->. reflexivity.
  - intros Hkind Hentry.
    destruct (gjk_solver_type request) as [| |tag] eqn:E;
      [| |by destruct (Hkind tag)];
      cbn [details_continuousCollideConservativeAdvancement details.kernels];
      unfold details.continuousCollideConservativeAdvancement;
      rewrite Hentry; cbn [result_ motion1_ motion2_ o1_ o2_];
      destruct (is_collide result) eqn:Hc; reflexivity.
Qed.



End DetailKernels.

(** *** The overloads on transforms and on collision objects *)

Section OverloadFacts.

Context {NP : Narrowphase} {AM : details.AdvancementMatrix}
  {MT : details.MeshTraversal} {MO : Motions} {CO : CollisionObjects}.

Variables (o1 o2 : CollisionObject) (tf1_end tf2_end : Transform3).
Variable request : ContinuousCollisionRequest.
Variable result : ContinuousCollisionResult.

(** A request whose motion kind is none of the four makes [getMotionBase]
    return null motions, which are handed on.  The ray-shooting, the
    polynomial and an unrecognised solver return [-1] without touching
    anything.  The naive solver dereferences the null motion in its first
    iteration; with no iteration it returns [1] and reports no collision.
    The conservative-advancement solver on a pair of node kinds without
    an entry returns [-1], unless [is_collide] was [true] on entry: then
    it dereferences the null motion. *)
Theorem continuousCollide_unknown_motion_kind (tag : Z) :
  ccd_motion_type request = CCDM_other tag ->
  let untouched :=
    {| reached_o1 := collisionGeometry o1;
       reached_o2 := collisionGeometry o2;
       reached_result := result |} in
  let call :=
    continuousCollide_CollisionObject o1 tf1_end o2 tf2_end request result in
  (ccd_solver_type request <> CCDC_NAIVE ->
   ccd_solver_type request <> CCDC_CONSERVATIVE_ADVANCEMENT ->
   call = Some (Finite (-1), untouched))
  /\ (ccd_solver_type request = CCDC_NAIVE ->
      forall n, n_iter_of request = Some n ->
      (0 < n -> call = None)
      /\ (n <= 0 ->
          call = Some (Finite 1,
                       {| reached_o1 := collisionGeometry o1;
                          reached_o2 := collisionGeometry o2;
                          reached_result :=
                            {| is_collide := false;
                               time_of_contact := Finite 1;
                               contact_tf1 := contact_tf1 result;
                               contact_tf2 := contact_tf2 result |} |})))
  /\ (ccd_solver_type request = CCDC_CONSERVATIVE_ADVANCEMENT ->
      (forall t, gjk_solver_type request <> GST_other t) ->
      details.conservative_advancement_matrix (gjk_solver_type request)
        (getNodeType (collisionGeometry o1))
        (getNodeType (collisionGeometry o2)) = None ->
      call = if is_collide result then None
             else Some (Finite (-1), untouched)).
Proof.
  intros Hkind untouched call. subst call.
  unfold continuousCollide_CollisionObject, continuousCollide_Transform3.
  rewrite Hkind. cbn [getMotionBase]. unfold continuousCollide_null_motions.
  rewrite Hkind. cbn [CCDMotionType_eqb]. rewrite !andb_false_r.
  split; [|split].
  - intros Hn Hc. destruct (ccd_solver_type request); done.
  - intros -> n ->. cbn. split; intros Hlt.
    + apply Z.ltb_lt in Hlt. by rewrite Hlt.
    + apply Z.ltb_ge in Hlt. by rewrite Hlt.
  - intros -> Hsolver Hentry.
    destruct (gjk_solver_type request) as [| |t] eqn:E;
      [| |by destruct (Hsolver t)];
      rewrite Hentry; cbn; destruct (is_collide result); reflexivity.
Qed.

End OverloadFacts.

(** *** The iteration count of the naive solver *)

Section NaiveCount.

Context {NP : Narrowphase}.

Variables (o1 o2 : CollisionGeometry) (motion1 motion2 : MotionBase).
Variable request : ContinuousCollisionRequest.
Variable result : ContinuousCollisionResult.

(** When the iteration count is zero ([num_max_iterations] is zero, or
    the reciprocal of [toc_err] rounds up to zero) the naive solver takes
    no sample: it returns [1] and reports no collision without
    integrating a motion or testing the objects. *)
Theorem continuousCollideNaive_no_sample (n : Z) :
  n_iter_of request = Some n ->
  n <= 0 ->
  continuousCollideNaive o1 motion1 o2 motion2 request result
  = Some (Finite 1,
          Build_Pointees o1 motion1 o2 motion2
            {| is_collide := false;
               time_of_contact := Finite 1;
               contact_tf1 := contact_tf1 result;
               contact_tf2 := contact_tf2 result |}).
Proof.
  intros Hn Hle. unfold continuousCollideNaive. rewrite Hn.
  replace (Z.to_nat n) with 0%nat by lia. reflexivity.
Qed.

Lemma Qis_zero_iff (e : Q) : Qis_zero e = true <-> (e == 0)%Q.
Proof.
  unfold Qis_zero, Qeq. cbn. rewrite Z.eqb_eq. lia.
Qed.

Lemma Qtruncate_inject_Z (z : Z) : Qtruncate (inject_Z z) = z.
Proof.
  unfold Qtruncate. destruct (Qsign_pos _); [apply Qfloor_Z|apply Qceiling_Z].
Qed.

Lemma continuousCollideNaive_defined :
  continuousCollideNaive o1 motion1 o2 motion2 request result = None
  <-> n_iter_of request = None.
Proof.
  unfold continuousCollideNaive. destruct (n_iter_of request) as [n|]; [|done].
  destruct (naive_loop _ _ _ _ _ _ _ _) as [[t|] p]; split; discriminate.
Qed.

Lemma ceiling_reciprocal_positive (e : Q) :
  (0 < e)%Q -> 0 < Qceiling (1 / e).
Proof.
  destruct e as [[|p|p] d]; unfold Qlt; cbn; try lia.
  intros _. unfold Qceiling, Qfloor, Qdiv, Qinv, Qmult, Qopp. cbn.
  match goal with |- 0 < - (?a / ?b) => assert (a / b < 0); [|lia] end.
  apply Z.div_lt_upper_bound; lia.
Qed.

Lemma ceiling_reciprocal_below (e : Q) :
  (e < -1)%Q -> Qceiling (1 / e) = 0.
Proof.
  destruct e as [[|p|p] d]; unfold Qlt; cbn; try lia.
  intros H. unfold Qceiling, Qfloor, Qdiv, Qinv, Qmult, Qopp. cbn.
  match goal with |- - (?a / ?b) = 0 => assert (a / b = 0); [|lia] end.
  apply Z.div_small; lia.
Qed.

Lemma ceiling_reciprocal_near (e : Q) :
  (-1 <= e)%Q -> (e < 0)%Q -> Qceiling (1 / e) < 0.
Proof.
  destruct e as [[|p|p] d]; unfold Qlt, Qle; cbn; try lia.
  intros H _. unfold Qceiling, Qfloor, Qdiv, Qinv, Qmult, Qopp. cbn.
  match goal with |- - (?a / ?b) < 0 => assert (1 <= a / b); [|lia] end.
  apply Z.div_le_lower_bound; lia.
Qed.

Lemma n_iter_of_finite (e : Q) :
  toc_err request = Finite e ->
  n_iter_of request
  = if Qis_zero e then None
    else if (0 <=? Qceiling (1 / e)) && (Qceiling (1 / e) <=? size_t_max)
         then Some (Z.min (num_max_iterations request) (Qceiling (1 / e)))
         else None.
Proof.
  intros He. unfold n_iter_of. rewrite He. cbn [sdiv].
  destruct (Qis_zero e); [reflexivity|].
  cbn [sceil to_size_t]. rewrite Qtruncate_inject_Z.
  by destruct (_ && _).
Qed.

(** The iteration count [(std::size_t)ceil(1 / toc_err)] is undefined, and
    with it the call, exactly when [toc_err] is zero or NaN, lies in
    [[-1, 0)], or is a positive value whose reciprocal exceeds the range
    of [std::size_t].  An infinite [toc_err] and one below [-1] give a
    count of zero. *)
Theorem continuousCollideNaive_undefined_count :
  (continuousCollideNaive o1 motion1 o2 motion2 request result = None
   <-> match toc_err request with
       | Finite e =>
           (e == 0)%Q \/ (-1 <= e /\ e < 0)%Q
           \/ ((0 < e)%Q /\ size_t_max < Qceiling (1 / e))
       | NaN => True
       | PInf | NInf => False
       end)
  /\ (match toc_err request with
      | Finite e => (e < -1)%Q
      | NaN => False
      | PInf | NInf => True
      end ->
      n_iter_of request = Some (Z.min (num_max_iterations request) 0)).
Proof.
  rewrite continuousCollideNaive_defined.
  destruct (toc_err request) as [e| | |] eqn:He.
  - rewrite (n_iter_of_finite e He).
    destruct (Qis_zero e) eqn:Hz.
    { apply Qis_zero_iff in Hz. split; [split; [by left|done]|].
      intros Hlt. rewrite Hz in Hlt. discriminate Hlt. }
    assert (Hnz : ~ (e == 0)%Q) by (rewrite <- Qis_zero_iff; congruence).
    destruct (Qlt_le_dec 0 e) as [Hpos|Hneg].
    { pose proof (ceiling_reciprocal_positive e Hpos) as Hc.
      destruct (Z.leb_spec 0 (Qceiling (1 / e))); [|lia]. cbn [andb].
      split.
      - destruct (Z.leb_spec (Qceiling (1 / e)) size_t_max); split.
        + discriminate.
        + intros [Ha|[[_ Ha]|[_ Ha]]]; [done| |lia].
          exfalso. apply (Qlt_irrefl 0). by transitivity e.
        + intros _. right. right. done.
        + done.
      - intros Hlt. exfalso. apply (Qlt_irrefl 0).
        transitivity e; [done|]. by transitivity (-1)%Q. }
    assert (Hlt0 : (e < 0)%Q).
    { apply Qle_lt_or_eq in Hneg as [?|?]; done. }
    destruct (Qlt_le_dec e (-1)) as [Hfar|Hnear].
    + rewrite (ceiling_reciprocal_below e Hfar). cbn. split; [|done].
      split; [discriminate|].
      intros [Ha|[[Ha _]|[Ha _]]]; [done| |].
      * exfalso. by apply Qle_not_lt in Ha.
      * exfalso. apply (Qlt_irrefl 0). by transitivity e.
    + pose proof (ceiling_reciprocal_near e Hnear Hlt0) as Hc.
      destruct (Z.leb_spec 0 (Qceiling (1 / e))); [lia|]. cbn [andb].
      split; [split; [auto|done]|].
      intros Hlt. exfalso. by apply Qle_not_lt in Hnear.
  - unfold n_iter_of. rewrite He. cbn. split; [|done].
    split; [discriminate|done].
  - unfold n_iter_of. rewrite He. cbn. split; [|done].
    split; [discriminate|done].
  - unfold n_iter_of. rewrite He. split; [done|]. done.
Qed.

End NaiveCount.

(** Two unit boxes under conservative advancement, with no entry in the
    matrix and a result object that enters with [is_collide = true] and
    [time_of_contact = 1/2]: the call returns [-1] and leaves the
    positions of the motions at [t = 1/2] as contact transforms. *)
Lemma conservative_advancement_unsupported_witness :
  let request :=
    {| ccd_solver_type := CCDC_CONSERVATIVE_ADVANCEMENT;
       ccd_motion_type := CCDM_TRANS;
       gjk_solver_type := GST_LIBCCD;
       num_max_iterations := 10;
       toc_err := Finite (1 # 100) |} in
  let stale :=
    {| is_collide := true; time_of_contact := Finite (1 # 2);
       contact_tf1 := None; contact_tf2 := None |} in
  option_map (fun r => (fst r, is_collide (result_ (snd r)),
                        contact_tf1 (result_ (snd r)),
                        contact_tf2 (result_ (snd r))))
    (continuousCollide
       (SV := details.kernels (AM := no_entries) (MT := segment_meshes))
       unit_box (line (-2) 2) unit_box (line 4 4) request stale)
  = Some (Finite (-1), true,
          Some (-2 + (2 - -2) * (1 # 2))%Q, Some (4 + (4 - 4) * (1 # 2))%Q).
Proof.
  intros request stale.
  destruct (conservative_advancement_unsupported
              (AM := no_entries) (MT := segment_meshes)
              unit_box unit_box (line (-2) 2) (line 4 4) request stale
              eq_refl) as [_ Hrun].
  rewrite Hrun; [reflexivity| |reflexivity].
  intros tag. discriminate.
Defined.


(** Two placed unit boxes, a motion kind that is none of the four, and
    the naive solver with nine iterations: the null motion is
    dereferenced. *)
Lemma continuousCollide_unknown_motion_kind_witness :
  let request :=
    {| ccd_solver_type := CCDC_NAIVE;
       ccd_motion_type := CCDM_other 7;
       gjk_solver_type := GST_LIBCCD;
       num_max_iterations := 9;
       toc_err := Finite (1 # 100) |} in
  n_iter_of request = Some 9
  /\ continuousCollide_CollisionObject
       (AM := no_entries) (MT := segment_meshes) (MO := line_motions)
       (CO := placed_boxes)
       (unit_box, (-2)%Q) (Some 2%Q) (unit_box, 0%Q) (Some 0%Q)
       request fresh_result
     = None.
Proof.
  intros request. split; [reflexivity|].
  destruct (continuousCollide_unknown_motion_kind
              (AM := no_entries) (MT := segment_meshes) (MO := line_motions)
              (CO := placed_boxes)
              (unit_box, (-2)%Q) (unit_box, 0%Q) (Some 2%Q) (Some 0%Q)
              request fresh_result 7 eq_refl) as (_ & Hnaive & _).
  destruct (Hnaive eq_refl 9 eq_refl) as [Hfault _].
  apply Hfault. lia.
Defined.

(** Two unit boxes that overlap from start to end, and a request for no
    iteration: no collision is reported. *)
Lemma continuousCollideNaive_no_sample_witness :
  n_iter_of (naive_request 0 (1 # 100)) = Some 0
  /\ option_map (fun r => (fst r, is_collide (result_ (snd r))))
       (continuousCollideNaive unit_box (line 0 0) unit_box (line 0 0)
          (naive_request 0 (1 # 100)) fresh_result)
     = Some (Finite 1, false).
Proof.
  split; [reflexivity|].
  rewrite (continuousCollideNaive_no_sample (NP := sliding_boxes)
             unit_box unit_box (line 0 0) (line 0 0)
             (naive_request 0 (1 # 100)) fresh_result 0 eq_refl);
    [reflexivity|lia].
Defined.

(** Tolerances on either side of the cases: [1/100] gives a hundred
    samples at most, [-2] none, [-1/2] and [0] an undefined count. *)
Example n_iter_of_tolerances :
  n_iter_of (naive_request 1000 (1 # 100)) = Some 100
  /\ n_iter_of (naive_request 1000 (-2)) = Some 0
  /\ n_iter_of (naive_request 1000 (- (1 # 2))) = None
  /\ n_iter_of (naive_request 1000 0) = None.
Proof. repeat split. Qed.

End CCDFacts.

(* ===================================================================== *)
(** ** Properties of the dynamic AABB tree manager                       *)
(* ===================================================================== *)

Module BroadphaseFacts.
Import Broadphase.

Local Open Scope Q_scope.

(** *** Boxes *)

Lemma axis_contain_overlap lo1 hi1 lo2 hi2 LO1 HI1 LO2 HI2 :
  axis_contain LO1 HI1 lo1 hi1 = true ->
  axis_contain LO2 HI2 lo2 hi2 = true ->
  axis_overlap lo1 hi1 lo2 hi2 = true ->
  axis_overlap LO1 HI1 LO2 HI2 = true.
Proof.
  unfold axis_contain, axis_overlap.
  rewrite !andb_true_iff, !Qle_bool_iff.
  intros [? ?] [? ?] [? ?]. split; lra.
Qed.

(** Boxes that intersect keep intersecting when both are replaced by
    boxes that contain them. *)
Lemma contain_overlap (A a B b : AABB) :
  contain A a = true -> contain B b = true ->
  overlap a b = true -> overlap A B = true.
Proof.
  unfold contain, overlap. rewrite !andb_true_iff.
  intros [[? ?] ?] [[? ?] ?] [[? ?] ?].
  repeat split; eapply axis_contain_overlap; eauto.
Qed.

Lemma contain_refl (a : AABB) : contain a a = true.
Proof.
  unfold contain, axis_contain.
  rewrite !andb_true_iff, !Qle_bool_iff. repeat split; lra.
Qed.

Lemma contain_trans (a b c : AABB) :
  contain a b = true -> contain b c = true -> contain a c = true.
Proof.
  unfold contain, axis_contain. rewrite !andb_true_iff, !Qle_bool_iff.
  intros [[[? ?] [? ?]] [? ?]] [[[? ?] [? ?]] [? ?]]. repeat split; lra.
Qed.

(** Under the containment invariant the [bv] of a node contains the [bv]
    of every leaf below it. *)
Lemma containment_leaves (n : NodeBase) :
  containment n = true ->
  forall l, l ∈ leaves n -> contain (bv n) (fst l) = true.
Proof.
  induction n as [b o | b c0 IH0 c1 IH1]; cbn [containment leaves bv].
  - intros _ l Hl. apply list_elem_of_singleton in Hl as ->. apply contain_refl.
  - rewrite !andb_true_iff. intros [[[H0 H1] Hc0] Hc1] l Hl.
    apply elem_of_app in Hl as [Hl | Hl].
    + eapply contain_trans; [exact H0|]. by apply IH0.
    + eapply contain_trans; [exact H1|]. by apply IH1.
Qed.

(** *** Pairs of leaves *)

Section Pairs.

Context {A : Type}.
Implicit Types l k : list A.

Lemma pairs_between_nil_r l : pairs_between l [] = [].
Proof. unfold pairs_between. induction l; simpl; auto. Qed.

Lemma pairs_between_app_l l l' k :
  pairs_between (l ++ l') k = pairs_between l k ++ pairs_between l' k.
Proof. unfold pairs_between. apply flat_map_app. Qed.

Lemma pairs_between_app_r l k k' :
  pairs_between l (k ++ k') ≡ₚ pairs_between l k ++ pairs_between l k'.
Proof.
  unfold pairs_between. induction l as [|a l IH]; simpl; [done|].
  rewrite IH, map_app.
  rewrite <- !(assoc_L (++)). f_equiv.
  rewrite !(assoc_L (++)). f_equiv. apply Permutation_app_comm.
Qed.

Lemma pairs_within_app l k :
  pairs_within (l ++ k)
  ≡ₚ pairs_within l ++ pairs_within k ++ pairs_between l k.
Proof.
  induction l as [|a l IH]; simpl.
  - by rewrite (right_id_L [] (++)).
  - rewrite IH, map_app. unfold pairs_between. simpl.
    rewrite <- !(assoc_L (++)). f_equiv.
    rewrite (Permutation_app_swap_app (map (pair a) k)). f_equiv.
    apply Permutation_app_swap_app.
Qed.

Lemma elem_of_pairs_between l k (p : A * A) :
  p ∈ pairs_between l k -> fst p ∈ l /\ snd p ∈ k.
Proof.
  unfold pairs_between. rewrite list_elem_of_In, in_flat_map.
  intros (a & Ha & Hp). apply in_map_iff in Hp as (b & <- & Hb).
  rewrite !list_elem_of_In. auto.
Qed.

Lemma elem_of_pairs_between_2 l k (a b : A) :
  a ∈ l -> b ∈ k -> (a, b) ∈ pairs_between l k.
Proof.
  unfold pairs_between. rewrite !list_elem_of_In, in_flat_map.
  intros Ha Hb. exists a. split; [done|]. by apply in_map.
Qed.

End Pairs.

(** *** Collision traversals and the calls they make *)

Section CollisionTraversal.

Context {BO : BVOps} {OG : OctreeGeometry}.
Context {CData : Type}.
Implicit Types callback : CollisionCallBack (CData := CData).

Lemma run_calls_app callback calls calls' cdata :
  run_calls callback (calls ++ calls') cdata
  = let (stop, cdata') := run_calls callback calls cdata in
    if stop then (true, cdata') else run_calls callback calls' cdata'.
Proof.
  revert cdata; induction calls as [|[a b] calls IH]; intros cdata; simpl.
  - reflexivity.
  - destruct (callback (object a) (object b) cdata) as [[] cdata']; [done|].
    apply IH.
Qed.

Lemma stop_or_not (p : bool * CData) :
  (let (stop, cdata) := p in if stop then (true, cdata) else (false, cdata)) = p.
Proof. by destruct p as [[] ?]. Qed.

(** Two traversals in sequence, as every kernel chains them. *)
Lemma run_calls_seq callback calls calls' cdata :
  (let (stop, cdata1) := run_calls callback calls cdata in
   if stop then (true, cdata1) else
   let (stop, cdata2) := run_calls callback calls' cdata1 in
   if stop then (true, cdata2) else (false, cdata2))
  = run_calls callback (calls ++ calls') cdata.
Proof.
  rewrite run_calls_app.
  destruct (run_calls callback calls cdata) as [[] cdata1]; [done|].
  apply stop_or_not.
Qed.

(** [collisionRecurse] hands the callback the pairs of [collisionCalls],
    in order, until a call returns [true]. *)
Lemma collisionRecurse_run callback (root1 root2 : NodeBase) (cdata : CData) :
  collisionRecurse callback root1 root2 cdata
  = run_calls callback (collisionCalls root1 root2) cdata.
Proof.
  revert root2 cdata.
  induction root1 as [bv1 data1 | bv1 c0 IH0 c1 IH1];
    induction root2 as [bv2 data2 | bv2 e0 IHe0 e1 IHe1]; intros cdata.
  - simpl. destruct (overlap bv1 bv2); simpl; [|done].
    by destruct (callback _ _ _) as [[] ?].
  - change (collisionRecurse callback (Leaf bv1 data1) (Internal bv2 e0 e1) cdata)
      with (if negb (overlap bv1 bv2) then (false, cdata) else
            let (stop, cdata1) := collisionRecurse callback (Leaf bv1 data1) e0 cdata in
            if stop then (true, cdata1) else
            let (stop, cdata2) := collisionRecurse callback (Leaf bv1 data1) e1 cdata1 in
            if stop then (true, cdata2) else (false, cdata2)).
    change (collisionCalls (Leaf bv1 data1) (Internal bv2 e0 e1))
      with (if negb (overlap bv1 bv2) then [] else
            collisionCalls (Leaf bv1 data1) e0 ++ collisionCalls (Leaf bv1 data1) e1).
    destruct (negb (overlap bv1 bv2)); [done|].
    rewrite IHe0.
    destruct (run_calls callback (collisionCalls (Leaf bv1 data1) e0) cdata)
      as [stop cdata1] eqn:E.
    rewrite <- run_calls_seq, E. destruct stop; [done|]. by rewrite IHe1.
  - change (collisionRecurse callback (Internal bv1 c0 c1) (Leaf bv2 data2) cdata)
      with (if negb (overlap bv1 bv2) then (false, cdata) else
            let (stop, cdata1) := collisionRecurse callback c0 (Leaf bv2 data2) cdata in
            if stop then (true, cdata1) else
            let (stop, cdata2) := collisionRecurse callback c1 (Leaf bv2 data2) cdata1 in
            if stop then (true, cdata2) else (false, cdata2)).
    change (collisionCalls (Internal bv1 c0 c1) (Leaf bv2 data2))
      with (if negb (overlap bv1 bv2) then [] else
            collisionCalls c0 (Leaf bv2 data2) ++ collisionCalls c1 (Leaf bv2 data2)).
    destruct (negb (overlap bv1 bv2)); [done|].
    rewrite IH0.
    destruct (run_calls callback (collisionCalls c0 (Leaf bv2 data2)) cdata)
      as [stop cdata1] eqn:E.
    rewrite <- run_calls_seq, E. destruct stop; [done|]. by rewrite IH1.
  - change (collisionRecurse callback (Internal bv1 c0 c1) (Internal bv2 e0 e1) cdata)
      with (if negb (overlap bv1 bv2) then (false, cdata) else
            if Qlt_bool (size bv2) (size bv1) then
              let (stop, cdata1) := collisionRecurse callback c0 (Internal bv2 e0 e1) cdata in
              if stop then (true, cdata1) else
              let (stop, cdata2) := collisionRecurse callback c1 (Internal bv2 e0 e1) cdata1 in
              if stop then (true, cdata2) else (false, cdata2)
            else
              let (stop, cdata1) := collisionRecurse callback (Internal bv1 c0 c1) e0 cdata in
              if stop then (true, cdata1) else
              let (stop, cdata2) := collisionRecurse callback (Internal bv1 c0 c1) e1 cdata1 in
              if stop then (true, cdata2) else (false, cdata2)).
    change (collisionCalls (Internal bv1 c0 c1) (Internal bv2 e0 e1))
      with (if negb (overlap bv1 bv2) then [] else
            if Qlt_bool (size bv2) (size bv1) then
              collisionCalls c0 (Internal bv2 e0 e1) ++ collisionCalls c1 (Internal bv2 e0 e1)
            else
              collisionCalls (Internal bv1 c0 c1) e0 ++ collisionCalls (Internal bv1 c0 c1) e1).
    destruct (negb (overlap bv1 bv2)); [done|].
    destruct (Qlt_bool (size bv2) (size bv1)).
    + rewrite IH0.
      destruct (run_calls callback (collisionCalls c0 (Internal bv2 e0 e1)) cdata)
        as [stop cdata1] eqn:E.
      rewrite <- run_calls_seq, E. destruct stop; [done|]. by rewrite IH1.
    + rewrite IHe0.
      destruct (run_calls callback (collisionCalls (Internal bv1 c0 c1) e0) cdata)
        as [stop cdata1] eqn:E.
      rewrite <- run_calls_seq, E. destruct stop; [done|]. by rewrite IHe1.
Qed.

(** [selfCollisionRecurse] hands the callback the pairs of
    [selfCollisionCalls], in order, until a call returns [true]. *)
Lemma selfCollisionRecurse_run callback (root : NodeBase) (cdata : CData) :
  selfCollisionRecurse callback root cdata
  = run_calls callback (selfCollisionCalls root) cdata.
Proof.
  revert cdata. induction root as [b o | b c0 IH0 c1 IH1]; intros cdata.
  - reflexivity.
  - cbn [selfCollisionRecurse selfCollisionCalls].
    rewrite run_calls_app, IH0.
    destruct (run_calls callback (selfCollisionCalls c0) cdata) as [[] cdata1];
      [done|].
    rewrite run_calls_app, IH1.
    destruct (run_calls callback (selfCollisionCalls c1) cdata1) as [[] cdata2];
      [done|].
    rewrite collisionRecurse_run. apply stop_or_not.
Qed.


Lemma collisionCalls_leaf_internal bv1 data1 bv2 e0 e1 :
  collisionCalls (Leaf bv1 data1) (Internal bv2 e0 e1)
  = if negb (overlap bv1 bv2) then []
    else collisionCalls (Leaf bv1 data1) e0 ++ collisionCalls (Leaf bv1 data1) e1.
Proof. reflexivity. Qed.

Lemma collisionCalls_internal_leaf bv1 c0 c1 bv2 data2 :
  collisionCalls (Internal bv1 c0 c1) (Leaf bv2 data2)
  = if negb (overlap bv1 bv2) then []
    else collisionCalls c0 (Leaf bv2 data2) ++ collisionCalls c1 (Leaf bv2 data2).
Proof. reflexivity. Qed.

Lemma collisionCalls_internal_internal bv1 c0 c1 bv2 e0 e1 :
  collisionCalls (Internal bv1 c0 c1) (Internal bv2 e0 e1)
  = if negb (overlap bv1 bv2) then []
    else if Qlt_bool (size bv2) (size bv1)
    then collisionCalls c0 (Internal bv2 e0 e1)
         ++ collisionCalls c1 (Internal bv2 e0 e1)
    else collisionCalls (Internal bv1 c0 c1) e0
         ++ collisionCalls (Internal bv1 c0 c1) e1.
Proof. reflexivity. Qed.

Lemma filter_none {A} (P : A -> Prop) `{!forall x, Decision (P x)} (l : list A) :
  (forall x, x ∈ l -> ~ P x) -> filter P l = [].
Proof.
  induction l as [|a l IH]; intros Hall; [done|].
  rewrite filter_cons_False by (apply Hall; left).
  apply IH. intros x Hx. apply Hall. by right.
Qed.

Lemma overlapping_between_app_l l l' k :
  overlapping_between (l ++ l') k
  = overlapping_between l k ++ overlapping_between l' k.
Proof.
  unfold overlapping_between.
  by rewrite pairs_between_app_l, filter_app, fmap_app.
Qed.

Lemma overlapping_between_app_r l k k' :
  overlapping_between l (k ++ k')
  ≡ₚ overlapping_between l k ++ overlapping_between l k'.
Proof.
  unfold overlapping_between.
  by rewrite pairs_between_app_r, filter_app, fmap_app.
Qed.

(** Subtrees whose [bv]s are disjoint have no pair of intersecting
    leaves, under the containment invariant. *)
Lemma overlapping_between_disjoint (root1 root2 : NodeBase) :
  containment root1 = true -> containment root2 = true ->
  overlap (bv root1) (bv root2) = false ->
  overlapping_between (leaves root1) (leaves root2) = [].
Proof.
  intros H1 H2 Hdis. unfold overlapping_between.
  rewrite filter_none; [done|].
  intros [l1 l2] [Hl1 Hl2]%elem_of_pairs_between Hov. simpl in *.
  unfold overlapping in Hov. simpl in Hov.
  rewrite (contain_overlap (bv root1) (fst l1) (bv root2) (fst l2)) in Hdis;
    [done| | |done].
  - by apply containment_leaves.
  - by apply containment_leaves.
Qed.

Lemma containment_children b c0 c1 :
  containment (Internal b c0 c1) = true ->
  containment c0 = true /\ containment c1 = true.
Proof. cbn [containment]. rewrite !andb_true_iff. tauto. Qed.

(** Under the containment invariant, the calls of [collisionRecurse] are
    the pairs of leaves, one from each tree, whose boxes intersect: each
    such pair once, and no other. *)
Lemma collisionCalls_pairs (root1 root2 : NodeBase) :
  containment root1 = true -> containment root2 = true ->
  collisionCalls root1 root2
  ≡ₚ overlapping_between (leaves root1) (leaves root2).
Proof.
  revert root2.
  induction root1 as [bv1 data1 | bv1 c0 IH0 c1 IH1];
    induction root2 as [bv2 data2 | bv2 e0 IHe0 e1 IHe1]; intros H1 H2.
  - cbn. unfold overlapping_between. cbn.
    destruct (decide (overlapping (bv1, data1, (bv2, data2)))) as [Hov|Hov];
      unfold overlapping in Hov; cbn in Hov.
    + by rewrite Hov.
    + apply not_true_is_false in Hov. by rewrite Hov.
  - rewrite collisionCalls_leaf_internal.
    destruct (overlap bv1 bv2) eqn:Hov; cbn [negb].
    + destruct (containment_children _ _ _ H2) as [He0 He1].
      cbn [leaves]. rewrite overlapping_between_app_r.
      by rewrite IHe0, IHe1.
    + by rewrite overlapping_between_disjoint.
  - rewrite collisionCalls_internal_leaf.
    destruct (overlap bv1 bv2) eqn:Hov; cbn [negb].
    + destruct (containment_children _ _ _ H1) as [Hc0 Hc1].
      cbn [leaves]. rewrite overlapping_between_app_l.
      by rewrite IH0, IH1.
    + by rewrite overlapping_between_disjoint.
  - rewrite collisionCalls_internal_internal.
    destruct (overlap bv1 bv2) eqn:Hov; cbn [negb].
    + destruct (containment_children _ _ _ H1) as [Hc0 Hc1].
      destruct (containment_children _ _ _ H2) as [He0 He1].
      destruct (Qlt_bool (size bv2) (size bv1)).
      * change (leaves (Internal bv1 c0 c1)) with (leaves c0 ++ leaves c1).
        rewrite overlapping_between_app_l.
        by rewrite IH0, IH1.
      * change (leaves (Internal bv2 e0 e1)) with (leaves e0 ++ leaves e1).
        rewrite overlapping_between_app_r.
        by rewrite IHe0, IHe1.
    + by rewrite overlapping_between_disjoint.
Qed.


End CollisionTraversal.

(** *** Collision traversal of one object against the tree *)

Section QueryTraversal.

Context {BO : BVOps} {OG : OctreeGeometry} {OB : Objects}.
Context {CData : Type}.
Implicit Types callback : CollisionCallBack (CData := CData).

(** [collisionRecurse] against an object hands the callback the pairs of
    [collisionCalls_query], in order, until a call returns [true]. *)
Lemma collisionRecurse_query_run callback (root : NodeBase)
    (query : CollisionObject) (cdata : CData) :
  collisionRecurse_query callback root query cdata
  = run_calls callback (collisionCalls_query root query) cdata.
Proof.
  revert cdata. induction root as [b o | b c0 IH0 c1 IH1]; intros cdata.
  - cbn. destruct (negb (overlap b (getAABB query))); cbn; [done|].
    by destruct (callback _ _ _) as [[] ?].
  - cbn [collisionRecurse_query collisionCalls_query].
    destruct (negb (overlap b (getAABB query))); [done|]. cbv zeta.
    rewrite <- run_calls_seq.
    destruct (select (getAABB query) c0 c1).
    + rewrite IH1.
      destruct (run_calls callback (collisionCalls_query c1 query) cdata)
        as [[] cdata1]; [done|]. by rewrite IH0.
    + rewrite IH0.
      destruct (run_calls callback (collisionCalls_query c0 query) cdata)
        as [[] cdata1]; [done|]. by rewrite IH1.
Qed.

(** Under the containment invariant those pairs are the leaves whose
    boxes intersect the box of the query, each once, paired with the
    query. *)
Lemma collisionCalls_query_leaves (root : NodeBase) (query : CollisionObject) :
  containment root = true ->
  collisionCalls_query root query
  ≡ₚ (fun l => (snd l, query)) <$> filter (touching (getAABB query)) (leaves root).
Proof.
  induction root as [b o | b c0 IH0 c1 IH1]; intros Hinv.
  - cbn.
    destruct (decide (touching (getAABB query) (b, o))) as [Hov|Hov];
      unfold touching in Hov; cbn in Hov.
    + by rewrite Hov.
    + apply not_true_is_false in Hov. by rewrite Hov.
  - destruct (containment_children _ _ _ Hinv) as [Hc0 Hc1].
    cbn [collisionCalls_query leaves].
    destruct (overlap b (getAABB query)) eqn:Hov; cbn [negb].
    + cbv zeta. rewrite filter_app, fmap_app.
      destruct (select (getAABB query) c0 c1).
      * rewrite IH0, IH1 by done. apply Permutation_app_comm.
      * by rewrite IH0, IH1.
    + rewrite filter_none; [done|].
      intros l Hl Htouch. unfold touching in Htouch.
      rewrite (contain_overlap b (fst l) (getAABB query) (getAABB query))
        in Hov; [done| |apply contain_refl|done].
      by apply (containment_leaves (Internal b c0 c1)).
Qed.

End QueryTraversal.

(** *** Distance traversal of one object against the tree *)

Section DistanceTraversal.

Context {BO : BVOps} {OG : OctreeGeometry} {OB : Objects}.
Context {CData : Type}.
Implicit Types callback : DistanceCallBack (CData := CData).
Implicit Types visit : CData -> Scalar -> bool * CData * Scalar.

Lemma Qlt_bool_true a b : Qlt_bool a b = true <-> a < b.
Proof.
  unfold Qlt_bool. rewrite negb_true_iff, <- not_true_iff_false, Qle_bool_iff.
  split; [apply Qnot_le_lt | apply Qlt_not_le].
Qed.

Lemma Qlt_bool_false a b : Qlt_bool a b = false <-> b <= a.
Proof.
  unfold Qlt_bool. rewrite negb_false_iff. apply Qle_bool_iff.
Qed.

Lemma lower_le_l m d : lower m d <= m.
Proof.
  unfold lower. destruct (Qlt_bool d m) eqn:E; [|lra].
  apply Qlt_bool_true in E. lra.
Qed.

Lemma lower_le_r m d : lower m d <= d.
Proof.
  unfold lower. destruct (Qlt_bool d m) eqn:E; [lra|].
  by apply Qlt_bool_false in E.
Qed.

Lemma visit_if_closer_settles {A} (d : A -> Scalar) L visit (bound : Scalar) :
  settles d L visit ->
  (forall l, l ∈ L -> bound <= d l) ->
  settles d L (visit_if_closer bound visit).
Proof.
  intros Hv Hb cdata m. unfold visit_if_closer.
  destruct (Qlt_bool bound m) eqn:E; [apply Hv|].
  apply Qlt_bool_false in E. cbn. repeat split; [lra| |by left].
  intros l Hl. specialize (Hb l Hl). lra.
Qed.

Lemma then_settles {A} (d : A -> Scalar) L L' visit visit' :
  settles d L visit -> settles d L' visit' ->
  settles d (L ++ L')
    (fun cdata m =>
       let '(stop, cdata, m) := visit cdata m in
       if stop then (true, cdata, m) else
       let '(stop, cdata, m) := visit' cdata m in
       if stop then (true, cdata, m) else (false, cdata, m)).
Proof.
  intros Hv Hv' cdata m.
  destruct (Hv cdata m) as (Hs & Hle & Hall & Hex).
  destruct (visit cdata m) as [[stop cdata1] m1]. cbn in Hs, Hle, Hall, Hex.
  subst stop.
  destruct (Hv' cdata1 m1) as (Hs' & Hle' & Hall' & Hex').
  destruct (visit' cdata1 m1) as [[stop cdata2] m2]. cbn in Hs', Hle', Hall', Hex'.
  subst stop. cbn. repeat split.
  - lra.
  - intros l [Hl|Hl]%elem_of_app.
    + specialize (Hall l Hl). lra.
    + by apply Hall'.
  - destruct Hex' as [->|(l & Hl & ->)].
    + destruct Hex as [->|(l & Hl & ->)]; [by left|].
      right. exists l. split; [|done]. apply elem_of_app. by left.
    + right. exists l. split; [|done]. apply elem_of_app. by right.
Qed.

Lemma settles_perm {A} (d : A -> Scalar) L L' visit :
  (forall l, l ∈ L <-> l ∈ L') -> settles d L visit -> settles d L' visit.
Proof.
  intros Hiff Hv cdata m. destruct (Hv cdata m) as (Hs & Hle & Hall & Hex).
  repeat split; [done|done| |].
  - intros l Hl. apply Hall. by apply Hiff.
  - destruct Hex as [?|(l & Hl & ?)]; [by left|].
    right. exists l. split; [by apply Hiff|done].
Qed.

Lemma nearer_first_settles {A} (d : A -> Scalar) L0 L1 visit0 visit1
    (d1 d2 : Scalar) :
  settles d L0 visit0 -> settles d L1 visit1 ->
  (forall l, l ∈ L0 -> d1 <= d l) ->
  (forall l, l ∈ L1 -> d2 <= d l) ->
  settles d (L0 ++ L1) (nearer_first d1 d2 visit0 visit1).
Proof.
  intros H0 H1 Hb0 Hb1.
  pose proof (visit_if_closer_settles d L0 visit0 d1 H0 Hb0) as G0.
  pose proof (visit_if_closer_settles d L1 visit1 d2 H1 Hb1) as G1.
  unfold nearer_first. destruct (Qlt_bool d2 d1).
  - apply (settles_perm d (L1 ++ L0)); [|exact (then_settles d L1 L0 _ _ G1 G0)].
    intros l. rewrite !elem_of_app. tauto.
  - exact (then_settles d L0 L1 _ _ G0 G1).
Qed.

Lemma lower_bounded_here d q n :
  lower_bounded d q n = true ->
  forall l, l ∈ leaves n -> distance q (bv n) <= d (snd l).
Proof.
  intros H l Hl.
  assert (forallb (fun l => Qle_bool (distance q (bv n)) (d (snd l))) (leaves n)
          = true) as Hall.
  { destruct n; cbn [lower_bounded] in H; apply andb_true_iff in H; tauto. }
  rewrite forallb_forall in Hall. apply Qle_bool_iff, Hall.
  by apply list_elem_of_In.
Qed.

Lemma lower_bounded_children d q b c0 c1 :
  lower_bounded d q (Internal b c0 c1) = true ->
  lower_bounded d q c0 = true /\ lower_bounded d q c1 = true.
Proof.
  cbn [lower_bounded]. rewrite !andb_true_iff. tauto.
Qed.

(** With a callback that reports [d] and never stops, the traversal of
    [root] settles [min_dist] over all the leaves of [root]. *)
Lemma distanceRecurse_query_settles callback query d (root : NodeBase) :
  reports callback query d -> never_stops callback ->
  lower_bounded d (getAABB query) root = true ->
  settles (fun l => d (snd l)) (leaves root)
    (distanceRecurse_query callback root query).
Proof.
  intros Hrep Hgo. induction root as [b o | b c0 IH0 c1 IH1]; intros Hlb.
  - intros cdata m. cbn [distanceRecurse_query leaves].
    specialize (Hrep o cdata m). specialize (Hgo (object o) (object query) cdata m).
    destruct (callback (object o) (object query) cdata m) as [[stop cdata1] m1].
    cbn in Hrep, Hgo. subst stop m1. cbn. repeat split.
    + apply lower_le_l.
    + intros l ->%list_elem_of_singleton. apply lower_le_r.
    + unfold lower. destruct (Qlt_bool (d o) m); [right|by left].
      exists (b, o). split; [apply list_elem_of_singleton|]; done.
  - destruct (lower_bounded_children _ _ _ _ _ Hlb) as [Hl0 Hl1].
    cbn [distanceRecurse_query leaves]. cbv zeta.
    apply nearer_first_settles; auto using lower_bounded_here.
Qed.

(** The step of the traversal at an internal node, for any callback: the
    child whose box is nearer to the query is visited first (child [0] on
    a tie), and a child is entered only while the AABB distance of its box
    is below the current [min_dist]. *)
Lemma distanceRecurse_query_step callback query bv_ c0 c1 cdata min_dist :
  let dist n := distance (getAABB query) (bv n) in
  let near := if Qlt_bool (dist c1) (dist c0) then c1 else c0 in
  let far := if Qlt_bool (dist c1) (dist c0) then c0 else c1 in
  dist near <= dist far
  /\ distanceRecurse_query callback (Internal bv_ c0 c1) query cdata min_dist
     = let '(stop, cdata1, min_dist1) :=
         if Qlt_bool (dist near) min_dist
         then distanceRecurse_query callback near query cdata min_dist
         else (false, cdata, min_dist) in
       if stop then (true, cdata1, min_dist1)
       else if Qlt_bool (dist far) min_dist1
            then distanceRecurse_query callback far query cdata1 min_dist1
            else (false, cdata1, min_dist1).
Proof.
  intros dist near far. subst near far.
  cbn [distanceRecurse_query]. cbv zeta. unfold nearer_first, visit_if_closer.
  fold (dist c0) (dist c1).
  destruct (Qlt_bool (dist c1) (dist c0)) eqn:E.
  - apply Qlt_bool_true in E. split; [lra|].
    destruct (Qlt_bool (dist c1) min_dist);
      [destruct (distanceRecurse_query callback c1 query cdata min_dist)
         as [[[] cdata1] m1]|]; try reflexivity;
      (destruct (Qlt_bool (dist c0) _);
       [destruct (distanceRecurse_query callback c0 query _ _) as [[[] ?] ?]|];
       reflexivity).
  - apply Qlt_bool_false in E. split; [lra|].
    destruct (Qlt_bool (dist c0) min_dist);
      [destruct (distanceRecurse_query callback c0 query cdata min_dist)
         as [[[] cdata1] m1]|]; try reflexivity;
      (destruct (Qlt_bool (dist c1) _);
       [destruct (distanceRecurse_query callback c1 query _ _) as [[[] ?] ?]|];
       reflexivity).
Qed.

(** *** Distance traversals of two trees and of one tree against itself *)

Lemma settles_ext {A} (d : A -> Scalar) L visit visit' :
  (forall cdata m, visit' cdata m = visit cdata m) ->
  settles d L visit -> settles d L visit'.
Proof. intros Heq Hv cdata m. rewrite Heq. apply Hv. Qed.

Lemma elem_of_nodes_root n : n ∈ nodes n.
Proof. destruct n; cbn; apply list_elem_of_here. Qed.

Lemma elem_of_nodes_child0 b c0 c1 n :
  n ∈ nodes c0 -> n ∈ nodes (Internal b c0 c1).
Proof. intros H. cbn. apply list_elem_of_further, elem_of_app. by left. Qed.

Lemma elem_of_nodes_child1 b c0 c1 n :
  n ∈ nodes c1 -> n ∈ nodes (Internal b c0 c1).
Proof. intros H. cbn. apply list_elem_of_further, elem_of_app. by right. Qed.

Lemma lower_bounded_between_here d root1 root2 :
  lower_bounded_between d root1 root2 = true ->
  forall n1 n2, n1 ∈ nodes root1 -> n2 ∈ nodes root2 ->
  forall p, p ∈ pairs_between (leaves n1) (leaves n2) ->
    distance (bv n1) (bv n2) <= between d p
    /\ distance (bv n2) (bv n1) <= between d p.
Proof.
  intros H n1 n2 H1 H2 p Hp. unfold lower_bounded_between in H.
  rewrite forallb_forall in H. specialize (H (n1, n2)).
  pose proof (elem_of_pairs_between_2 _ _ _ _ H1 H2) as Hin.
  apply list_elem_of_In in Hin. specialize (H Hin). cbn [fst snd] in H.
  rewrite forallb_forall in H. apply list_elem_of_In in Hp.
  specialize (H p Hp). apply andb_true_iff in H as [Ha Hb].
  by apply Qle_bool_iff in Ha, Hb.
Qed.

(** With a callback that reports [d] and never stops, the traversal of
    two trees settles [min_dist] over all the pairs of leaves, one of
    each tree. *)
Lemma distanceRecurse_settles callback d (root1 root2 : NodeBase) :
  reports_between callback d -> never_stops callback ->
  (forall n1 n2, n1 ∈ nodes root1 -> n2 ∈ nodes root2 ->
   forall p, p ∈ pairs_between (leaves n1) (leaves n2) ->
     distance (bv n1) (bv n2) <= between d p
     /\ distance (bv n2) (bv n1) <= between d p) ->
  settles (between d) (pairs_between (leaves root1) (leaves root2))
    (distanceRecurse callback root1 root2).
Proof.
  intros Hrep Hgo. revert root2.
  induction root1 as [b1 o1 | b1 c0 IH0 c1 IH1];
    induction root2 as [b2 o2 | b2 e0 IHe0 e1 IHe1]; intros Hb.
  - intros cdata m. cbn.
    specialize (Hrep o1 o2 cdata m).
    specialize (Hgo (object o1) (object o2) cdata m).
    destruct (callback (object o1) (object o2) cdata m) as [[stop cdata1] m1].
    cbn in Hrep, Hgo. subst stop m1. cbn. repeat split.
    + apply lower_le_l.
    + intros l ->%list_elem_of_singleton. apply lower_le_r.
    + unfold lower. destruct (Qlt_bool (d o1 o2) m); [right|by left].
      exists (b1, o1, (b2, o2)). split; [apply list_elem_of_singleton|]; done.
  - apply (settles_ext _ _
             (nearer_first (distance b1 (bv e0)) (distance b1 (bv e1))
                (distanceRecurse callback (Leaf b1 o1) e0)
                (distanceRecurse callback (Leaf b1 o1) e1))); [done|].
    apply (settles_perm _
             (pairs_between (leaves (Leaf b1 o1)) (leaves e0)
              ++ pairs_between (leaves (Leaf b1 o1)) (leaves e1))).
    { intros p. change (leaves (Internal b2 e0 e1)) with (leaves e0 ++ leaves e1).
      by rewrite pairs_between_app_r. }
    apply nearer_first_settles.
    + apply IHe0. intros n1 n2 H1 H2. apply Hb; [done|].
      by apply elem_of_nodes_child0.
    + apply IHe1. intros n1 n2 H1 H2. apply Hb; [done|].
      by apply elem_of_nodes_child1.
    + intros p Hp.
      apply (Hb (Leaf b1 o1) e0);
        [apply elem_of_nodes_root
        |apply elem_of_nodes_child0, elem_of_nodes_root|done].
    + intros p Hp.
      apply (Hb (Leaf b1 o1) e1);
        [apply elem_of_nodes_root
        |apply elem_of_nodes_child1, elem_of_nodes_root|done].
  - apply (settles_ext _ _
             (nearer_first (distance b2 (bv c0)) (distance b2 (bv c1))
                (distanceRecurse callback c0 (Leaf b2 o2))
                (distanceRecurse callback c1 (Leaf b2 o2)))); [done|].
    change (leaves (Internal b1 c0 c1)) with (leaves c0 ++ leaves c1).
    rewrite pairs_between_app_l.
    apply nearer_first_settles.
    + apply IH0. intros n1 n2 H1 H2. apply Hb; [|done].
      by apply elem_of_nodes_child0.
    + apply IH1. intros n1 n2 H1 H2. apply Hb; [|done].
      by apply elem_of_nodes_child1.
    + intros p Hp.
      apply (Hb c0 (Leaf b2 o2));
        [apply elem_of_nodes_child0, elem_of_nodes_root
        |apply elem_of_nodes_root|done].
    + intros p Hp.
      apply (Hb c1 (Leaf b2 o2));
        [apply elem_of_nodes_child1, elem_of_nodes_root
        |apply elem_of_nodes_root|done].
  - destruct (Qlt_bool (size b2) (size b1)) eqn:E.
    + apply (settles_ext _ _
               (nearer_first (distance b2 (bv c0)) (distance b2 (bv c1))
                  (distanceRecurse callback c0 (Internal b2 e0 e1))
                  (distanceRecurse callback c1 (Internal b2 e0 e1)))).
      { intros cdata m.
        change (distanceRecurse callback (Internal b1 c0 c1)
                  (Internal b2 e0 e1) cdata m)
          with (if false || (negb false && Qlt_bool (size b2) (size b1))
                then nearer_first (distance b2 (bv c0)) (distance b2 (bv c1))
                       (distanceRecurse callback c0 (Internal b2 e0 e1))
                       (distanceRecurse callback c1 (Internal b2 e0 e1))
                       cdata m
                else nearer_first (distance b1 (bv e0)) (distance b1 (bv e1))
                       (distanceRecurse callback (Internal b1 c0 c1) e0)
                       (distanceRecurse callback (Internal b1 c0 c1) e1)
                       cdata m).
        by rewrite E. }
      change (leaves (Internal b1 c0 c1)) with (leaves c0 ++ leaves c1).
      rewrite pairs_between_app_l.
      apply nearer_first_settles.
      * apply IH0. intros n1 n2 H1 H2. apply Hb; [|done].
        by apply elem_of_nodes_child0.
      * apply IH1. intros n1 n2 H1 H2. apply Hb; [|done].
        by apply elem_of_nodes_child1.
      * intros p Hp.
        apply (Hb c0 (Internal b2 e0 e1));
          [apply elem_of_nodes_child0, elem_of_nodes_root
          |apply elem_of_nodes_root|done].
      * intros p Hp.
        apply (Hb c1 (Internal b2 e0 e1));
          [apply elem_of_nodes_child1, elem_of_nodes_root
          |apply elem_of_nodes_root|done].
    + apply (settles_ext _ _
               (nearer_first (distance b1 (bv e0)) (distance b1 (bv e1))
                  (distanceRecurse callback (Internal b1 c0 c1) e0)
                  (distanceRecurse callback (Internal b1 c0 c1) e1))).
      { intros cdata m.
        change (distanceRecurse callback (Internal b1 c0 c1)
                  (Internal b2 e0 e1) cdata m)
          with (if false || (negb false && Qlt_bool (size b2) (size b1))
                then nearer_first (distance b2 (bv c0)) (distance b2 (bv c1))
                       (distanceRecurse callback c0 (Internal b2 e0 e1))
                       (distanceRecurse callback c1 (Internal b2 e0 e1))
                       cdata m
                else nearer_first (distance b1 (bv e0)) (distance b1 (bv e1))
                       (distanceRecurse callback (Internal b1 c0 c1) e0)
                       (distanceRecurse callback (Internal b1 c0 c1) e1)
                       cdata m).
        by rewrite E. }
      apply (settles_perm _
               (pairs_between (leaves (Internal b1 c0 c1)) (leaves e0)
                ++ pairs_between (leaves (Internal b1 c0 c1)) (leaves e1))).
      { intros p.
        change (leaves (Internal b2 e0 e1)) with (leaves e0 ++ leaves e1).
        by rewrite pairs_between_app_r. }
      apply nearer_first_settles.
      * apply IHe0. intros n1 n2 H1 H2. apply Hb; [done|].
        by apply elem_of_nodes_child0.
      * apply IHe1. intros n1 n2 H1 H2. apply Hb; [done|].
        by apply elem_of_nodes_child1.
      * intros p Hp.
        apply (Hb (Internal b1 c0 c1) e0);
          [apply elem_of_nodes_root
          |apply elem_of_nodes_child0, elem_of_nodes_root|done].
      * intros p Hp.
        apply (Hb (Internal b1 c0 c1) e1);
          [apply elem_of_nodes_root
          |apply elem_of_nodes_child1, elem_of_nodes_root|done].
Qed.

(** The same for the traversal of one tree against itself, over the
    unordered pairs of its leaves. *)
Lemma selfDistanceRecurse_settles callback d (root : NodeBase) :
  reports_between callback d -> never_stops callback ->
  lower_bounded_within d root = true ->
  settles (between d) (pairs_within (leaves root))
    (selfDistanceRecurse callback root).
Proof.
  intros Hrep Hgo. induction root as [b o | b c0 IH0 c1 IH1]; intros Hlb.
  - intros cdata m. cbn. repeat split; [lra| |by left].
    intros l Hl. by apply elem_of_nil in Hl.
  - cbn [lower_bounded_within] in Hlb.
    apply andb_true_iff in Hlb as [Hlb H01].
    apply andb_true_iff in Hlb as [H0 H1].
    apply (settles_perm _
             (pairs_within (leaves c0)
              ++ (pairs_within (leaves c1)
                  ++ pairs_between (leaves c0) (leaves c1)))).
    { intros p. cbn [leaves]. by rewrite pairs_within_app. }
    eapply settles_ext;
      [|apply then_settles;
          [apply IH0, H0
          |apply then_settles;
             [apply IH1, H1
             |apply (distanceRecurse_settles callback d c0 c1 Hrep Hgo);
              by apply lower_bounded_between_here]]].
    intros cdata m. cbn [selfDistanceRecurse].
    destruct (selfDistanceRecurse callback c0 cdata m) as [[[] cdata1] m1];
      [done|].
    destruct (selfDistanceRecurse callback c1 cdata1 m1) as [[[] cdata2] m2];
      [done|].
    by destruct (distanceRecurse callback c0 c1 cdata2 m2) as [[[] ?] ?].
Qed.

End DistanceTraversal.

(** *** The manager: [setup], [update], [unregisterObject] *)



Section ManagerFacts.

Context {BO : BVOps} {OG : OctreeGeometry} {OB : Objects}.
Context {T : Type} {HT : HierarchyTree T}.
Implicit Types m : DynamicAABBTreeCollisionManager (T := T).


(** [update_] on an object that is not in the table touches neither the
    tree nor the table; it marks the manager dirty. *)
Lemma update__unknown m (obj : CollisionObject) :
  table m !! obj = None ->
  update_ m obj = Some (with_setup m false).
Proof. intros H. unfold update_. by rewrite H. Qed.

(** C2, what [unregisterObject] does with an object that is not in the
    table: the null entry that [table[obj]] creates is erased again, and
    the null pointer is handed to [dtree.remove]. *)
Theorem unregisterObject_unknown m (obj : CollisionObject) :
  table m !! obj = None ->
  unregisterObject m obj
  = t ← tree_remove (dtree m) NULL; Some (with_tree m t (table m)).
Proof.
  intros H. unfold unregisterObject. rewrite H.
  rewrite lookup_insert_eq. cbn [default].
  by rewrite delete_insert_eq, delete_id.
Qed.



Context {CData : Type}.

(** C9.  Every query on an empty manager, and every query between two
    managers one of which is empty, returns at once: whatever the
    callback, the user's data comes back as it went in.  So a callback
    that records its calls has recorded none, and a distance callback that
    keeps the running [min_dist], started at the largest [Scalar], still
    holds that value. *)
Theorem queries_on_empty_manager m (other : DynamicAABBTreeCollisionManager (T := T))
    (obj : CollisionObject) (cdata : CData)
    (on_collision : CollisionCallBack) (on_distance : DistanceCallBack) :
  manager_size m = 0%Z ->
  collide m obj cdata on_collision = Some cdata
  /\ distance_obj m obj cdata on_distance = Some cdata
  /\ collide_self m cdata on_collision = Some cdata
  /\ distance_self m cdata on_distance = Some cdata
  /\ collide_manager m other cdata on_collision = Some cdata
  /\ collide_manager other m cdata on_collision = Some cdata
  /\ distance_manager m other cdata on_distance = Some cdata
  /\ distance_manager other m cdata on_distance = Some cdata
  /\ (forall stop, collide m obj [] (recording stop) = Some []
                   /\ collide_self m [] (recording stop) = Some []
                   /\ collide_manager m other [] (recording stop) = Some []
                   /\ collide_manager other m [] (recording stop) = Some [])
  /\ (forall d stop,
        distance_obj m obj Scalar_max (tracking d stop) = Some Scalar_max
        /\ distance_self m Scalar_max (tracking d stop) = Some Scalar_max
        /\ distance_manager m other Scalar_max (tracking d stop) = Some Scalar_max
        /\ distance_manager other m Scalar_max (tracking d stop) = Some Scalar_max).
Proof.
  intros H.
  unfold collide, distance_obj, collide_self, distance_self, collide_manager,
    distance_manager.
  rewrite H. cbn [Z.eqb orb]. rewrite orb_true_r. done.
Qed.


(** The query of one manager against another hands the callback the
    pairs of [collisionCalls], first component from this manager and
    second from the other, in order and until a call returns [true]; under
    the containment invariant those are the pairs of leaves, one of each
    manager, whose boxes intersect, each exactly once. *)
Theorem collide_manager_pairs m (other : DynamicAABBTreeCollisionManager (T := T))
    (root1 root2 : NodeBase) (cdata : CData) (callback : CollisionCallBack) :
  manager_size m <> 0%Z -> manager_size other <> 0%Z ->
  tree_getRoot (dtree m) = Some root1 ->
  tree_getRoot (dtree other) = Some root2 ->
  containment root1 = true -> containment root2 = true ->
  collide_manager m other cdata callback
  = Some (snd (run_calls callback (collisionCalls root1 root2) cdata))
  /\ collisionCalls root1 root2
     ≡ₚ overlapping_between (leaves root1) (leaves root2).
Proof.
  intros Hm Ho Hr1 Hr2 Hc1 Hc2. split; [|by apply collisionCalls_pairs].
  unfold collide_manager. apply Z.eqb_neq in Hm, Ho.
  rewrite Hm, Ho, Hr1, Hr2. cbn. by rewrite collisionRecurse_run.
Qed.

(** The collision query of one object that is not walked as an octree
    hands the callback the pairs of [collisionCalls_query], a leaf of the
    manager first and the query second, in order and until a call returns
    [true]; under the containment invariant those are the leaves whose
    boxes intersect the box of the query, each exactly once. *)
Theorem collide_query_leaves m (root : NodeBase) (query : CollisionObject)
    (cdata : CData) (callback : CollisionCallBack) :
  manager_size m <> 0%Z ->
  tree_getRoot (dtree m) = Some root ->
  containment root = true ->
  as_octree query = None \/ octree_as_geometry_collide m = true ->
  collide m query cdata callback
  = Some (snd (run_calls callback (collisionCalls_query root query) cdata))
  /\ collisionCalls_query root query
     ≡ₚ (fun l => (snd l, query))
        <$> filter (touching (getAABB query)) (leaves root).
Proof.
  intros Hsize Hroot Hinv Hkind.
  split; [|by apply collisionCalls_query_leaves].
  unfold collide. apply Z.eqb_neq in Hsize. rewrite Hsize, Hroot. cbn.
  rewrite <- collisionRecurse_query_run.
  destruct (as_octree query) as [octree|]; [|done].
  destruct Hkind as [?|Hgeom]; [done|]. by rewrite Hgeom.
Qed.

(** C5, as the code has it.  At an internal node the traversal of one
    object against the tree visits first the child whose box is nearer to
    the query (child [0] on a tie) and enters a child only while the AABB
    distance of its box is below the current [min_dist].  When the
    callback reports distances [d] that the AABB distances bound from
    below and never returns [true], the terminal [min_dist] is at most
    [d x] for every leaf [x], at most the initial value, and equal to
    [d x] for a nearest leaf [x] as soon as one is nearer than the
    initial value.  A query by an object that is not walked as an octree
    runs this traversal from the largest [Scalar]. *)
Theorem distance_query_min_dist m (root : NodeBase) (query : CollisionObject)
    (d : CollisionObject -> Scalar) (callback : DistanceCallBack)
    (cdata : CData) (min_dist : Scalar) :
  lower_bounded d (getAABB query) root = true ->
  reports callback query d ->
  never_stops callback ->
  let terminal :=
    snd (distanceRecurse_query callback root query cdata min_dist) in
  (forall l, l ∈ leaves root -> terminal <= d (snd l))
  /\ terminal <= min_dist
  /\ ((exists l, l ∈ leaves root /\ d (snd l) < min_dist) ->
      exists l, l ∈ leaves root /\ terminal = d (snd l))
  /\ (forall (any : DistanceCallBack (CData := CData)) bv_ c0 c1 cdata' min_dist',
        let dist n := distance (getAABB query) (bv n) in
        let near := if Qlt_bool (dist c1) (dist c0) then c1 else c0 in
        let far := if Qlt_bool (dist c1) (dist c0) then c0 else c1 in
        dist near <= dist far
        /\ distanceRecurse_query any (Internal bv_ c0 c1) query cdata' min_dist'
           = let '(stop, cdata1, min_dist1) :=
               if Qlt_bool (dist near) min_dist'
               then distanceRecurse_query any near query cdata' min_dist'
               else (false, cdata', min_dist') in
             if stop then (true, cdata1, min_dist1)
             else if Qlt_bool (dist far) min_dist1
                  then distanceRecurse_query any far query cdata1 min_dist1
                  else (false, cdata1, min_dist1))
  /\ (manager_size m <> 0%Z ->
      tree_getRoot (dtree m) = Some root ->
      as_octree query = None \/ octree_as_geometry_distance m = true ->
      distance_obj m query cdata callback
      = Some (snd (fst (distanceRecurse_query callback root query cdata
                          Scalar_max)))).
Proof.
  intros Hlb Hrep Hgo terminal.
  destruct (distanceRecurse_query_settles callback query d root Hrep Hgo Hlb
              cdata min_dist) as (_ & Hle & Hall & Hex).
  fold terminal in Hle, Hall, Hex.
  split; [exact Hall|]. split; [exact Hle|]. split; [|split].
  - intros (l & Hl & Hlt). destruct Hex as [Heq|Hex]; [|exact Hex].
    specialize (Hall l Hl). rewrite Heq in Hall. lra.
  - intros any bv_ c0 c1 cdata' min_dist'.
    apply distanceRecurse_query_step.
  - intros Hsize Hroot Hkind. unfold distance_obj.
    apply Z.eqb_neq in Hsize. rewrite Hsize, Hroot. cbn.
    destruct (as_octree query) as [octree|]; [|done].
    destruct Hkind as [?|Hgeom]; [done|]. by rewrite Hgeom.
Qed.

(** The self-distance query runs [selfDistanceRecurse] from the largest
    [Scalar].  When the callback reports distances [d] that the AABB
    distances bound from below and never returns [true], the terminal
    [min_dist] is at most [d] of every unordered pair of leaves, at most
    the initial value, and equal to [d] of a nearest pair as soon as one
    is nearer than the initial value. *)
Theorem self_distance_min_dist m (root : NodeBase)
    (d : CollisionObject -> CollisionObject -> Scalar)
    (callback : DistanceCallBack) (cdata : CData) (min_dist : Scalar) :
  lower_bounded_within d root = true ->
  reports_between callback d ->
  never_stops callback ->
  let terminal := snd (selfDistanceRecurse callback root cdata min_dist) in
  (forall p, p ∈ pairs_within (leaves root) -> terminal <= between d p)
  /\ terminal <= min_dist
  /\ ((exists p, p ∈ pairs_within (leaves root) /\ between d p < min_dist) ->
      exists p, p ∈ pairs_within (leaves root) /\ terminal = between d p)
  /\ (manager_size m <> 0%Z ->
      tree_getRoot (dtree m) = Some root ->
      distance_self m cdata callback
      = Some (snd (fst (selfDistanceRecurse callback root cdata Scalar_max)))).
Proof.
  intros Hlb Hrep Hgo terminal.
  destruct (selfDistanceRecurse_settles callback d root Hrep Hgo Hlb
              cdata min_dist) as (_ & Hle & Hall & Hex).
  fold terminal in Hle, Hall, Hex.
  split; [exact Hall|]. split; [exact Hle|]. split.
  - intros (p & Hp & Hlt). destruct Hex as [Heq|Hex]; [|exact Hex].
    specialize (Hall p Hp). rewrite Heq in Hall. lra.
  - intros Hsize Hroot. unfold distance_self.
    apply Z.eqb_neq in Hsize. by rewrite Hsize, Hroot.
Qed.

(** The distance query of one manager against another runs
    [distanceRecurse] on the two roots from the largest [Scalar], with the
    same outcome over the pairs of leaves, one of each manager. *)
Theorem distance_manager_min_dist m
    (other : DynamicAABBTreeCollisionManager (T := T))
    (root1 root2 : NodeBase)
    (d : CollisionObject -> CollisionObject -> Scalar)
    (callback : DistanceCallBack) (cdata : CData) (min_dist : Scalar) :
  lower_bounded_between d root1 root2 = true ->
  reports_between callback d ->
  never_stops callback ->
  let terminal := snd (distanceRecurse callback root1 root2 cdata min_dist) in
  let L := pairs_between (leaves root1) (leaves root2) in
  (forall p, p ∈ L -> terminal <= between d p)
  /\ terminal <= min_dist
  /\ ((exists p, p ∈ L /\ between d p < min_dist) ->
      exists p, p ∈ L /\ terminal = between d p)
  /\ (manager_size m <> 0%Z -> manager_size other <> 0%Z ->
      tree_getRoot (dtree m) = Some root1 ->
      tree_getRoot (dtree other) = Some root2 ->
      distance_manager m other cdata callback
      = Some (snd (fst (distanceRecurse callback root1 root2 cdata
                          Scalar_max)))).
Proof.
  intros Hlb Hrep Hgo terminal L.
  destruct (distanceRecurse_settles callback d root1 root2 Hrep Hgo
              (lower_bounded_between_here d root1 root2 Hlb)
              cdata min_dist) as (_ & Hle & Hall & Hex).
  fold terminal in Hle, Hall, Hex. fold L in Hall, Hex.
  split; [exact Hall|]. split; [exact Hle|]. split.
  - intros (p & Hp & Hlt). destruct Hex as [Heq|Hex]; [|exact Hex].
    specialize (Hall p Hp). rewrite Heq in Hall. lra.
  - intros Hm Ho Hr1 Hr2. unfold distance_manager.
    apply Z.eqb_neq in Hm, Ho. by rewrite Hm, Ho, Hr1, Hr2.
Qed.

End ManagerFacts.

(** *** Octree cells handed to the callback *)

Section OctreeFacts.

Context {BO : BVOps} {OG : OctreeGeometry} {OB : Objects}.
Context {CData : Type}.
Implicit Types callback : CollisionCallBack (CData := CData).

(** A missing octree cell against a leaf, general path: the box carries
    the default occupancy of the octree. *)
Lemma collisionRecurse__Transform3_null_cell callback bv1 obj1 tree2
    root2_bv tf2 cdata :
  isFree obj1 = false ->
  OBB_overlap (convertBV_OBB bv1 Identity) (convertBV_OBB root2_bv tf2) = true ->
  collisionRecurse__Transform3 callback (Leaf bv1 obj1) tree2 None root2_bv
    tf2 cdata
  = callback (object obj1)
      (transient
         {| side := side (fst (constructBox root2_bv tf2));
            cost_density := getDefaultOccupancy tree2;
            threshold_occupied :=
              threshold_occupied (fst (constructBox root2_bv tf2)) |}
         (snd (constructBox root2_bv tf2))) cdata.
Proof.
  intros Hfree Hov. cbn. rewrite Hfree, Hov. cbn.
  by destruct (constructBox root2_bv tf2).
Qed.

(** A missing octree cell against a leaf, translation path: the box
    carries the occupancy threshold of the octree. *)
Lemma collisionRecurse__Vector3_null_cell callback bv1 obj1 tree2
    root2_bv translation2 cdata :
  isFree obj1 = false ->
  overlap bv1 (translate root2_bv translation2) = true ->
  collisionRecurse__Vector3 callback (Leaf bv1 obj1) tree2 None root2_bv
    translation2 cdata
  = let built := constructBox root2_bv (from_translation translation2) in
    callback (object obj1)
      (transient
         {| side := side (fst built);
            cost_density := getOccupancyThres tree2;
            threshold_occupied := threshold_occupied (fst built) |}
         (snd built)) cdata.
Proof.
  intros Hfree Hov. cbn. rewrite Hfree, Hov. cbn.
  by destruct (constructBox root2_bv (from_translation translation2)).
Qed.

(** A present octree cell without children against a leaf, on either
    path: the box carries the occupancy of the cell and the occupancy
    threshold of the octree. *)
Lemma collisionRecurse_terminal_cell callback bv1 obj1 tree2 occupancy
    children root2_bv tf2 translation2 cdata :
  let root2 := OcNode occupancy children in
  nodeHasChildren root2 = false ->
  isNodeFree tree2 root2 = false ->
  isFree obj1 = false ->
  (OBB_overlap (convertBV_OBB bv1 Identity) (convertBV_OBB root2_bv tf2) = true ->
   collisionRecurse__Transform3 callback (Leaf bv1 obj1) tree2 (Some root2)
     root2_bv tf2 cdata
   = let built := constructBox root2_bv tf2 in
     callback (object obj1)
       (transient
          {| side := side (fst built);
             cost_density := occupancy;
             threshold_occupied := getOccupancyThres tree2 |}
          (snd built)) cdata)
  /\ (overlap bv1 (translate root2_bv translation2) = true ->
      collisionRecurse__Vector3 callback (Leaf bv1 obj1) tree2 (Some root2)
        root2_bv translation2 cdata
      = let built := constructBox root2_bv (from_translation translation2) in
        callback (object obj1)
          (transient
             {| side := side (fst built);
                cost_density := occupancy;
                threshold_occupied := getOccupancyThres tree2 |}
             (snd built)) cdata).
Proof.
  intros root2 Hleaf Hocc Hfree. subst root2. split; intros Hov.
  - cbn [collisionRecurse__Transform3 collisionRecurse__Transform3_node isLeaf].
    rewrite Hleaf, Hocc, Hfree, Hov. cbn.
    by destruct (constructBox root2_bv tf2).
  - cbn [collisionRecurse__Vector3 collisionRecurse__Vector3_node isLeaf].
    rewrite Hleaf, Hocc, Hfree, Hov. cbn.
    by destruct (constructBox root2_bv (from_translation translation2)).
Qed.

(** C8, what the code does for a missing octree cell.  Against a leaf
    whose object is not free, the missing cell whose box overlaps the leaf
    is handed to the callback as a transient [Box] built by
    [constructBox] from [root2_bv] and the transform.  On the general
    path (a transform with a rotation) its cost density is the default
    occupancy of the octree; on the rotation-free translation path it is
    the occupancy threshold of the octree instead. *)
Theorem missing_cell_cost_density callback bv1 obj1 tree2 root2_bv tf2 cdata :
  isFree obj1 = false ->
  (linear_isIdentity tf2 = false ->
   OBB_overlap (convertBV_OBB bv1 Identity) (convertBV_OBB root2_bv tf2) = true ->
   collisionRecurse_octree callback (Leaf bv1 obj1) tree2 None root2_bv tf2 cdata
   = let built := constructBox root2_bv tf2 in
     callback (object obj1)
       (transient
          {| side := side (fst built);
             cost_density := getDefaultOccupancy tree2;
             threshold_occupied := threshold_occupied (fst built) |}
          (snd built)) cdata)
  /\ (linear_isIdentity tf2 = true ->
      overlap bv1 (translate root2_bv (translation tf2)) = true ->
      collisionRecurse_octree callback (Leaf bv1 obj1) tree2 None root2_bv tf2
        cdata
      = let built :=
          constructBox root2_bv (from_translation (translation tf2)) in
        callback (object obj1)
          (transient
             {| side := side (fst built);
                cost_density := getOccupancyThres tree2;
                threshold_occupied := threshold_occupied (fst built) |}
             (snd built)) cdata).
Proof.
  intros Hfree. split; intros Hlin Hov; unfold collisionRecurse_octree;
    rewrite Hlin.
  - by apply collisionRecurse__Transform3_null_cell.
  - by apply collisionRecurse__Vector3_null_cell.
Qed.

End OctreeFacts.

(** *** The other members of the manager *)

Section MemberFacts.

Context {BO : BVOps} {OG : OctreeGeometry} {OB : Objects}.
Context {T : Type} {HT : HierarchyTree T} {HB : HierarchyTreeBulk T}.
Implicit Types m : DynamicAABBTreeCollisionManager (T := T).

Lemma setup_set_up m : setup_ m = true -> setup m = m.
Proof. intros E. unfold setup. by rewrite E. Qed.

Lemma setup_flag m : setup_ (setup m) = true.
Proof.
  unfold setup. destruct (setup_ m) eqn:E; cbn [negb]; [done|].
  by destruct (tree_size (dtree m) =? 0)%Z.
Qed.

Lemma setup_kept m : table_and_settings (setup m) = table_and_settings m.
Proof.
  unfold setup. destruct (negb (setup_ m)); [|done].
  by destruct (tree_size (dtree m) =? 0)%Z.
Qed.

Lemma update__kept m obj m' : update_ m obj = Some m' -> table_and_settings m' = table_and_settings m.
Proof.
  unfold update_. intros H.
  destruct (table m !! obj) as [node|]; cbn in H.
  - destruct (node_bv (dtree m) node) as [b|]; cbn in H; [|done].
    destruct (negb (equal b (getAABB obj))); cbn in H.
    + destruct (tree_update (dtree m) node (getAABB obj)); cbn in H; [|done].
      by injection H as <-.
    + by injection H as <-.
  - by injection H as <-.
Qed.

Lemma update__fold_kept objs : forall m m',
  foldl (fun acc obj => m ← acc; update_ m obj) (Some m) objs = Some m' ->
  table_and_settings m' = table_and_settings m.
Proof.
  induction objs as [|obj objs IH] using rev_ind; intros m m' H.
  - by injection H as <-.
  - rewrite foldl_app in H. cbn in H.
    destruct (foldl _ (Some m) objs) as [m1|] eqn:E; [|done]. cbn in H.
    rewrite (update__kept _ _ _ H). by apply IH.
Qed.

(** No update variant changes the object table or a setting of the
    manager, and each returns with [setup_] set: [update(obj)],
    [update(objs)] and [update()], whenever they return. *)
Theorem update_variants_leave_set_up m m' (obj : CollisionObject)
    (objs : list CollisionObject) :
  update m obj = Some m' \/ update_objs m objs = Some m'
  \/ update_all m = Some m' ->
  setup_ m' = true /\ table_and_settings m' = table_and_settings m.
Proof.
  intros [H|[H|H]].
  - unfold update in H. destruct (update_ m obj) as [m1|] eqn:E; [|done].
    injection H as <-. split; [apply setup_flag|].
    rewrite setup_kept. by apply (update__kept m obj).
  - unfold update_objs in H.
    destruct (foldl _ (Some m) objs) as [m1|] eqn:E; [|done].
    injection H as <-. split; [apply setup_flag|].
    rewrite setup_kept. by apply (update__fold_kept objs).
  - unfold update_all in H.
    destruct (foldl _ (Some (dtree m)) _) as [t|]; [|done].
    injection H as <-. split; [apply setup_flag|].
    by rewrite setup_kept.
Qed.

(** [update(objs)] clears [setup_] once for each object given, none for
    an empty vector: then it is [setup()] alone, which changes nothing
    on a manager that is set up.  With one object it is [update(obj)];
    with objects none of which is in the table (and at least one) the
    tree is untouched by [update_], the flag is cleared and [setup()]
    runs. *)
Theorem update_objs_cases m :
  update_objs m [] = Some (setup m)
  /\ (setup_ m = true -> update_objs m [] = Some m)
  /\ (forall obj, update_objs m [obj] = update m obj)
  /\ (forall objs, objs <> [] ->
      Forall (fun obj => table m !! obj = None) objs ->
      update_objs m objs = Some (setup (with_setup m false))).
Proof.
  split; [done|]. split; [|split].
  - intros E. unfold update_objs. cbn. by rewrite setup_set_up.
  - done.
  - intros objs Hne Hall. unfold update_objs.
    assert (Hfold : forall flag,
      foldl (fun acc obj => m0 ← acc; update_ m0 obj)
        (Some (with_setup m flag)) objs
      = Some (with_setup m (if objs is [] then flag else false))).
    { clear Hne. induction Hall as [|obj objs Hobj _ IH]; intros flag; [done|].
      cbn [foldl]. cbn [mbind option_bind].
      assert (update_ (with_setup m flag) obj = Some (with_setup m false))
        as ->.
      { unfold update_. cbn [table with_setup]. by rewrite Hobj. }
      rewrite (IH false). by destruct objs. }
    assert (m = with_setup m (setup_ m)) as Hm by (by destruct m).
    rewrite Hm at 1. rewrite Hfold. by destruct objs.
Qed.

(** A manager that is set up stays so through any sequence of
    [registerObject], [registerObjects], [unregisterObject] and [clear]:
    none of them clears [setup_], so [setup()] after them changes
    nothing, whatever became of the tree. *)
Theorem membership_changes_keep_set_up m m' (changes : list MembershipChange) :
  setup_ m = true ->
  apply_changes m changes = Some m' ->
  setup_ m' = true /\ setup m' = m'.
Proof.
  intros Hflag Hrun.
  assert (Hstep : forall m1 m2 change,
            setup_ m1 = true -> apply_change m1 change = Some m2 ->
            setup_ m2 = true).
  { intros m1 m2 [obj|objs|obj|] H1 H; cbn in H.
    - injection H as <-. unfold registerObject.
      by destruct (tree_insert _ _ _).
    - injection H as <-. unfold registerObjects.
      destruct objs as [|obj objs]; [done|].
      destruct (0 <? manager_size m1)%Z.
      + generalize (obj :: objs). intros l.
        revert m1 H1. induction l as [|o l IH]; intros m1 H1; [done|].
        cbn [foldl]. apply IH. unfold registerObject.
        by destruct (tree_insert _ _ _).
      + by destruct (tree_init _ _ _).
    - unfold unregisterObject in H.
      destruct (tree_remove _ _) as [t|]; [|done]. by injection H as <-.
    - by injection H as <-. }
  assert (setup_ m' = true) as Hm'.
  { revert m' Hrun. unfold apply_changes.
    induction changes as [|change changes IH] using rev_ind; intros m' Hrun.
    - by injection Hrun as <-.
    - rewrite foldl_app in Hrun. cbn in Hrun.
      destruct (foldl _ (Some m) changes) as [m1|] eqn:E; [|done].
      cbn in Hrun. eapply Hstep; [|exact Hrun]. by apply IH. }
  split; [exact Hm'|by apply setup_set_up].
Qed.

(** A registered object that is unregistered at once: the node that
    [insert] returned is the node handed to [remove].  The table is as it
    was before when the object was new to it; when the object was in the
    table already, its entry is gone, while the node that entry pointed
    to was not handed to [remove]. *)
Theorem register_then_unregister m (obj : CollisionObject) :
  let inserted := tree_insert (dtree m) (getAABB obj) obj in
  unregisterObject (registerObject m obj) obj
  = (t ← tree_remove inserted.1 inserted.2;
     Some (with_tree m t
             (match table m !! obj with
              | Some _ => delete obj (table m)
              | None => table m
              end))).
Proof.
  intros inserted.
  assert (Htable : match table m !! obj with
                   | Some _ => delete obj (table m)
                   | None => table m
                   end = delete obj (table m)).
  { destruct (table m !! obj) eqn:E; [done|]. symmetry. by apply delete_id. }
  rewrite Htable.
  unfold unregisterObject, registerObject. fold inserted.
  destruct inserted as [t node]. cbn [dtree table with_tree fst snd].
  rewrite !lookup_insert_eq. rewrite ?delete_insert_eq.
  change (default NULL (Some node)) with node.
  destruct (tree_remove t node); reflexivity.
Qed.

Lemma lookup_table_entries_ne tb entries obj :
  obj ∉ entries.*1 -> table_entries tb entries !! obj = tb !! obj.
Proof.
  revert tb. induction entries as [|[o n] entries IH]; intros tb Hni; [done|].
  cbn in *. apply not_elem_of_cons in Hni as [Hne Hni].
  rewrite IH by done. by rewrite lookup_insert_ne.
Qed.

Lemma lookup_table_entries tb entries (i : nat) obj node :
  NoDup entries.*1 ->
  entries !! i = Some (obj, node) ->
  table_entries tb entries !! obj = Some node.
Proof.
  revert tb i. induction entries as [|[o n] entries IH]; intros tb i Hnd Hi;
    [done|].
  cbn in Hnd. apply NoDup_cons in Hnd as [Hni Hnd].
  destruct i as [|i]; cbn in Hi.
  - injection Hi as -> ->. cbn.
    rewrite lookup_table_entries_ne by done. apply lookup_insert_eq.
  - cbn. by apply (IH _ i).
Qed.

(** [registerObjects] of no object changes nothing.  On a manager that
    holds objects it registers the objects one after the other and
    leaves [setup_] as it is.  On a manager that holds none it builds the
    tree with [init] from one leaf for each object, enters each
    (distinct) object in the table with the pointer to its leaf, and
    sets [setup_]: [setup()] after it changes nothing. *)
Theorem registerObjects_cases m (other_objs : list CollisionObject) :
  registerObjects m [] = m
  /\ (other_objs <> [] -> (0 < manager_size m)%Z ->
      registerObjects m other_objs = foldl registerObject m other_objs
      /\ setup_ (registerObjects m other_objs) = setup_ m)
  /\ (other_objs <> [] -> (manager_size m <= 0)%Z ->
      let built :=
        tree_init (dtree m)
          ((fun obj => (getAABB obj, obj)) <$> other_objs)
          (tree_init_level m) in
      let m' := registerObjects m other_objs in
      dtree m' = built.1
      /\ setup_ m' = true
      /\ setup m' = m'
      /\ (NoDup other_objs -> length built.2 = length other_objs ->
          forall (i : nat) obj node,
            other_objs !! i = Some obj -> built.2 !! i = Some node ->
            table m' !! obj = Some node)
      /\ (forall obj, obj ∉ other_objs -> table m' !! obj = table m !! obj)).
Proof.
  split; [done|]. split.
  - intros Hne Hsize. apply Z.ltb_lt in Hsize.
    unfold registerObjects. destruct other_objs as [|obj objs]; [done|].
    rewrite Hsize. split; [done|].
    generalize (obj :: objs). intros l. clear.
    revert m. induction l as [|o l IH]; intros m; [done|].
    cbn [foldl]. rewrite IH. unfold registerObject.
    by destruct (tree_insert _ _ _).
  - intros Hne Hsize built m'. apply Z.ltb_ge in Hsize.
    assert (Hm' : m' = with_setup
                         (with_tree m built.1
                            (table_entries (table m) (zip other_objs built.2)))
                         true).
    { subst m'. unfold registerObjects.
      destruct other_objs as [|obj objs]; [done|].
      rewrite Hsize. fold built. by destruct built. }
    rewrite Hm'. split; [done|]. split; [done|]. split; [done|]. split.
    + intros Hnd Hlen i obj node Hobj Hnode.
      cbn [table with_setup with_tree].
      apply (lookup_table_entries _ _ i).
      * by rewrite fst_zip by lia.
      * rewrite lookup_zip_with. by rewrite Hobj, Hnode.
    + intros obj Hni. cbn [table with_setup with_tree].
      apply lookup_table_entries_ne. intros Hin. apply Hni.
      apply list_elem_of_fmap in Hin as ([o n] & -> & Hin).
      by apply elem_of_zip_l in Hin.
Qed.

(** [getObjects] writes each key of the table once, in the order of the
    table, over the start of the vector resized to [size()].  When the
    tree holds fewer nodes than the table has keys it writes past the
    end.  Otherwise the vector comes back with the length [size()]; its
    slots after the keys hold what [resize] left there: the old content
    of the vector, or a null pointer where it was shorter. *)
Theorem getObjects_keys m (objs : list (option CollisionObject)) :
  let keys := (map_to_list (table m)).*1 in
  let count := Z.to_nat (manager_size m) in
  NoDup keys
  /\ (forall obj, obj ∈ keys <-> is_Some (table m !! obj))
  /\ ((count < length keys)%nat -> getObjects m objs = None)
  /\ ((length keys <= count)%nat ->
      exists out,
        getObjects m objs = Some out
        /\ length out = count
        /\ take (length keys) out = Some <$> keys
        /\ (forall i : nat, (length keys <= i < count)%nat ->
              out !! i = Some (default None (objs !! i))))
  /\ (length keys = count -> getObjects m objs = Some (Some <$> keys)).
Proof.
  intros keys count.
  assert (Hresize : length (resize count None objs) = count)
    by apply length_resize.
  split; [apply NoDup_fst_map_to_list|]. split; [|split; [|split]].
  - intros obj. subst keys. rewrite list_elem_of_fmap. split.
    + intros ([o n] & -> & Hin). apply elem_of_map_to_list in Hin. by exists n.
    + intros [n Hn]. exists (obj, n). split; [done|].
      by apply elem_of_map_to_list.
  - intros Hlt. unfold getObjects. fold keys count.
    destruct (decide _) as [Hle|_]; [|done]. rewrite Hresize in Hle. lia.
  - intros Hle. unfold getObjects. fold keys count.
    destruct (decide _) as [_|Hn]; [|rewrite Hresize in Hn; lia].
    eexists. split; [reflexivity|]. split; [|split].
    + rewrite length_app, length_fmap, length_drop, Hresize. lia.
    + rewrite take_app_length'; [done|]. by rewrite length_fmap.
    + intros i [Hlo Hhi].
      rewrite lookup_app_r by (rewrite length_fmap; lia).
      rewrite length_fmap, lookup_drop.
      replace (length keys + (i - length keys))%nat with i by lia.
      destruct (objs !! i) as [x|] eqn:Hx; simpl.
      * rewrite lookup_resize; [exact Hx|lia|].
        apply lookup_lt_Some in Hx. lia.
      * apply lookup_ge_None in Hx. by rewrite lookup_resize_new by lia.
  - intros Heq. unfold getObjects. fold keys count.
    destruct (decide _) as [_|Hn]; [|rewrite Hresize in Hn; lia].
    rewrite drop_ge by (rewrite Hresize; lia). by rewrite app_nil_r.
Qed.

Context {CData : Type}.

(** After [clear()], when the cleared tree reports the size zero, every
    query returns at once, whatever the manager held before. *)
Theorem queries_after_clear m (other : DynamicAABBTreeCollisionManager (T := T))
    (obj : CollisionObject) (cdata : CData)
    (on_collision : CollisionCallBack) (on_distance : DistanceCallBack) :
  tree_size (tree_clear (dtree m)) = 0%Z ->
  table (clear m) = ∅
  /\ setup_ (clear m) = setup_ m
  /\ collide (clear m) obj cdata on_collision = Some cdata
  /\ distance_obj (clear m) obj cdata on_distance = Some cdata
  /\ collide_self (clear m) cdata on_collision = Some cdata
  /\ distance_self (clear m) cdata on_distance = Some cdata
  /\ collide_manager (clear m) other cdata on_collision = Some cdata
  /\ collide_manager other (clear m) cdata on_collision = Some cdata
  /\ distance_manager (clear m) other cdata on_distance = Some cdata
  /\ distance_manager other (clear m) cdata on_distance = Some cdata.
Proof.
  intros H.
  unfold collide, distance_obj, collide_self, distance_self, collide_manager,
    distance_manager, manager_size.
  cbn [clear dtree table setup_ with_tree].
  rewrite H. cbn [Z.eqb orb]. rewrite orb_true_r. done.
Qed.

End MemberFacts.

(** *** What the collision traversals hand to the callback, whatever the
    tree *)

Section CollisionSoundness.

Context {BO : BVOps} {OG : OctreeGeometry} {OB : Objects}.
Context {CData : Type}.

Lemma collisionCalls_sound (root1 root2 : NodeBase) :
  collisionCalls root1 root2
  ⊆+ overlapping_between (leaves root1) (leaves root2).
Proof.
  revert root2.
  induction root1 as [bv1 data1 | bv1 c0 IH0 c1 IH1];
    induction root2 as [bv2 data2 | bv2 e0 IHe0 e1 IHe1].
  - cbn. unfold overlapping_between. cbn.
    destruct (decide (overlapping (bv1, data1, (bv2, data2)))) as [Hov|Hov];
      unfold overlapping in Hov; cbn in Hov.
    + by rewrite Hov.
    + apply not_true_is_false in Hov. by rewrite Hov.
  - rewrite collisionCalls_leaf_internal.
    destruct (negb (overlap bv1 bv2)); [apply submseteq_nil_l|].
    cbn [leaves]. rewrite overlapping_between_app_r.
    by apply submseteq_app.
  - rewrite collisionCalls_internal_leaf.
    destruct (negb (overlap bv1 bv2)); [apply submseteq_nil_l|].
    cbn [leaves]. rewrite overlapping_between_app_l.
    by apply submseteq_app.
  - rewrite collisionCalls_internal_internal.
    destruct (negb (overlap bv1 bv2)); [apply submseteq_nil_l|].
    destruct (Qlt_bool (size bv2) (size bv1)).
    + change (leaves (Internal bv1 c0 c1)) with (leaves c0 ++ leaves c1).
      rewrite overlapping_between_app_l. by apply submseteq_app.
    + change (leaves (Internal bv2 e0 e1)) with (leaves e0 ++ leaves e1).
      rewrite overlapping_between_app_r. by apply submseteq_app.
Qed.

Lemma selfCollisionCalls_sound (root : NodeBase) :
  selfCollisionCalls root
  ⊆+ objects_of <$> filter overlapping (pairs_within (leaves root)).
Proof.
  induction root as [b o | b c0 IH0 c1 IH1]; [done|].
  cbn [selfCollisionCalls leaves].
  rewrite pairs_within_app, !filter_app, !fmap_app.
  apply submseteq_app; [done|]. apply submseteq_app; [done|].
  apply collisionCalls_sound.
Qed.

Lemma collisionCalls_query_sound (root : NodeBase) (query : CollisionObject) :
  collisionCalls_query root query
  ⊆+ (fun l => (snd l, query))
     <$> filter (touching (getAABB query)) (leaves root).
Proof.
  induction root as [b o | b c0 IH0 c1 IH1].
  - cbn.
    destruct (decide (touching (getAABB query) (b, o))) as [Hov|Hov];
      unfold touching in Hov; cbn in Hov.
    + by rewrite Hov.
    + apply not_true_is_false in Hov. by rewrite Hov.
  - cbn [collisionCalls_query leaves].
    destruct (negb (overlap b (getAABB query))); [apply submseteq_nil_l|].
    cbv zeta. rewrite filter_app, fmap_app.
    destruct (select (getAABB query) c0 c1).
    + rewrite (Permutation_app_comm (_ <$> filter _ (leaves c0))).
      by apply submseteq_app.
    + by apply submseteq_app.
Qed.

(** Whatever the bounding volumes of the internal nodes are (the
    containment invariant is not needed), the three collision traversals
    hand the callback only leaves whose own boxes intersect, and no pair
    more than once: the calls of the traversal of two trees are among the
    pairs of intersecting leaves, one of each tree, those of the
    traversal of a tree against itself among the unordered pairs of its
    intersecting leaves, and those of the traversal against an object
    among the leaves that intersect the box of the object. *)
Theorem collision_calls_sound (callback : CollisionCallBack (CData := CData))
    (root1 root2 : NodeBase) (query : CollisionObject) (cdata : CData) :
  (collisionRecurse callback root1 root2 cdata
   = run_calls callback (collisionCalls root1 root2) cdata
   /\ collisionCalls root1 root2
      ⊆+ overlapping_between (leaves root1) (leaves root2))
  /\ (selfCollisionRecurse callback root1 cdata
      = run_calls callback (selfCollisionCalls root1) cdata
      /\ selfCollisionCalls root1
         ⊆+ objects_of <$> filter overlapping (pairs_within (leaves root1)))
  /\ (collisionRecurse_query callback root1 query cdata
      = run_calls callback (collisionCalls_query root1 query) cdata
      /\ collisionCalls_query root1 query
         ⊆+ (fun l => (snd l, query))
            <$> filter (touching (getAABB query)) (leaves root1)).
Proof.
  split; [|split]; split.
  - apply collisionRecurse_run.
  - apply collisionCalls_sound.
  - apply selfCollisionRecurse_run.
  - apply selfCollisionCalls_sound.
  - apply collisionRecurse_query_run.
  - apply collisionCalls_query_sound.
Qed.

End CollisionSoundness.

(** *** The octree traversals and the callback *)

Section OctreeCalls.

Context {BO : BVOps} {OG : OctreeGeometry} {OB : Objects}.
Context {CData : Type}.

(** Induction on octree nodes, from the children that exist to the node. *)
Lemma OcTreeNode_children_ind (P : OcTreeNode -> Prop) :
  (forall occupancy children,
     (forall i child, children i = Some child -> P child) ->
     P (OcNode occupancy children)) ->
  forall n, P n.
Proof.
  intros step. fix IH 1. intros [occupancy children]. apply step.
  intros i child. destruct (children i) as [c|]; [|discriminate].
  intros [= <-]. apply IH.
Qed.

Lemma for_each_child_preserves {R : Type} (J : R -> Prop)
    (body : nat -> R -> bool * R) (r : R) :
  (forall i r, J r -> J (snd (body i r))) ->
  J r -> J (snd (for_each_child body r)).
Proof.
  intros Hbody. unfold for_each_child. generalize (seq 0 8). intros indices.
  revert r. induction indices as [|i indices IH]; intros r Hr; [done|].
  specialize (Hbody i r Hr). destruct (body i r) as [[] r']; [done|].
  by apply IH.
Qed.

Lemma preserved_on_cells_child0 (callback : CollisionCallBack (CData := CData))
    I b c0 c1 :
  preserved_on_cells callback I (Internal b c0 c1) ->
  preserved_on_cells callback I c0.
Proof.
  intros H b' o box box_tf cdata Hin. apply (H b'). cbn. apply elem_of_app.
  by left.
Qed.

Lemma preserved_on_cells_child1 (callback : CollisionCallBack (CData := CData))
    I b c0 c1 :
  preserved_on_cells callback I (Internal b c0 c1) ->
  preserved_on_cells callback I c1.
Proof.
  intros H b' o box box_tf cdata Hin. apply (H b'). cbn. apply elem_of_app.
  by right.
Qed.

Section Collision.

Variable callback : CollisionCallBack (CData := CData).
Variable I : CData -> Prop.
Variable tree2 : OcTree.

Lemma collisionRecurse__Transform3_null_preserves (root1 : NodeBase)
    (root2_bv : AABB) (tf2 : Transform3) (cdata : CData) :
  preserved_on_cells callback I root1 -> I cdata ->
  I (snd (collisionRecurse__Transform3_null callback root1 tree2 root2_bv
            tf2 cdata)).
Proof.
  revert cdata. induction root1 as [bv1 obj1 | bv1 c0 IH0 c1 IH1];
    intros cdata Hcb HI.
  - cbn. destruct (isFree obj1) eqn:Hfree; [done|]. cbn.
    destruct (OBB_overlap _ _); [|done].
    destruct (constructBox root2_bv tf2) as [box box_tf].
    apply (Hcb bv1); [apply list_elem_of_here|done|done].
  - cbn [collisionRecurse__Transform3_null].
    pose proof (IH0 cdata (preserved_on_cells_child0 _ _ _ _ _ Hcb) HI) as H0.
    destruct (collisionRecurse__Transform3_null callback c0 tree2 root2_bv
                tf2 cdata) as [[] cdata0]; [done|].
    pose proof (IH1 cdata0 (preserved_on_cells_child1 _ _ _ _ _ Hcb) H0) as H1.
    by destruct (collisionRecurse__Transform3_null callback c1 tree2 root2_bv
                   tf2 cdata0) as [[] cdata1].
Qed.

Lemma collisionRecurse__Vector3_null_preserves (root1 : NodeBase)
    (root2_bv : AABB) (translation2 : Vector3) (cdata : CData) :
  preserved_on_cells callback I root1 -> I cdata ->
  I (snd (collisionRecurse__Vector3_null callback root1 tree2 root2_bv
            translation2 cdata)).
Proof.
  revert cdata. induction root1 as [bv1 obj1 | bv1 c0 IH0 c1 IH1];
    intros cdata Hcb HI.
  - cbn. destruct (isFree obj1) eqn:Hfree; [done|]. cbn.
    destruct (overlap _ _); [|done].
    destruct (constructBox root2_bv _) as [box box_tf].
    apply (Hcb bv1); [apply list_elem_of_here|done|done].
  - cbn [collisionRecurse__Vector3_null].
    pose proof (IH0 cdata (preserved_on_cells_child0 _ _ _ _ _ Hcb) HI) as H0.
    destruct (collisionRecurse__Vector3_null callback c0 tree2 root2_bv
                translation2 cdata) as [[] cdata0]; [done|].
    pose proof (IH1 cdata0 (preserved_on_cells_child1 _ _ _ _ _ Hcb) H0) as H1.
    by destruct (collisionRecurse__Vector3_null callback c1 tree2 root2_bv
                   translation2 cdata0) as [[] cdata1].
Qed.

(** One step of [collisionRecurse_] with a [Transform3] at a present
    octree node. *)
Lemma collisionRecurse__Transform3_node_step (tf2 : Transform3)
    occupancy children (root1 : NodeBase) (root2_bv : AABB) (cdata : CData) :
  let root2 := OcNode occupancy children in
  let descend := collisionRecurse__Transform3_node callback tree2 tf2 root2 in
  collisionRecurse__Transform3_node callback tree2 tf2 root2 root1 root2_bv
    cdata
  = if isLeaf root1 && negb (nodeHasChildren root2) then
      match root1 with
      | Leaf bv1 obj1 =>
          if negb (isNodeFree tree2 root2) && negb (isFree obj1) then
            if OBB_overlap (convertBV_OBB bv1 Identity)
                 (convertBV_OBB root2_bv tf2) then
              let (box, box_tf) := constructBox root2_bv tf2 in
              callback (object obj1)
                (transient {| side := side box;
                              cost_density := occupancy;
                              threshold_occupied := getOccupancyThres tree2 |}
                   box_tf) cdata
            else (false, cdata)
          else (false, cdata)
      | Internal _ _ _ => (false, cdata)
      end
    else if isNodeFree tree2 root2
            || negb (OBB_overlap (convertBV_OBB (bv root1) Identity)
                       (convertBV_OBB root2_bv tf2))
    then (false, cdata)
    else if negb (nodeHasChildren root2)
            || (negb (isLeaf root1)
                && Qlt_bool (size root2_bv) (size (bv root1)))
    then
      match root1 with
      | Internal _ child0 child1 =>
          let (stop, cdata) := descend child0 root2_bv cdata in
          if stop then (true, cdata) else
          let (stop, cdata) := descend child1 root2_bv cdata in
          if stop then (true, cdata) else (false, cdata)
      | Leaf _ _ => (false, cdata)
      end
    else
      for_each_child
        (fun i cdata =>
           let child_bv := computeChildBV root2_bv i in
           match children i with
           | Some child =>
               collisionRecurse__Transform3_node callback tree2 tf2 child
                 root1 child_bv cdata
           | None =>
               collisionRecurse__Transform3_null callback root1 tree2
                 child_bv tf2 cdata
           end) cdata.
Proof. destruct root1; reflexivity. Qed.

Lemma collisionRecurse__Vector3_node_step (translation2 : Vector3)
    occupancy children (root1 : NodeBase) (root2_bv : AABB) (cdata : CData) :
  let root2 := OcNode occupancy children in
  let descend :=
    collisionRecurse__Vector3_node callback tree2 translation2 root2 in
  collisionRecurse__Vector3_node callback tree2 translation2 root2 root1
    root2_bv cdata
  = if isLeaf root1 && negb (nodeHasChildren root2) then
      match root1 with
      | Leaf bv1 obj1 =>
          if negb (isNodeFree tree2 root2) && negb (isFree obj1) then
            if overlap bv1 (translate root2_bv translation2) then
              let (box, box_tf) :=
                constructBox root2_bv (from_translation translation2) in
              callback (object obj1)
                (transient {| side := side box;
                              cost_density := occupancy;
                              threshold_occupied := getOccupancyThres tree2 |}
                   box_tf) cdata
            else (false, cdata)
          else (false, cdata)
      | Internal _ _ _ => (false, cdata)
      end
    else if isNodeFree tree2 root2
            || negb (overlap (bv root1) (translate root2_bv translation2))
    then (false, cdata)
    else if negb (nodeHasChildren root2)
            || (negb (isLeaf root1)
                && Qlt_bool (size root2_bv) (size (bv root1)))
    then
      match root1 with
      | Internal _ child0 child1 =>
          let (stop, cdata) := descend child0 root2_bv cdata in
          if stop then (true, cdata) else
          let (stop, cdata) := descend child1 root2_bv cdata in
          if stop then (true, cdata) else (false, cdata)
      | Leaf _ _ => (false, cdata)
      end
    else
      for_each_child
        (fun i cdata =>
           let child_bv := computeChildBV root2_bv i in
           match children i with
           | Some child =>
               collisionRecurse__Vector3_node callback tree2 translation2
                 child root1 child_bv cdata
           | None =>
               collisionRecurse__Vector3_null callback root1 tree2
                 child_bv translation2 cdata
           end) cdata.
Proof. destruct root1; reflexivity. Qed.

Lemma collisionRecurse__Transform3_node_preserves (tf2 : Transform3)
    (root2 : OcTreeNode) :
  forall (root1 : NodeBase) (root2_bv : AABB) (cdata : CData),
    preserved_on_cells callback I root1 -> I cdata ->
    I (snd (collisionRecurse__Transform3_node callback tree2 tf2 root2 root1
              root2_bv cdata)).
Proof.
  induction root2 as [occupancy children IHcell] using OcTreeNode_children_ind.
  induction root1 as [bv1 obj1 | bv1 c0 IH0 c1 IH1];
    intros root2_bv cdata Hcb HI;
    rewrite collisionRecurse__Transform3_node_step; cbv zeta;
    cbn [isLeaf negb andb bv].
  - destruct (negb (nodeHasChildren (OcNode occupancy children))) eqn:Hkids.
    + destruct (isNodeFree tree2 _); [done|].
      destruct (isFree obj1) eqn:Hfree; [done|]. cbn [negb andb].
      destruct (OBB_overlap _ _); [|done].
      destruct (constructBox root2_bv tf2) as [box box_tf].
      apply (Hcb bv1); [apply list_elem_of_here|done|done].
    + destruct (_ || _); [done|]. cbn [orb andb].
      apply for_each_child_preserves; [|done].
      intros i r Hr. cbv zeta. destruct (children i) as [child|] eqn:Hchild.
      * by apply (IHcell i child Hchild).
      * by apply collisionRecurse__Transform3_null_preserves.
  - destruct (_ || _); [done|].
    destruct (_ || _).
    + pose proof (IH0 root2_bv cdata
                    (preserved_on_cells_child0 _ _ _ _ _ Hcb) HI) as H0.
      destruct (collisionRecurse__Transform3_node callback tree2 tf2 _ c0
                  root2_bv cdata) as [[] cdata0]; [done|].
      pose proof (IH1 root2_bv cdata0
                    (preserved_on_cells_child1 _ _ _ _ _ Hcb) H0) as H1.
      by destruct (collisionRecurse__Transform3_node callback tree2 tf2 _ c1
                     root2_bv cdata0) as [[] cdata1].
    + apply for_each_child_preserves; [|done].
      intros i r Hr. cbv zeta. destruct (children i) as [child|] eqn:Hchild.
      * by apply (IHcell i child Hchild).
      * by apply collisionRecurse__Transform3_null_preserves.
Qed.

Lemma collisionRecurse__Vector3_node_preserves (translation2 : Vector3)
    (root2 : OcTreeNode) :
  forall (root1 : NodeBase) (root2_bv : AABB) (cdata : CData),
    preserved_on_cells callback I root1 -> I cdata ->
    I (snd (collisionRecurse__Vector3_node callback tree2 translation2 root2
              root1 root2_bv cdata)).
Proof.
  induction root2 as [occupancy children IHcell] using OcTreeNode_children_ind.
  induction root1 as [bv1 obj1 | bv1 c0 IH0 c1 IH1];
    intros root2_bv cdata Hcb HI;
    rewrite collisionRecurse__Vector3_node_step; cbv zeta;
    cbn [isLeaf negb andb bv].
  - destruct (negb (nodeHasChildren (OcNode occupancy children))) eqn:Hkids.
    + destruct (isNodeFree tree2 _); [done|].
      destruct (isFree obj1) eqn:Hfree; [done|]. cbn [negb andb].
      destruct (overlap _ _); [|done].
      destruct (constructBox root2_bv _) as [box box_tf].
      apply (Hcb bv1); [apply list_elem_of_here|done|done].
    + destruct (_ || _); [done|]. cbn [orb andb].
      apply for_each_child_preserves; [|done].
      intros i r Hr. cbv zeta. destruct (children i) as [child|] eqn:Hchild.
      * by apply (IHcell i child Hchild).
      * by apply collisionRecurse__Vector3_null_preserves.
  - destruct (_ || _); [done|].
    destruct (_ || _).
    + pose proof (IH0 root2_bv cdata
                    (preserved_on_cells_child0 _ _ _ _ _ Hcb) HI) as H0.
      destruct (collisionRecurse__Vector3_node callback tree2 translation2 _
                  c0 root2_bv cdata) as [[] cdata0]; [done|].
      pose proof (IH1 root2_bv cdata0
                    (preserved_on_cells_child1 _ _ _ _ _ Hcb) H0) as H1.
      by destruct (collisionRecurse__Vector3_node callback tree2 translation2
                     _ c1 root2_bv cdata0) as [[] cdata1].
    + apply for_each_child_preserves; [|done].
      intros i r Hr. cbv zeta. destruct (children i) as [child|] eqn:Hchild.
      * by apply (IHcell i child Hchild).
      * by apply collisionRecurse__Vector3_null_preserves.
Qed.

(** The collision traversal of a tree against an octree calls the
    callback only on a leaf object of the tree that is not free, paired
    with a transient box: every property of the user's data that such
    calls keep holds when the traversal returns.  It makes no call at all
    when the root cell of the octree is free. *)
Theorem octree_collision_calls (root1 : NodeBase)
    (root2 : option OcTreeNode) (root2_bv : AABB) (tf2 : Transform3)
    (cdata : CData) :
  preserved_on_cells callback I root1 ->
  I cdata ->
  I (snd (collisionRecurse_octree callback root1 tree2 root2 root2_bv tf2
            cdata))
  /\ (forall cell, root2 = Some cell -> isNodeFree tree2 cell = true ->
      collisionRecurse_octree callback root1 tree2 root2 root2_bv tf2 cdata
      = (false, cdata)).
Proof.
  intros Hcb HI. split.
  - unfold collisionRecurse_octree, collisionRecurse__Vector3,
      collisionRecurse__Transform3.
    destruct (linear_isIdentity tf2), root2 as [cell|].
    + by apply collisionRecurse__Vector3_node_preserves.
    + by apply collisionRecurse__Vector3_null_preserves.
    + by apply collisionRecurse__Transform3_node_preserves.
    + by apply collisionRecurse__Transform3_null_preserves.
  - intros [occupancy children] -> Hfree.
    unfold collisionRecurse_octree, collisionRecurse__Vector3,
      collisionRecurse__Transform3.
    destruct (linear_isIdentity tf2).
    + rewrite collisionRecurse__Vector3_node_step. cbv zeta. rewrite Hfree.
      cbn [negb andb orb].
      destruct (isLeaf root1 && _); [by destruct root1|done].
    + rewrite collisionRecurse__Transform3_node_step. cbv zeta. rewrite Hfree.
      cbn [negb andb orb].
      destruct (isLeaf root1 && _); [by destruct root1|done].
Qed.

End Collision.

Section Distance.

Variable callback : DistanceCallBack (CData := CData).
Variable I : CData -> Scalar -> Prop.
Variable tree2 : OcTree.

Implicit Types visit : CData -> Scalar -> bool * CData * Scalar.

Lemma visit_if_closer_preserves visit (d : Scalar) cdata min_dist :
  (forall cdata min_dist, I cdata min_dist ->
     I (snd (fst (visit cdata min_dist))) (snd (visit cdata min_dist))) ->
  I cdata min_dist ->
  I (snd (fst (visit_if_closer d visit cdata min_dist)))
    (snd (visit_if_closer d visit cdata min_dist)).
Proof.
  intros Hv HI. unfold visit_if_closer.
  destruct (Qlt_bool d min_dist); [by apply Hv|done].
Qed.

Lemma nearer_first_preserves visit0 visit1 (d1 d2 : Scalar) cdata min_dist :
  (forall cdata min_dist, I cdata min_dist ->
     I (snd (fst (visit0 cdata min_dist))) (snd (visit0 cdata min_dist))) ->
  (forall cdata min_dist, I cdata min_dist ->
     I (snd (fst (visit1 cdata min_dist))) (snd (visit1 cdata min_dist))) ->
  I cdata min_dist ->
  I (snd (fst (nearer_first d1 d2 visit0 visit1 cdata min_dist)))
    (snd (nearer_first d1 d2 visit0 visit1 cdata min_dist)).
Proof.
  intros H0 H1 HI. unfold nearer_first.
  destruct (Qlt_bool d2 d1).
  - pose proof (visit_if_closer_preserves visit1 d2 cdata min_dist H1 HI) as Ha.
    destruct (visit_if_closer d2 visit1 cdata min_dist) as [[[] c] m]; [done|].
    pose proof (visit_if_closer_preserves visit0 d1 c m H0 Ha) as Hb.
    by destruct (visit_if_closer d1 visit0 c m) as [[[] c'] m'].
  - pose proof (visit_if_closer_preserves visit0 d1 cdata min_dist H0 HI) as Ha.
    destruct (visit_if_closer d1 visit0 cdata min_dist) as [[[] c] m]; [done|].
    pose proof (visit_if_closer_preserves visit1 d2 c m H1 Ha) as Hb.
    by destruct (visit_if_closer d2 visit1 c m) as [[[] c'] m'].
Qed.

Lemma preserved_on_cells_distance_child0 b c0 c1 :
  preserved_on_cells_distance callback I (Internal b c0 c1) ->
  preserved_on_cells_distance callback I c0.
Proof.
  intros H b' o box box_tf cdata min_dist Hin. apply (H b'). cbn.
  apply elem_of_app. by left.
Qed.

Lemma preserved_on_cells_distance_child1 b c0 c1 :
  preserved_on_cells_distance callback I (Internal b c0 c1) ->
  preserved_on_cells_distance callback I c1.
Proof.
  intros H b' o box box_tf cdata min_dist Hin. apply (H b'). cbn.
  apply elem_of_app. by right.
Qed.

(** One step of [distanceRecurse_] with a [Transform3]. *)
Lemma distanceRecurse__Transform3_step (tf2 : Transform3)
    occupancy children (root1 : NodeBase) (root2_bv : AABB) (cdata : CData)
    (min_dist : Scalar) :
  let root2 := OcNode occupancy children in
  let descend := distanceRecurse__Transform3 callback tree2 tf2 root2 in
  distanceRecurse__Transform3 callback tree2 tf2 root2 root1 root2_bv cdata
    min_dist
  = if isLeaf root1 && negb (nodeHasChildren root2) then
      match root1 with
      | Leaf _ data1 =>
          if isNodeOccupied tree2 root2 then
            let (box, box_tf) := constructBox root2_bv tf2 in
            callback (object data1) (transient box box_tf) cdata min_dist
          else (false, cdata, min_dist)
      | Internal _ _ _ => (false, cdata, min_dist)
      end
    else if negb (isNodeOccupied tree2 root2) then (false, cdata, min_dist)
    else if negb (nodeHasChildren root2)
            || (negb (isLeaf root1)
                && Qlt_bool (size root2_bv) (size (bv root1)))
    then
      match root1 with
      | Internal _ child0 child1 =>
          let aabb2 := convertBV_AABB root2_bv tf2 in
          nearer_first (distance aabb2 (bv child0)) (distance aabb2 (bv child1))
            (fun cdata min_dist => descend child0 root2_bv cdata min_dist)
            (fun cdata min_dist => descend child1 root2_bv cdata min_dist)
            cdata min_dist
      | Leaf _ _ => (false, cdata, min_dist)
      end
    else
      let '(stop, (cdata, min_dist)) :=
        for_each_child
          (fun i '(cdata, min_dist) =>
             match children i with
             | Some child =>
                 let child_bv := computeChildBV root2_bv i in
                 let aabb2 := convertBV_AABB child_bv tf2 in
                 let d := distance (bv root1) aabb2 in
                 let '(stop, cdata, min_dist) :=
                   visit_if_closer d
                     (distanceRecurse__Transform3 callback tree2 tf2 child
                        root1 child_bv)
                     cdata min_dist in
                 (stop, (cdata, min_dist))
             | None => (false, (cdata, min_dist))
             end) (cdata, min_dist) in
      (stop, cdata, min_dist).
Proof. destruct root1; reflexivity. Qed.

Lemma distanceRecurse__Vector3_step (translation2 : Vector3)
    occupancy children (root1 : NodeBase) (root2_bv : AABB) (cdata : CData)
    (min_dist : Scalar) :
  let root2 := OcNode occupancy children in
  let descend := distanceRecurse__Vector3 callback tree2 translation2 root2 in
  distanceRecurse__Vector3 callback tree2 translation2 root2 root1 root2_bv
    cdata min_dist
  = if isLeaf root1 && negb (nodeHasChildren root2) then
      match root1 with
      | Leaf _ data1 =>
          if isNodeOccupied tree2 root2 then
            let (box, box_tf) :=
              constructBox root2_bv (from_translation translation2) in
            callback (object data1) (transient box box_tf) cdata min_dist
          else (false, cdata, min_dist)
      | Internal _ _ _ => (false, cdata, min_dist)
      end
    else if negb (isNodeOccupied tree2 root2) then (false, cdata, min_dist)
    else if negb (nodeHasChildren root2)
            || (negb (isLeaf root1)
                && Qlt_bool (size root2_bv) (size (bv root1)))
    then
      match root1 with
      | Internal _ child0 child1 =>
          let aabb2 := translate root2_bv translation2 in
          nearer_first (distance aabb2 (bv child0)) (distance aabb2 (bv child1))
            (fun cdata min_dist => descend child0 root2_bv cdata min_dist)
            (fun cdata min_dist => descend child1 root2_bv cdata min_dist)
            cdata min_dist
      | Leaf _ _ => (false, cdata, min_dist)
      end
    else
      let '(stop, (cdata, min_dist)) :=
        for_each_child
          (fun i '(cdata, min_dist) =>
             match children i with
             | Some child =>
                 let child_bv := computeChildBV root2_bv i in
                 let aabb2 := translate child_bv translation2 in
                 let d := distance (bv root1) aabb2 in
                 let '(stop, cdata, min_dist) :=
                   visit_if_closer d
                     (distanceRecurse__Vector3 callback tree2 translation2
                        child root1 child_bv)
                     cdata min_dist in
                 (stop, (cdata, min_dist))
             | None => (false, (cdata, min_dist))
             end) (cdata, min_dist) in
      (stop, cdata, min_dist).
Proof. destruct root1; reflexivity. Qed.

Lemma distanceRecurse__Transform3_preserves (tf2 : Transform3)
    (root2 : OcTreeNode) :
  forall (root1 : NodeBase) (root2_bv : AABB) (cdata : CData)
         (min_dist : Scalar),
    preserved_on_cells_distance callback I root1 -> I cdata min_dist ->
    let out := distanceRecurse__Transform3 callback tree2 tf2 root2 root1
                 root2_bv cdata min_dist in
    I (snd (fst out)) (snd out).
Proof.
  induction root2 as [occupancy children IHcell] using OcTreeNode_children_ind.
  assert (Hloop : forall root1 root2_bv cdata min_dist,
    preserved_on_cells_distance callback I root1 -> I cdata min_dist ->
    let out :=
      for_each_child
        (fun i '(cdata, min_dist) =>
           match children i with
           | Some child =>
               let child_bv := computeChildBV root2_bv i in
               let aabb2 := convertBV_AABB child_bv tf2 in
               let d := distance (bv root1) aabb2 in
               let '(stop, cdata, min_dist) :=
                 visit_if_closer d
                   (distanceRecurse__Transform3 callback tree2 tf2 child
                      root1 child_bv)
                   cdata min_dist in
               (stop, (cdata, min_dist))
           | None => (false, (cdata, min_dist))
           end) (cdata, min_dist) in
    I (fst (snd out)) (snd (snd out))).
  { intros root1 root2_bv cdata min_dist Hcb HI.
    apply (for_each_child_preserves (fun r => I (fst r) (snd r))); [|done].
    intros i [c m] Hr. cbn [fst snd] in Hr.
    destruct (children i) as [child|] eqn:Hchild; [|done]. cbv zeta.
    pose proof (visit_if_closer_preserves
                  (distanceRecurse__Transform3 callback tree2 tf2 child root1
                     (computeChildBV root2_bv i))
                  (distance (bv root1)
                     (convertBV_AABB (computeChildBV root2_bv i) tf2))
                  c m) as Hv.
    destruct (visit_if_closer _ _ c m) as [[stop c'] m']. cbn [fst snd] in *.
    apply Hv; [|done]. intros c0 m0 H0.
    by apply (IHcell i child Hchild). }
  induction root1 as [bv1 obj1 | bv1 c0 IH0 c1 IH1];
    intros root2_bv cdata min_dist Hcb HI;
    rewrite distanceRecurse__Transform3_step; cbv zeta;
    cbn [isLeaf negb andb bv].
  - destruct (negb (nodeHasChildren (OcNode occupancy children))) eqn:Hkids.
    + destruct (isNodeOccupied tree2 _); [|done].
      destruct (constructBox root2_bv tf2) as [box box_tf].
      apply (Hcb bv1); [apply list_elem_of_here|done].
    + destruct (negb (isNodeOccupied tree2 _)); [done|]. cbn [orb andb].
      pose proof (Hloop (Leaf bv1 obj1) root2_bv cdata min_dist Hcb HI) as Hl.
      cbv zeta in Hl.
      by destruct (for_each_child _ _) as [stop [c m]].
  - destruct (negb (isNodeOccupied tree2 _)); [done|].
    destruct (_ || _).
    + apply nearer_first_preserves; [| |done].
      * intros c m Hc. apply IH0; [|done].
        by apply (preserved_on_cells_distance_child0 bv1 c0 c1).
      * intros c m Hc. apply IH1; [|done].
        by apply (preserved_on_cells_distance_child1 bv1 c0 c1).
    + pose proof (Hloop (Internal bv1 c0 c1) root2_bv cdata min_dist Hcb HI)
        as Hl.
      cbv zeta in Hl.
      by destruct (for_each_child _ _) as [stop [c m]].
Qed.

Lemma distanceRecurse__Vector3_preserves (translation2 : Vector3)
    (root2 : OcTreeNode) :
  forall (root1 : NodeBase) (root2_bv : AABB) (cdata : CData)
         (min_dist : Scalar),
    preserved_on_cells_distance callback I root1 -> I cdata min_dist ->
    let out := distanceRecurse__Vector3 callback tree2 translation2 root2
                 root1 root2_bv cdata min_dist in
    I (snd (fst out)) (snd out).
Proof.
  induction root2 as [occupancy children IHcell] using OcTreeNode_children_ind.
  assert (Hloop : forall root1 root2_bv cdata min_dist,
    preserved_on_cells_distance callback I root1 -> I cdata min_dist ->
    let out :=
      for_each_child
        (fun i '(cdata, min_dist) =>
           match children i with
           | Some child =>
               let child_bv := computeChildBV root2_bv i in
               let aabb2 := translate child_bv translation2 in
               let d := distance (bv root1) aabb2 in
               let '(stop, cdata, min_dist) :=
                 visit_if_closer d
                   (distanceRecurse__Vector3 callback tree2 translation2
                      child root1 child_bv)
                   cdata min_dist in
               (stop, (cdata, min_dist))
           | None => (false, (cdata, min_dist))
           end) (cdata, min_dist) in
    I (fst (snd out)) (snd (snd out))).
  { intros root1 root2_bv cdata min_dist Hcb HI.
    apply (for_each_child_preserves (fun r => I (fst r) (snd r))); [|done].
    intros i [c m] Hr. cbn [fst snd] in Hr.
    destruct (children i) as [child|] eqn:Hchild; [|done]. cbv zeta.
    pose proof (visit_if_closer_preserves
                  (distanceRecurse__Vector3 callback tree2 translation2 child
                     root1 (computeChildBV root2_bv i))
                  (distance (bv root1)
                     (translate (computeChildBV root2_bv i) translation2))
                  c m) as Hv.
    destruct (visit_if_closer _ _ c m) as [[stop c'] m']. cbn [fst snd] in *.
    apply Hv; [|done]. intros c0 m0 H0.
    by apply (IHcell i child Hchild). }
  induction root1 as [bv1 obj1 | bv1 c0 IH0 c1 IH1];
    intros root2_bv cdata min_dist Hcb HI;
    rewrite distanceRecurse__Vector3_step; cbv zeta;
    cbn [isLeaf negb andb bv].
  - destruct (negb (nodeHasChildren (OcNode occupancy children))) eqn:Hkids.
    + destruct (isNodeOccupied tree2 _); [|done].
      destruct (constructBox root2_bv _) as [box box_tf].
      apply (Hcb bv1); [apply list_elem_of_here|done].
    + destruct (negb (isNodeOccupied tree2 _)); [done|]. cbn [orb andb].
      pose proof (Hloop (Leaf bv1 obj1) root2_bv cdata min_dist Hcb HI) as Hl.
      cbv zeta in Hl.
      by destruct (for_each_child _ _) as [stop [c m]].
  - destruct (negb (isNodeOccupied tree2 _)); [done|].
    destruct (_ || _).
    + apply nearer_first_preserves; [| |done].
      * intros c m Hc. apply IH0; [|done].
        by apply (preserved_on_cells_distance_child0 bv1 c0 c1).
      * intros c m Hc. apply IH1; [|done].
        by apply (preserved_on_cells_distance_child1 bv1 c0 c1).
    + pose proof (Hloop (Internal bv1 c0 c1) root2_bv cdata min_dist Hcb HI)
        as Hl.
      cbv zeta in Hl.
      by destruct (for_each_child _ _) as [stop [c m]].
Qed.

(** The distance traversal of a tree against an octree calls the callback
    only on a leaf object of the tree paired with a transient box, and
    changes [min_dist] nowhere else: every property of the user's data
    and [min_dist] that such calls keep holds when the traversal returns.
    It makes no call at all when the root cell of the octree is not
    occupied. *)
Theorem octree_distance_calls (root1 : NodeBase) (root2 : OcTreeNode)
    (root2_bv : AABB) (tf2 : Transform3) (cdata : CData) (min_dist : Scalar) :
  preserved_on_cells_distance callback I root1 ->
  I cdata min_dist ->
  let out := distanceRecurse_octree callback root1 tree2 root2 root2_bv tf2
               cdata min_dist in
  I (snd (fst out)) (snd out)
  /\ (isNodeOccupied tree2 root2 = false -> out = (false, cdata, min_dist)).
Proof.
  intros Hcb HI out. subst out. split.
  - unfold distanceRecurse_octree. destruct (linear_isIdentity tf2).
    + by apply distanceRecurse__Vector3_preserves.
    + by apply distanceRecurse__Transform3_preserves.
  - intros Hfree. destruct root2 as [occupancy children].
    unfold distanceRecurse_octree. destruct (linear_isIdentity tf2).
    + rewrite distanceRecurse__Vector3_step. cbv zeta. rewrite Hfree.
      cbn [negb]. destruct (isLeaf root1 && _); [by destruct root1|done].
    + rewrite distanceRecurse__Transform3_step. cbv zeta. rewrite Hfree.
      cbn [negb]. destruct (isLeaf root1 && _); [by destruct root1|done].
Qed.

End Distance.

End OctreeCalls.

(** *** Queries with an octree that has no root cell *)

Section NullRoot.

Context {BO : BVOps} {OG : OctreeGeometry} {OB : Objects}.
Context {T : Type} {HT : HierarchyTree T}.
Context {CData : Type}.

(** A query object that is an octree without a root cell, on a manager
    that is not empty and walks octrees cell by cell: the collision query
    runs the traversal with a null cell, which is provided for, while
    the distance query hands the null cell to a traversal that
    dereferences it. *)
Theorem octree_null_root_queries (m : DynamicAABBTreeCollisionManager (T := T))
    (root : NodeBase) (query : CollisionObject) (octree : OcTree)
    (cdata : CData)
    (on_collision : CollisionCallBack) (on_distance : DistanceCallBack) :
  manager_size m <> 0%Z ->
  tree_getRoot (dtree m) = Some root ->
  as_octree query = Some octree ->
  getRoot octree = None ->
  (octree_as_geometry_collide m = false ->
   collide m query cdata on_collision
   = Some (snd (if linear_isIdentity (getTransform query)
                then collisionRecurse__Vector3_null on_collision root octree
                       (getRootBV octree) (translation (getTransform query))
                       cdata
                else collisionRecurse__Transform3_null on_collision root octree
                       (getRootBV octree) (getTransform query) cdata)))
  /\ (octree_as_geometry_distance m = false ->
      distance_obj m query cdata on_distance = None).
Proof.
  intros Hsize Hroot Hoct Hnull. apply Z.eqb_neq in Hsize. split; intros Hwalk.
  - unfold collide. rewrite Hsize, Hroot, Hoct, Hwalk, Hnull. cbn.
    unfold collisionRecurse_octree. by destruct (linear_isIdentity _).
  - unfold distance_obj. rewrite Hsize, Hroot, Hoct, Hwalk, Hnull. done.
Qed.

End NullRoot.

(** *** Queries that meet the objects of the manager itself *)

Section SelfExclusion.

Context {BO : BVOps} {OG : OctreeGeometry} {OB : Objects}.
Context {T : Type} {HT : HierarchyTree T}.
Context {CData : Type}.

Lemma overlap_sym (a b : AABB) : overlap a b = overlap b a.
Proof.
  unfold overlap, axis_overlap.
  by rewrite (andb_comm (Qle_bool (vx (min_ a)) _)),
             (andb_comm (Qle_bool (vy (min_ a)) _)),
             (andb_comm (Qle_bool (vz (min_ a)) _)).
Qed.

Lemma pairs_between_cons_r {A} (l : list A) (a : A) (k : list A) :
  pairs_between l (a :: k) ≡ₚ ((fun b => (b, a)) <$> l) ++ pairs_between l k.
Proof.
  unfold pairs_between. induction l as [|b l IH]; [done|].
  cbn. rewrite IH. f_equiv. apply Permutation_app_swap_app.
Qed.

Lemma pairs_between_same {A} (l : list A) :
  pairs_between l l
  ≡ₚ ((fun a => (a, a)) <$> l) ++ pairs_within l
     ++ ((fun p => (snd p, fst p)) <$> pairs_within l).
Proof.
  induction l as [|a l IH]; [done|].
  change (pairs_between (a :: l) (a :: l))
    with ((a, a) :: map (pair a) l ++ pairs_between l (a :: l)).
  rewrite pairs_between_cons_r, IH. cbn [fmap list_fmap pairs_within].
  rewrite !fmap_app, <- list_fmap_compose. cbn.
  apply Permutation_skip.
  change ((fun p : A * A => (snd p, fst p)) ∘ pair a <$> l)
    with ((fun b : A => (b, a)) <$> l).
  generalize ((fun b : A => (b, a)) <$> l) (map (pair a) l)
    ((fun a0 : A => (a0, a0)) <$> l) (pairs_within l)
    ((fun p : A * A => (snd p, fst p)) <$> pairs_within l).
  intros Y X D W S.
  rewrite <- (assoc_L (++) X W).
  rewrite (Permutation_app_swap_app Y D).
  rewrite (Permutation_app_swap_app X D).
  do 2 f_equiv. apply Permutation_app_swap_app.
Qed.

Lemma filter_overlapping_swap
    (ps : list ((AABB * CollisionObject) * (AABB * CollisionObject))) :
  filter overlapping ((fun p => (snd p, fst p)) <$> ps)
  = (fun p => (snd p, fst p)) <$> filter overlapping ps.
Proof.
  induction ps as [|p ps IH]; [done|].
  cbn [fmap list_fmap]. rewrite !filter_cons.
  destruct (decide (overlapping (snd p, fst p))) as [H|H];
    destruct (decide (overlapping p)) as [H'|H'];
    unfold overlapping in *; cbn [fst snd] in *.
  - cbn. by rewrite <- IH.
  - by rewrite overlap_sym in H.
  - by rewrite overlap_sym in H.
  - exact IH.
Qed.

Lemma overlapping_with_itself (L : list (AABB * CollisionObject)) :
  Forall (fun l => overlap (fst l) (fst l) = true) L ->
  objects_of <$> filter overlapping ((fun a => (a, a)) <$> L)
  = (fun l => (snd l, snd l)) <$> L.
Proof.
  induction 1 as [|l L Hl _ IH]; [done|].
  cbn [fmap list_fmap]. rewrite filter_cons_True by exact Hl.
  cbn [fmap list_fmap]. by rewrite <- IH.
Qed.

(** The queries do not leave out the object itself.  A manager queried
    against itself with [collide(other_manager)] hands the callback every
    object paired with itself and every pair of intersecting leaves in
    both orders (the self-collision query hands over each pair once and
    no object with itself).  And [collide(obj)] with an object of the
    manager whose leaf box intersects its own AABB hands over that object
    paired with itself. *)
Theorem queries_meet_the_object_itself
    (m : DynamicAABBTreeCollisionManager (T := T)) (root : NodeBase)
    (cdata : CData) (callback : CollisionCallBack) :
  manager_size m <> 0%Z ->
  tree_getRoot (dtree m) = Some root ->
  containment root = true ->
  Forall (fun l => overlap (fst l) (fst l) = true) (leaves root) ->
  let crossing := filter overlapping (pairs_within (leaves root)) in
  (collide_manager m m cdata callback
   = Some (snd (run_calls callback (collisionCalls root root) cdata))
   /\ collisionCalls root root
      ≡ₚ ((fun l => (snd l, snd l)) <$> leaves root)
         ++ (objects_of <$> crossing)
         ++ ((fun p => (snd (snd p), snd (fst p))) <$> crossing))
  /\ (forall b obj,
        (b, obj) ∈ leaves root -> overlap b (getAABB obj) = true ->
        as_octree obj = None \/ octree_as_geometry_collide m = true ->
        collide m obj cdata callback
        = Some (snd (run_calls callback (collisionCalls_query root obj) cdata))
        /\ (obj, obj) ∈ collisionCalls_query root obj).
Proof.
  intros Hsize Hroot Hinv Hboxes crossing. apply Z.eqb_neq in Hsize. split.
  - split.
    { unfold collide_manager. rewrite Hsize, Hroot. cbn.
      by rewrite collisionRecurse_run. }
    rewrite collisionCalls_pairs by done. unfold overlapping_between.
    rewrite pairs_between_same, !filter_app, !fmap_app.
    rewrite filter_overlapping_swap. fold crossing.
    rewrite overlapping_with_itself by done.
    by rewrite <- list_fmap_compose.
  - intros b obj Hin Hov Hkind. split.
    + unfold collide. rewrite Hsize, Hroot. cbn.
      rewrite <- collisionRecurse_query_run.
      destruct (as_octree obj) as [octree|]; [|done].
      destruct Hkind as [?|Hgeom]; [done|]. by rewrite Hgeom.
    + rewrite collisionCalls_query_leaves by done.
      apply list_elem_of_fmap. exists (b, obj). split; [done|].
      apply list_elem_of_filter. by split.
Qed.

End SelfExclusion.

(** *** The examples *)

(** One cube registered; the object [2] is unknown to the manager.  The
    reference tree refuses the null pointer that [unregisterObject] hands
    to it: the call is no no-op. *)
Lemma unregisterObject_unknown_witness :
  table (registered (OB := cubes) [1%positive]) !! 2%positive = None
  /\ unregisterObject (registered (OB := cubes) [1%positive]) 2%positive = None.
Proof.
  split; [reflexivity|].
  rewrite (unregisterObject_unknown (registered (OB := cubes) [1%positive])
             2%positive eq_refl).
  reflexivity.
Defined.


(** Every query on the manager no object was registered with. *)
Lemma queries_on_empty_manager_witness :
  collide (OB := cubes) new_manager 1%positive [] (recording false) = Some []
  /\ distance_obj (OB := cubes) new_manager 1%positive Scalar_max
       (tracking (fun _ _ => 1) false)
     = Some Scalar_max
  /\ collide_manager new_manager (registered (OB := cubes) [1; 2]%positive) []
       (recording false)
     = Some [].
Proof.
  assert (H0 : manager_size new_manager = 0%Z) by reflexivity.
  destruct (queries_on_empty_manager (OB := cubes) new_manager
              (registered (OB := cubes) [1; 2]%positive) 1%positive
              [] (recording false)
              (fun _ _ cdata min_dist => (false, cdata, min_dist)) H0)
    as (H1 & _ & _ & _ & H5 & _ & _ & _ & Hc & Hd).
  split; [exact H1|]. split; [|exact H5].
  apply (Hd (fun _ _ => 1) false).
Defined.



(** The scene of the slabs, the query object [9] and the distances a
    callback reports for the objects [1], [2] and [3]. *)
Lemma distance_query_min_dist_witness :
  let d o := gap_distance (getAABB (Objects := slabs) 9%positive)
               (getAABB (Objects := slabs) o) in
  let result :=
    distanceRecurse_query (OB := slabs)
      (tracking (fun a _ => match a with object o => d o | _ => 0 end) false)
      (Internal (slab 2 13) (Leaf (slab 2 3) 1%positive)
         (Internal (slab 3 13) (Leaf (slab 12 13) 2%positive)
            (Leaf (slab 3 4) 3%positive)))
      9%positive Scalar_max Scalar_max in
  snd result <= d 1%positive /\ snd result <= d 2%positive
  /\ snd result <= d 3%positive /\ snd result <= Scalar_max.
Proof.
  intros d result.
  destruct (distance_query_min_dist (OB := slabs) lopsided
              (Internal (slab 2 13) (Leaf (slab 2 3) 1%positive)
                 (Internal (slab 3 13) (Leaf (slab 12 13) 2%positive)
                    (Leaf (slab 3 4) 3%positive)))
              9%positive d
              (tracking (fun a _ => match a with object o => d o | _ => 0 end) false)
              Scalar_max Scalar_max)
    as (Hall & Hle & _).
  - reflexivity.
  - intros x cdata m. reflexivity.
  - intros a b cdata m. reflexivity.
  - fold result in Hall, Hle.
    split; [|split; [|split]]; [| | |exact Hle].
    + apply (Hall (slab 2 3, 1%positive)). set_solver.
    + apply (Hall (slab 12 13, 2%positive)). set_solver.
    + apply (Hall (slab 3 4, 3%positive)). set_solver.
Defined.

(** The same query, evaluated: the terminal [min_dist] is the distance to
    the nearest slab. *)
Example distance_query_nearest_slab :
  snd (distanceRecurse_query (OB := slabs)
         (tracking
            (fun a b =>
               match a, b with
               | object x, object q =>
                   gap_distance (getAABB (Objects := slabs) q)
                     (getAABB (Objects := slabs) x)
               | _, _ => 0
               end) false)
         (Internal (slab 2 13) (Leaf (slab 2 3) 1%positive)
            (Internal (slab 3 13) (Leaf (slab 12 13) 2%positive)
               (Leaf (slab 3 4) 3%positive)))
         9%positive Scalar_max Scalar_max)
  = 1.
Proof. vm_compute. reflexivity. Qed.

(** C5 as stated fails: the callback reports distances that the AABB
    distances bound from below ([5] for object [1], whose box is at
    distance [1]; [3] for object [3], whose box is at distance [2]) and
    returns [true].  The walk ends after the nearer box, with a terminal
    [min_dist] of [5], above the distance [3] of object [3]. *)
Lemma distance_query_stops_at_first_call :
  let d (o : CollisionObject) : Scalar :=
    if Pos.eqb o 1 then 5 else 3 in
  let callback :=
    tracking (fun a _ => match a with object o => d o | _ => 0 end) true in
  let root :=
    Internal (slab 2 4) (Leaf (slab 2 3) 1%positive)
      (Leaf (slab 3 4) 3%positive) in
  lower_bounded d (getAABB (Objects := slabs) 9%positive) root = true
  /\ reports callback 9%positive d
  /\ snd (distanceRecurse_query (OB := slabs) callback root 9%positive
            Scalar_max Scalar_max) = 5
  /\ d 3%positive = 3.
Proof.
  intros d callback root. split; [reflexivity|]. split; [|split].
  - intros x cdata m. reflexivity.
  - vm_compute. reflexivity.
  - reflexivity.
Qed.



(** A cube at [1/4] against the missing root cell of an octree of default
    occupancy [1/5] and occupancy threshold [1/2], placed without
    rotation: the box handed over has cost density [1/2]. *)
Lemma missing_cell_cost_density_witness :
  let still := {| turns := 0; shift := vec 0 0 0 |} in
  option_map densities
    (Some (snd (collisionRecurse_octree
                  (OB := cube_and_octree empty_octree still)
                  (recording false)
                  (Leaf (unit_box_at (1 # 4)) 1%positive)
                  empty_octree None (unit_box_at 0) still [])))
  = Some [(1 # 2, 1)].
Proof.
  intros still.
  destruct (missing_cell_cost_density
              (OB := cube_and_octree empty_octree still) (recording false)
              (unit_box_at (1 # 4)) 1%positive empty_octree (unit_box_at 0)
              still [] eq_refl) as [_ Hfast].
  rewrite Hfast; reflexivity.
Defined.

(** The same at the level of the manager: one cube registered, queried
    with an octree object that has no root cell, default occupancy [1/5]
    and occupancy threshold [1/2].  Under a transform without rotation the
    callback is handed a box of cost density [1/2], the threshold; under
    a quarter turn, a box of cost density [1/5], the default occupancy.
    For a present cell both paths hand over its occupancy and the
    threshold. *)
Lemma collide_octree_missing_cell_density :
  let m := octree_walking
             (registered (OB := cube_and_octree empty_octree Identity)
                [1%positive]) in
  let still := {| turns := 0; shift := vec 0 0 0 |} in
  let turned := {| turns := 1; shift := vec 0 0 0 |} in
  let seen octree tf :=
    option_map densities
      (collide (OB := cube_and_octree octree tf) m 2%positive []
         (recording false)) in
  seen empty_octree still = Some [(1 # 2, 1)]
  /\ seen empty_octree turned = Some [(1 # 5, 1)]
  /\ seen one_cell_octree still = Some [(9 # 10, 1 # 2)]
  /\ seen one_cell_octree turned = Some [(9 # 10, 1 # 2)].
Proof. repeat split; vm_compute; reflexivity. Qed.

(** The object [2] is unknown to the manager of one cube: [update_]
    leaves the tree and the table as they are. *)
Lemma update__unknown_witness :
  option_map root_of
    (update_ (OB := cubes) (registered (OB := cubes) [1%positive]) 2%positive)
  = Some (root_of (registered (OB := cubes) [1%positive])).
Proof.
  rewrite (update__unknown (OB := cubes)
             (registered (OB := cubes) [1%positive]) 2%positive eq_refl).
  reflexivity.
Defined.

(** A cube at [1/4] against the one cell of an octree, occupancy [9/10]
    and threshold [1/2], on the translation path. *)
Lemma collisionRecurse_terminal_cell_witness :
  let still := {| turns := 0; shift := vec 0 0 0 |} in
  densities
    (snd (collisionRecurse__Vector3
            (OB := cube_and_octree one_cell_octree still) (recording false)
            (Leaf (unit_box_at (1 # 4)) 1%positive) one_cell_octree
            (Some (OcNode (9 # 10) (fun _ => None))) (unit_box_at 0)
            (vec 0 0 0) []))
  = [(9 # 10, 1 # 2)].
Proof.
  intros still.
  destruct (collisionRecurse_terminal_cell
              (OB := cube_and_octree one_cell_octree still) (recording false)
              (unit_box_at (1 # 4)) 1%positive one_cell_octree (9 # 10)
              (fun _ => None) (unit_box_at 0) still (vec 0 0 0) []
              eq_refl eq_refl eq_refl) as [_ Hfast].
  rewrite Hfast; reflexivity.
Defined.

(** One manager with a cube at [0], another with cubes at [1/4] and [3]:
    one call, on the cubes at [0] and [1/4]. *)
Lemma collide_manager_pairs_witness :
  collide_manager (registered (OB := cubes) [1%positive])
    (registered (OB := cubes) [2; 4]%positive) [] (recording false)
  = Some [(object 1%positive, object 2%positive)].
Proof.
  destruct (collide_manager_pairs
              (registered (OB := cubes) [1%positive])
              (registered (OB := cubes) [2; 4]%positive)
              (Leaf (unit_box_at 0) 1%positive)
              (Internal (merge (unit_box_at (1 # 4)) (unit_box_at 3))
                 (Leaf (unit_box_at (1 # 4)) 2%positive)
                 (Leaf (unit_box_at 3) 4%positive))
              [] (recording false)) as [Hrun _].
  - vm_compute. discriminate.
  - vm_compute. discriminate.
  - vm_compute. reflexivity.
  - vm_compute. reflexivity.
  - vm_compute. reflexivity.
  - vm_compute. reflexivity.
  - rewrite Hrun. reflexivity.
Defined.

(** A manager with cubes at [1/4] and [3] queried with the cube at [0]:
    one call, on the cube at [1/4] and the query. *)
Lemma collide_query_leaves_witness :
  collide (OB := cubes) (registered (OB := cubes) [2; 4]%positive)
    1%positive [] (recording false)
  = Some [(object 2%positive, object 1%positive)].
Proof.
  destruct (collide_query_leaves (OB := cubes)
              (registered (OB := cubes) [2; 4]%positive)
              (Internal (merge (unit_box_at (1 # 4)) (unit_box_at 3))
                 (Leaf (unit_box_at (1 # 4)) 2%positive)
                 (Leaf (unit_box_at 3) 4%positive))
              1%positive [] (recording false)) as [Hrun _].
  - vm_compute. discriminate.
  - vm_compute. reflexivity.
  - vm_compute. reflexivity.
  - left. reflexivity.
  - rewrite Hrun. reflexivity.
Defined.

(** The slabs [9], [1] and [2] (at [0], [2] and [12]), the callback
    reporting the distance of the boxes: the self-distance query ends
    with a running minimum that is at most the distance of every pair. *)
Lemma self_distance_min_dist_witness :
  let gap x y :=
    gap_distance (getAABB (Objects := slabs) x) (getAABB (Objects := slabs) y) in
  let reporting a b :=
    match a, b with
    | object x, object y => gap x y
    | _, _ => 0
    end in
  let root :=
    Internal (slab 0 13) (Leaf (slab 0 1) 9%positive)
      (Internal (slab 2 13) (Leaf (slab 2 3) 1%positive)
         (Leaf (slab 12 13) 2%positive)) in
  let terminal :=
    snd (selfDistanceRecurse (tracking reporting false) root Scalar_max
           Scalar_max) in
  terminal <= gap 9%positive 1%positive
  /\ terminal <= gap 9%positive 2%positive
  /\ terminal <= gap 1%positive 2%positive
  /\ distance_self (registered (OB := slabs) [9; 1; 2]%positive) Scalar_max
       (tracking reporting false)
     = Some (snd (fst (selfDistanceRecurse (tracking reporting false) root
                         Scalar_max Scalar_max))).
Proof.
  intros gap reporting root terminal.
  assert (Hlb : lower_bounded_within gap root = true)
    by (vm_compute; reflexivity).
  assert (Hrep : reports_between (tracking reporting false) gap).
  { intros x y cdata min_dist. reflexivity. }
  assert (Hgo : never_stops (tracking reporting false)).
  { intros a b cdata min_dist. reflexivity. }
  destruct (self_distance_min_dist
              (registered (OB := slabs) [9; 1; 2]%positive) root gap
              (tracking reporting false) Scalar_max Scalar_max Hlb Hrep Hgo)
    as (Hall & _ & _ & Hrun).
  fold terminal in Hall.
  split; [|split; [|split]].
  - apply (Hall (slab 0 1, 9%positive, (slab 2 3, 1%positive))).
    cbn. set_solver.
  - apply (Hall (slab 0 1, 9%positive, (slab 12 13, 2%positive))).
    cbn. set_solver.
  - apply (Hall (slab 2 3, 1%positive, (slab 12 13, 2%positive))).
    cbn. set_solver.
  - apply Hrun; vm_compute; first [discriminate|reflexivity].
Defined.

(** One manager with the slab [9] (at [0]), another with the slabs [1]
    and [2] (at [2] and [12]): the running minimum of the distance query
    between them ends at most at the distance of [9] and [1]. *)
Lemma distance_manager_min_dist_witness :
  let gap x y :=
    gap_distance (getAABB (Objects := slabs) x) (getAABB (Objects := slabs) y) in
  let reporting a b :=
    match a, b with
    | object x, object y => gap x y
    | _, _ => 0
    end in
  let right :=
    Internal (merge (slab 2 3) (slab 12 13))
      (Leaf (slab 2 3) 1%positive) (Leaf (slab 12 13) 2%positive) in
  snd (distanceRecurse (tracking reporting false)
         (Leaf (slab 0 1) 9%positive) right Scalar_max Scalar_max)
  <= gap 9%positive 1%positive
  /\ distance_manager (registered (OB := slabs) [9%positive])
       (registered (OB := slabs) [1; 2]%positive) Scalar_max
       (tracking reporting false)
     = Some (snd (fst (distanceRecurse (tracking reporting false)
                         (Leaf (slab 0 1) 9%positive) right
                         Scalar_max Scalar_max))).
Proof.
  intros gap reporting right.
  assert (Hlb : lower_bounded_between gap (Leaf (slab 0 1) 9%positive) right
                = true) by (vm_compute; reflexivity).
  assert (Hrep : reports_between (tracking reporting false) gap).
  { intros x y cdata min_dist. reflexivity. }
  assert (Hgo : never_stops (tracking reporting false)).
  { intros a b cdata min_dist. reflexivity. }
  destruct (distance_manager_min_dist
              (registered (OB := slabs) [9%positive])
              (registered (OB := slabs) [1; 2]%positive)
              (Leaf (slab 0 1) 9%positive) right gap
              (tracking reporting false) Scalar_max Scalar_max Hlb Hrep Hgo)
    as (Hall & _ & _ & Hrun).
  split.
  - apply (Hall (slab 0 1, 9%positive, (slab 2 3, 1%positive))).
    cbn. apply list_elem_of_here.
  - apply Hrun; vm_compute; first [discriminate|reflexivity].
Defined.

(** The two queries, evaluated: both end with the distance [1] of the
    slabs [9] and [1]. *)
Example distance_queries_nearest_slabs :
  let reporting a b :=
    match a, b with
    | object x, object y =>
        gap_distance (getAABB (Objects := slabs) x)
          (getAABB (Objects := slabs) y)
    | _, _ => 0
    end in
  option_map Qred
    (distance_self (registered (OB := slabs) [9; 1; 2]%positive) Scalar_max
       (tracking reporting false)) = Some 1
  /\ option_map Qred
       (distance_manager (registered (OB := slabs) [9%positive])
          (registered (OB := slabs) [1; 2]%positive) Scalar_max
          (tracking reporting false)) = Some 1.
Proof. split; vm_compute; reflexivity. Qed.

(** Two cubes apart, at [0] and at [3]: the self-distance query with a
    callback that reports the distance of the boxes ends with a running
    minimum of [2]. *)
Example self_distance_two_cubes :
  option_map Qred
    (distance_self (registered (OB := cubes) [1; 4]%positive) Scalar_max
       (tracking
          (fun a b =>
             match a, b with
             | object x, object y =>
                 gap_distance (getAABB (Objects := cubes) x)
                   (getAABB (Objects := cubes) y)
             | _, _ => 0
             end) false))
  = Some 2.
Proof. vm_compute. reflexivity. Qed.

(** The cube [4] registered at [3] and then moved to [1/2] (it is the
    cube [3] of the scene then): after [update] of the moved object the
    self-collision query makes one call. *)
Example update_then_self_collide :
  let before :=
    scene_objects (scene_of [(1%positive, unit_box_at 0);
                             (4%positive, unit_box_at 3)]) in
  let after :=
    scene_objects (scene_of [(1%positive, unit_box_at 0);
                             (4%positive, unit_box_at (1 # 2))]) in
  collide_self (registered (OB := before) [1; 4]%positive) []
    (recording false) = Some []
  /\ (m ← update (OB := after) (registered (OB := before) [1; 4]%positive)
            4%positive;
      collide_self m [] (recording false))
     = Some [(object 1%positive, object 4%positive)].
Proof. split; reflexivity. Qed.

(** The slabs [1] and [3] touch; the manager over them is set up.  Each
    update variant returns with [setup_] set and the table of before. *)
Lemma update_variants_leave_set_up_witness :
  exists m',
    update_all (OB := slabs) lopsided = Some m'
    /\ setup_ m' = true
    /\ table_and_settings m' = table_and_settings lopsided.
Proof.
  destruct (update_all (OB := slabs) lopsided) as [m'|] eqn:E;
    [|vm_compute in E; discriminate].
  exists m'. split; [reflexivity|].
  apply (update_variants_leave_set_up (OB := slabs) lopsided m' 1%positive []).
  right. right. exact E.
Defined.

(** The manager over the slabs, set up, after object [4] is registered,
    object [1] unregistered, everything cleared and the objects [2] and
    [3] registered together: [setup()] changes nothing. *)
Lemma membership_changes_keep_set_up_witness :
  exists m',
    apply_changes (OB := slabs) lopsided
      [DoRegisterObject 4%positive; DoUnregisterObject 1%positive; DoClear;
       DoRegisterObjects [2; 3]%positive] = Some m'
    /\ setup_ m' = true /\ setup m' = m'.
Proof.
  destruct (apply_changes (OB := slabs) lopsided
              [DoRegisterObject 4%positive; DoUnregisterObject 1%positive; DoClear;
               DoRegisterObjects [2; 3]%positive]) as [m'|] eqn:E;
    [|vm_compute in E; discriminate].
  exists m'. split; [reflexivity|].
  apply (membership_changes_keep_set_up (OB := slabs) lopsided m' _ eq_refl E).
Defined.

(** The manager over the cubes [1], [2] and [4], cleared: the
    self-collision query records no call. *)
Lemma queries_after_clear_witness :
  collide_self (clear (registered (OB := cubes) [1; 2; 4]%positive)) []
    (recording false) = Some [].
Proof.
  assert (Hsize : tree_size (tree_clear
                    (dtree (registered (OB := cubes) [1; 2; 4]%positive)))
                  = 0%Z) by reflexivity.
  destruct (queries_after_clear (OB := cubes)
              (registered (OB := cubes) [1; 2; 4]%positive)
              new_manager 1%positive [] (recording false)
              (fun _ _ log min_dist => (false, log, min_dist)) Hsize)
    as (_ & _ & _ & _ & Hself & _).
  exact Hself.
Defined.

(** Bulk registration into a new manager, and then one more object:
    the table holds the three objects, [getObjects] lists them over
    whatever the vector held, and the objects [1] and [2] are found in
    contact. *)
Example registerObjects_then_queries :
  let m := registerObject (OB := cubes)
             (registerObjects (OB := cubes) new_manager [1; 4]%positive)
             2%positive in
  setup_ m = true
  /\ (forall l, getObjects m [Some 9%positive] = Some l ->
        l ≡ₚ [Some 1%positive; Some 2%positive; Some 4%positive])
  /\ collide_self m [] (recording false)
     = Some [(object 1%positive, object 2%positive)].
Proof.
  intros m. split; [reflexivity|]. split; [|reflexivity].
  intros l. vm_compute. intros [= <-].
  apply (Permutation_rev [Some 4%positive; Some 2%positive; Some 1%positive]).
Qed.

(** Cube [4] moved from [3] to [1/2] in the scene: after [update()] the
    self-collision query finds it in contact with cube [1]. *)
Example update_all_then_self_collide :
  let before :=
    scene_objects (scene_of [(1%positive, unit_box_at 0);
                             (4%positive, unit_box_at 3)]) in
  let after :=
    scene_objects (scene_of [(1%positive, unit_box_at 0);
                             (4%positive, unit_box_at (1 # 2))]) in
  collide_self (registered (OB := before) [1; 4]%positive) []
    (recording false) = Some []
  /\ (m ← update_all (OB := after) (registered (OB := before) [1; 4]%positive);
      collide_self m [] (recording false))
     = Some [(object 1%positive, object 4%positive)].
Proof. split; reflexivity. Qed.

(** A tree whose root box lies far from its leaves: the traversal against
    a cube that touches the first leaf makes no call.  The calls are
    among the intersecting pairs, and all of them only under the
    containment invariant. *)
Example collision_calls_without_containment :
  let astray :=
    Internal (unit_box_at 100) (Leaf (unit_box_at 0) 1%positive)
      (Leaf (unit_box_at 3) 4%positive) in
  let other := Leaf (unit_box_at (1 # 4)) 2%positive in
  containment astray = false
  /\ collisionCalls astray other = []
  /\ overlapping_between (leaves astray) (leaves other)
     = [(1%positive, 2%positive)].
Proof. repeat split. Qed.

(** The cube at [1/4] against the octree of two levels, under a quarter
    turn: every call the record holds is on the cube and a transient
    box. *)
Lemma octree_collision_calls_witness :
  let turned := {| turns := 1; shift := vec 0 0 0 |} in
  cells_only (OB := cube_and_octree two_level_octree turned)
    (snd (collisionRecurse_octree
            (OB := cube_and_octree two_level_octree turned)
            (recording false) (Leaf (unit_box_at (1 # 4)) 1%positive)
            two_level_octree (getRoot two_level_octree)
            (getRootBV two_level_octree) turned [])).
Proof.
  intros turned.
  apply (octree_collision_calls
           (OB := cube_and_octree two_level_octree turned)
           (recording false)
           (cells_only (OB := cube_and_octree two_level_octree turned))).
  - intros b o box box_tf log Hin Hfree Hlog. cbn.
    apply Forall_app. split; [exact Hlog|]. by constructor.
  - constructor.
Defined.

(** The same traversal, evaluated: the cube meets the occupied child
    (octant [1]) and the six absent children; the free child (octant
    [7]) is passed over. *)
Example octree_collision_calls_two_levels :
  let turned := {| turns := 1; shift := vec 0 0 0 |} in
  densities
    (snd (collisionRecurse_octree
            (OB := cube_and_octree two_level_octree turned)
            (recording false) (Leaf (unit_box_at (1 # 4)) 1%positive)
            two_level_octree (getRoot two_level_octree)
            (getRootBV two_level_octree) turned []))
  = [(1 # 5, 1); (4 # 5, 1 # 2); (1 # 5, 1); (1 # 5, 1); (1 # 5, 1);
     (1 # 5, 1); (1 # 5, 1)].
Proof. vm_compute. reflexivity. Qed.

(** The cube at [1/4] against the root cell of the octree of two levels,
    with a callback that lowers [min_dist] to the x coordinate of the
    box it is handed: a [min_dist] of at most [5] ends at most at [5]. *)
Lemma octree_distance_calls_witness :
  let still := {| turns := 0; shift := vec 0 0 0 |} in
  let reporting (a b : ObjectPtr) :=
    match b with
    | transient _ box_tf => vx (shift box_tf)
    | object _ => 0
    end in
  exists cell,
    getRoot two_level_octree = Some cell
    /\ snd (distanceRecurse_octree (tracking reporting false)
              (Leaf (unit_box_at (1 # 4)) 1%positive) two_level_octree cell
              (getRootBV two_level_octree) still 5 5) <= 5.
Proof.
  intros still reporting.
  destruct (getRoot two_level_octree) as [cell|] eqn:Hcell; [|discriminate].
  exists cell. split; [reflexivity|].
  apply (octree_distance_calls (tracking reporting false)
           (fun _ min_dist => min_dist <= 5) two_level_octree
           (Leaf (unit_box_at (1 # 4)) 1%positive) cell
           (getRootBV two_level_octree) still 5 5).
  - intros b o box box_tf cdata min_dist _ Hle. cbn.
    unfold lower. destruct (Qlt_bool _ min_dist) eqn:E; [|exact Hle].
    apply Qlt_bool_true in E. apply Qlt_le_weak.
    eapply Qlt_le_trans; [exact E|exact Hle].
  - apply Qle_refl.
Defined.

(** One cube registered, the manager walking octrees, and the query
    object an octree without a root cell: the collision query makes its
    call on a box of default occupancy, the distance query faults. *)
Lemma octree_null_root_queries_witness :
  let still := {| turns := 0; shift := vec 0 0 0 |} in
  let m := octree_walking
             (registered (OB := cube_and_octree empty_octree still)
                [1%positive]) in
  option_map densities
    (collide (OB := cube_and_octree empty_octree still) m 2%positive []
       (recording false))
  = Some [(1 # 2, 1)]
  /\ distance_obj (OB := cube_and_octree empty_octree still) m 2%positive
       (@nil (ObjectPtr * ObjectPtr))
       (fun _ _ log min_dist => (false, log, min_dist))
     = None.
Proof.
  intros still m.
  assert (Hsize : manager_size m <> 0%Z) by (vm_compute; discriminate).
  assert (Hroot : tree_getRoot (dtree m)
                  = Some (Leaf (unit_box_at (1 # 4)) 1%positive))
    by reflexivity.
  destruct (octree_null_root_queries
              (OB := cube_and_octree empty_octree still) m
              (Leaf (unit_box_at (1 # 4)) 1%positive) 2%positive empty_octree
              [] (recording false)
              (fun _ _ log min_dist => (false, log, min_dist))
              Hsize Hroot eq_refl eq_refl) as [Hcollide Hdistance].
  split.
  - rewrite Hcollide; reflexivity.
  - apply Hdistance. reflexivity.
Defined.

(** The manager of the cubes at [0] and [1/4], queried against itself:
    four calls, each cube with itself and the pair in both orders.
    Queried with its cube [1]: two calls, one of them on the cube and
    itself. *)
Lemma queries_meet_the_object_itself_witness :
  let m := registered (OB := cubes) [1; 2]%positive in
  collide_manager m m [] (recording false)
  = Some [(object 1%positive, object 1%positive);
          (object 2%positive, object 1%positive);
          (object 1%positive, object 2%positive);
          (object 2%positive, object 2%positive)]
  /\ collide (OB := cubes) m 1%positive [] (recording false)
     = Some [(object 1%positive, object 1%positive);
             (object 2%positive, object 1%positive)].
Proof.
  intros m.
  assert (Hsize : manager_size m <> 0%Z) by (vm_compute; discriminate).
  assert (Hroot : tree_getRoot (dtree m)
                  = Some (Internal (merge (unit_box_at 0) (unit_box_at (1 # 4)))
                            (Leaf (unit_box_at 0) 1%positive)
                            (Leaf (unit_box_at (1 # 4)) 2%positive)))
    by reflexivity.
  destruct (queries_meet_the_object_itself (OB := cubes) m _ []
              (recording false) Hsize Hroot eq_refl)
    as [[Hboth _] Hone].
  - repeat constructor.
  - split; [rewrite Hboth; reflexivity|].
    destruct (Hone (unit_box_at 0) 1%positive) as [Hrun _].
    + apply list_elem_of_here.
    + reflexivity.
    + by left.
    + rewrite Hrun. reflexivity.
Defined.

(** An object registered twice: the tree holds two leaves for it and the
    table one entry.  [getObjects] leaves a null pointer in the second
    slot, the self-collision query finds the object in contact with
    itself, and [unregisterObject] leaves one of the leaves behind. *)
Example registerObject_twice :
  let twice :=
    registerObject (OB := cubes)
      (registerObject (OB := cubes) new_manager 1%positive) 1%positive in
  manager_size twice = 2%Z
  /\ base.size (table twice) = 1%nat
  /\ getObjects twice [] = Some [Some 1%positive; None]
  /\ collide_self twice [] (recording false)
     = Some [(object 1%positive, object 1%positive)]
  /\ (m ← unregisterObject twice 1%positive;
      Some (manager_size m, base.size (table m))) = Some (1%Z, 0%nat).
Proof. repeat split. Qed.

End BroadphaseFacts.
